(** * Aurora BioLab demo: the candidate generator and the icon synthesizer

    A shallow embedding of [generate_demo] and [molecule_svg] of [app.py],
    and of what the page does with them: [svg_card], the view of the frame
    that is shown, the colours of its rows and the report of [build_pdf].

    - Python [int] is [Z]; Python [float] is IEEE-754 binary64, modelled by its
      rational value with the rounding of every operation written out
      (module [Float]); exceptions are an explicit result type.
    - What the two functions take from libraries ([random], [hash], [math],
      [numpy]'s argsort behind [DataFrame.sort_values]) is an interface with
      the documented contract of each ([PyRandom], [StrHash], [Libm],
      [ArgSort]); [random] and the string hash are also given as CPython
      implements them, with a stable sort, the argsort numpy runs on a CPU
      with AVX-512 and a small [libm], to run the code. *)

From Stdlib Require Import ZArith QArith Qround Qabs Qpower Lia Lqa.
From Stdlib Require Import List Bool String Ascii Permutation.
From Stdlib Require Import Floats DecimalString DecimalZ DecimalN Finite.
Import ListNotations.

Set Implicit Arguments.

(** ** Exceptions *)

Inductive exn : Type :=
| KeyError (key : string)
| OverflowError
| ZeroDivisionError
| ValueError
| IndexError.

Inductive result (A : Type) : Type :=
| Ok (a : A)
| Raise (e : exn).

Arguments Ok {A} a.
Arguments Raise {A} e.

Definition bind {A B : Type} (r : result A) (k : A -> result B) : result B :=
  match r with
  | Ok a => k a
  | Raise e => Raise e
  end.

Notation "'let*' x ':=' r 'in' k" := (bind r (fun x => k))
  (at level 10, x pattern, r at level 100, k at level 200).

Definition is_ok {A : Type} (r : result A) : bool :=
  match r with Ok _ => true | Raise _ => false end.

(** ** Binary64 floating point *)

Module Float.

Open Scope Q_scope.

(** A Python float: a finite value (a rational; the operations below only
    build representable ones), an infinity, or a NaN.  The sign of zero is not
    kept: no operation of the two functions can tell [-0.0] from [0.0] (a sum
    is [-0.0] only when both terms are, and the left term never is). *)
Inductive float : Type :=
| Fin (q : Q)
| Inf (neg : bool)
| NaN.

Definition pow2 (n : Z) : Q := 2 ^ n.

(** [ilog2 x] is the exponent of the binade of [x > 0]:
    [2^(ilog2 x) <= x < 2^(ilog2 x + 1)]. *)
Definition ilog2 (x : Q) : Z :=
  let n := (Z.log2 (Qnum x) - Z.log2 (Zpos (Qden x)))%Z in
  if Qle_bool (pow2 n) x then n else (n - 1)%Z.

(** The exponent of the last place of the double nearest to [x]: 53 bits of
    precision, subnormals below [2^-1022]. *)
Definition quantum (x : Q) : Z := Z.max (ilog2 (Qabs x) - 52) (-1074).

(** Round to the nearest integer, ties to even. *)
Definition rne (t : Q) : Z :=
  let f := Qfloor t in
  match Qcompare (t - inject_Z f) (1 # 2) with
  | Lt => f
  | Gt => (f + 1)%Z
  | Eq => if Z.even f then f else (f + 1)%Z
  end.

(** Round to nearest, ties to even, in binary64 with an unbounded exponent. *)
Definition RN (x : Q) : Q :=
  inject_Z (rne (x / pow2 (quantum x))) * pow2 (quantum x).

(** The float an exact result [x] rounds to: overflow gives an infinity. *)
Definition round_to_float (x : Q) : float :=
  let y := RN x in
  if Qle_bool (pow2 1024) (Qabs y) then Inf (negb (Qle_bool 0 x))
  else Fin (Qred y).

(** A float literal of the source: the double nearest to the decimal. *)
Definition lit (d : Q) : float := round_to_float d.

Definition is_nan (x : float) : bool :=
  match x with NaN => true | _ => false end.

(** [bool(x)] is [x != 0.0]; a NaN is true. *)
Definition is_zero (x : float) : bool :=
  match x with Fin q => Qeq_bool q 0 | _ => false end.

Definition is_negative (q : Q) : bool := negb (Qle_bool 0 q).

Definition fneg (x : float) : float :=
  match x with
  | Fin q => Fin (Qred (- q))
  | Inf s => Inf (negb s)
  | NaN => NaN
  end.

Definition fadd (x y : float) : float :=
  match x, y with
  | NaN, _ | _, NaN => NaN
  | Inf s, Inf s' => if Bool.eqb s s' then Inf s else NaN
  | Inf s, Fin _ | Fin _, Inf s => Inf s
  | Fin a, Fin b => round_to_float (a + b)
  end.

Definition fsub (x y : float) : float := fadd x (fneg y).

Definition fmul (x y : float) : float :=
  match x, y with
  | NaN, _ | _, NaN => NaN
  | Inf s, Inf s' => Inf (xorb s s')
  | Inf s, Fin q | Fin q, Inf s =>
      if Qeq_bool q 0 then NaN else Inf (xorb s (is_negative q))
  | Fin a, Fin b => round_to_float (a * b)
  end.

(** Python's [x / y] on floats: a zero divisor raises, whatever [x] is. *)
Definition fdiv (x y : float) : result float :=
  if is_zero y then Raise ZeroDivisionError
  else Ok match x, y with
          | NaN, _ | _, NaN => NaN
          | Inf _, Inf _ => NaN
          | Inf s, Fin q => Inf (xorb s (is_negative q))
          | Fin _, Inf _ => Fin 0
          | Fin a, Fin b => round_to_float (a / b)
          end.

(** [x < y], [x <= y] and [x == y]: false as soon as one side is a NaN. *)
Definition fltb (x y : float) : bool :=
  match x, y with
  | NaN, _ | _, NaN => false
  | Inf true, Inf true => false
  | Inf true, _ => true
  | _, Inf true => false
  | Inf false, _ => false
  | _, Inf false => true
  | Fin a, Fin b => negb (Qle_bool b a)
  end.

Definition feqb (x y : float) : bool :=
  match x, y with
  | Fin a, Fin b => Qeq_bool a b
  | Inf s, Inf s' => Bool.eqb s s'
  | _, _ => false
  end.

Definition fleb (x y : float) : bool := fltb x y || feqb x y.

(** The builtins [min(a, b)] and [max(a, b)]: the first argument is kept
    unless the second is strictly smaller (larger). *)
Definition py_min (a b : float) : float := if fltb b a then b else a.
Definition py_max (a b : float) : float := if fltb a b then b else a.

(** [x or y]. *)
Definition py_or (x y : float) : float := if is_zero x then y else x.

(** [float(z)] as the arithmetic operators convert an int operand: correctly
    rounded, and an [OverflowError] when the int is too large. *)
Definition float_of_int (z : Z) : result float :=
  match round_to_float (inject_Z z) with
  | Fin q => Ok (Fin q)
  | _ => Raise OverflowError
  end.

(** [a / b] on ints: the correctly rounded quotient. *)
Definition int_truediv (a b : Z) : result float :=
  if (b =? 0)%Z then Raise ZeroDivisionError
  else match round_to_float (inject_Z a / inject_Z b) with
       | Fin q => Ok (Fin q)
       | _ => Raise OverflowError
       end.

(** [z * x] with an int [z] and a float [x]. *)
Definition int_mul_float (z : Z) (x : float) : result float :=
  let* fz := float_of_int z in Ok (fmul fz x).

(** [round(x, nd)]: the exact value is rounded to [nd] decimals, ties to
    even, and the decimal obtained is converted back to the nearest double. *)
Definition py_round (nd : nat) (x : float) : float :=
  match x with
  | Fin q =>
      let scale := inject_Z (10 ^ Z.of_nat nd) in
      round_to_float (inject_Z (rne (q * scale)) / scale)
  | _ => x
  end.

End Float.

(** ** Formatting ints and floats as Python's [str] and [format] do *)

Module Fmt.

Import Float.
Open Scope string_scope.

(** The decimal digits of a natural number, most significant first. *)
Definition digits (n : Z) : Decimal.uint := N.to_uint (Z.to_N n).

(** [d] padded on the left with zeros up to width [w]. *)
Definition zpad (w : nat) (d : Decimal.uint) : Decimal.uint :=
  Nat.iter (w - Decimal.nb_digits d) Decimal.D0 d.

(** [str(z)] for an int. *)
Definition str_int (z : Z) : string :=
  if (z <? 0)%Z then "-" ++ NilEmpty.string_of_uint (digits (- z))
  else NilEmpty.string_of_uint (digits z).

(** [format(z, "0wd")]: sign-aware zero padding to width [w]. *)
Definition format_0d (w : nat) (z : Z) : string :=
  if (z <? 0)%Z then "-" ++ NilEmpty.string_of_uint (zpad (w - 1) (digits (- z)))
  else NilEmpty.string_of_uint (zpad w (digits z)).

(** [format(x, ".ndf")]: the exact value correctly rounded to [nd] decimals,
    ties to even. *)
Definition format_f (nd : nat) (x : float) : string :=
  match x with
  | NaN => "nan"
  | Inf false => "inf"
  | Inf true => "-inf"
  | Fin q =>
      let scale := (10 ^ Z.of_nat nd)%Z in
      let n := rne (Qabs q * inject_Z scale) in
      (if is_negative q then "-" else "")
        ++ NilEmpty.string_of_uint (digits (n / scale))
        ++ "."
        ++ NilEmpty.string_of_uint (zpad nd (digits (n mod scale)))
  end.

(** The double quote, which the markup of the icon is full of. *)
Definition dq : string := String "034" "".

(** [ name="value"] *)
Definition attr (name value : string) : string :=
  " " ++ name ++ "=" ++ dq ++ value ++ dq.

End Fmt.

Import Float.

(** ** The [random] module *)

(** A generator of the [random] module by its documented contract:
    [seeded a] is the state [random.Random(a)] starts in, and the one
    [random.seed(a)] puts a generator in; [random()] returns a float in
    [[0.0, 1.0)] and [randint(a, b)] an int [N] with [a <= N <= b]. *)
Class PyRandom : Type := {
  rng : Type;
  seeded : Z -> rng;
  next_random : rng -> Q * rng;
  next_randint : Z -> Z -> rng -> Z * rng;
  random_range : forall g, 0 <= fst (next_random g) /\ fst (next_random g) < 1;
  randint_range : forall a b g,
    (a <= b)%Z -> (a <= fst (next_randint a b g) <= b)%Z
}.

(** [uniform(a, b)] is [a + (b - a) * self.random()]. *)
Definition uniform `{PyRandom} (a b : float) (g : rng) : float * rng :=
  let (u, g') := next_random g in
  (fadd a (fmul (fsub b a) (Fin u)), g').

(** ** [pandas]: a frame of candidate rows and [sort_values] *)

Module Pandas.

Open Scope string_scope.

(** One dict of [rows]. *)
Record Row : Type := mkRow {
  Molecule : string;
  Activity : float;
  Toxicity : float;
  Composite_score : float;
  Status : string
}.

Inductive cell : Type :=
| CStr (s : string)
| CNum (x : float).

Definition to_dict (r : Row) : list (string * cell) :=
  [ ("Molecule", CStr (Molecule r));
    ("Activity", CNum (Activity r));
    ("Toxicity", CNum (Toxicity r));
    ("Composite score", CNum (Composite_score r));
    ("Status", CStr (Status r)) ].

Fixpoint lookup (k : string) (d : list (string * cell)) : option cell :=
  match d with
  | [] => None
  | (k', v) :: d' => if String.eqb k k' then Some v else lookup k d'
  end.

Record DataFrame : Type := mkFrame {
  columns : list string;
  rows : list Row
}.

(** [pd.DataFrame(rows)]: the columns are the keys of the dicts, and an
    empty list gives a frame with no column at all. *)
Definition DataFrame_of (rs : list Row) : DataFrame :=
  {| columns := match rs with [] => [] | r :: _ => map fst (to_dict r) end;
     rows := rs |}.

Fixpoint all_some {A : Type} (l : list (option A)) : option (list A) :=
  match l with
  | [] => Some []
  | None :: _ => None
  | Some a :: l' => option_map (cons a) (all_some l')
  end.

(** [df[by]], when [by] is a column of the frame. *)
Definition column_values (by_ : string) (df : DataFrame) : option (list cell) :=
  if existsb (String.eqb by_) (columns df)
  then all_some (map (fun r => lookup by_ (to_dict r)) (rows df))
  else None.

Definition cell_le (a b : cell) : bool :=
  match a, b with
  | CNum x, CNum y => fleb x y
  | CStr s, CStr t => String.leb s t
  | _, _ => false
  end.

Definition cell_eq (a b : cell) : bool :=
  match a, b with
  | CNum x, CNum y => feqb x y
  | CStr s, CStr t => String.eqb s t
  | _, _ => false
  end.

Definition isna (c : cell) : bool :=
  match c with CNum x => is_nan x | CStr _ => false end.

(** A float that is not a NaN. *)
Definition is_number (c : cell) : Prop :=
  match c with CNum x => is_nan x = false | CStr _ => False end.

(** [numpy.argsort(a, kind="quicksort")] by its documented contract: the
    indices that sort [a] in ascending order.  Quicksort is not a stable
    sort, so nothing is said of the order of equal keys. *)
Class ArgSort : Type := {
  argsort : list cell -> list nat;
  argsort_perm : forall l, Permutation (argsort l) (seq 0 (List.length l));
  argsort_sorted : forall l,
    Forall is_number l ->
    ForallOrdPairs
      (fun i j => cell_le (nth i l (CNum NaN)) (nth j l (CNum NaN)) = true)
      (argsort l)
}.

(** A stable [argsort] keeps equal keys in index order. *)
Definition stable (sorter : ArgSort) : Prop :=
  forall l,
    Forall is_number l ->
    ForallOrdPairs
      (fun i j =>
         cell_eq (nth i l (CNum NaN)) (nth j l (CNum NaN)) = true -> (i < j)%nat)
      (argsort l).

Section Sorting.

Context {sorter : ArgSort}.

(** [pandas.core.sorting.nargsort(items, kind, ascending,
    na_position="last")]: the missing values are set aside and come last;
    for a descending sort the values are reversed, argsorted in ascending
    order, and the result is reversed again. *)
Definition nargsort (items : list cell) (ascending : bool) : list nat :=
  let indexed := combine (seq 0 (List.length items)) items in
  let kept := filter (fun p => negb (isna (snd p))) indexed in
  let non_nans := map snd kept in
  let non_nan_idx := map fst kept in
  let nan_idx := map fst (filter (fun p => isna (snd p)) indexed) in
  let non_nans := if ascending then non_nans else rev non_nans in
  let non_nan_idx := if ascending then non_nan_idx else rev non_nan_idx in
  let indexer := map (fun j => nth j non_nan_idx O) (argsort non_nans) in
  let indexer := if ascending then indexer else rev indexer in
  indexer ++ nan_idx.

(** [rows.take(indexer)]: an index out of bounds raises. *)
Fixpoint take (rs : list Row) (indexer : list nat) : result (list Row) :=
  match indexer with
  | [] => Ok []
  | i :: indexer' =>
      match nth_error rs i with
      | None => Raise IndexError
      | Some r => let* rs' := take rs indexer' in Ok (r :: rs')
      end
  end.

(** [df.sort_values(by, ascending=...)] with the default [kind]. *)
Definition sort_values (by_ : string) (ascending : bool) (df : DataFrame)
  : result DataFrame :=
  match column_values by_ df with
  | None => Raise (KeyError by_)
  | Some items =>
      let* rs := take (rows df) (nargsort items ascending) in
      Ok {| columns := columns df; rows := rs |}
  end.

(** [df.reset_index(drop=True)]: the rows are renumbered from 0; a frame
    here is indexed by position, so nothing changes. *)
Definition reset_index (df : DataFrame) : DataFrame := df.

End Sorting.

End Pandas.

Import Pandas.

(** ** [generate_demo] *)

Section Generator.

Context {random : PyRandom} {sorter : ArgSort}.

Open Scope string_scope.

(** [range(a, b)]. *)
Definition range (a b : Z) : list Z :=
  map (fun k => (a + Z.of_nat k)%Z) (seq 0 (Z.to_nat (b - a))).

(** The body of the loop, without the [append]. *)
Definition demo_row (i : Z) (g : rng) : Row * rng :=
  let (a, g) := uniform (lit (30 # 100)) (lit (95 # 100)) g in
  let activity := py_round 2 a in
  let (t, g) := uniform (lit (10 # 100)) (lit (80 # 100)) g in
  let toxicity := py_round 2 t in
  let score :=
    py_max (Fin 0)
      (py_min (Fin 1)
         (fmul (fmul activity (fsub (Fin 1) toxicity)) (lit (125 # 100)))) in
  let label :=
    if fleb (lit (7 # 10)) activity && fleb toxicity (lit (5 # 10))
    then "priority" else "reserve" in
  ({| Molecule := "Mol-" ++ Fmt.format_0d 3 i;
      Activity := activity;
      Toxicity := toxicity;
      Composite_score := py_round 2 score;
      Status := label |}, g).

(** The loop [for i in ...: rows.append(...)]. *)
Fixpoint demo_loop (is_ : list Z) (rows : list Row) (g : rng)
  : list Row * rng :=
  match is_ with
  | [] => (rows, g)
  | i :: is' =>
      let (r, g') := demo_row i g in
      demo_loop is' (rows ++ [r]) g'
  end.

(** [generate_demo(n, seed)], run with the module-level generator of
    [random] in state [g]: the frame returned (or the exception raised) and
    the state the module-level generator is left in. *)
Definition generate_demo (n seed : Z) (g : rng) : result DataFrame * rng :=
  let g := seeded seed in
  let (rows, g) := demo_loop (range 1 (n + 1)) [] g in
  (let* df := sort_values "Composite score" false (DataFrame_of rows) in
   Ok (reset_index df), g).

End Generator.

(** ** The [math] module *)

(** The C library behind [math]: [cos] and [sin] of a finite argument are
    finite; [hypot] is taken as it comes. *)
Class Libm : Type := {
  libm_cos : Q -> Q;
  libm_sin : Q -> Q;
  libm_hypot : float -> float -> float
}.

(** [math.pi], the double printed [3.141592653589793]. *)
Definition math_pi : float := lit (3141592653589793 # 1000000000000000).

(** [math.cos(x)] and [math.sin(x)] raise on an infinite argument. *)
Definition math_cos `{Libm} (x : float) : result float :=
  match x with
  | Fin q => Ok (Fin (libm_cos q))
  | NaN => Ok NaN
  | Inf _ => Raise ValueError
  end.

Definition math_sin `{Libm} (x : float) : result float :=
  match x with
  | Fin q => Ok (Fin (libm_sin q))
  | NaN => Ok NaN
  | Inf _ => Raise ValueError
  end.

Definition math_hypot `{Libm} (x y : float) : float := libm_hypot x y.

(** ** [molecule_svg] *)

(** [l[i]] on a list, negative indices counting from the end. *)
Definition py_index {A : Type} (l : list A) (i : Z) : result A :=
  let n := Z.of_nat (List.length l) in
  let j := if (i <? 0)%Z then (i + n)%Z else i in
  if (j <? 0)%Z then Raise IndexError
  else match nth_error l (Z.to_nat j) with
       | Some a => Ok a
       | None => Raise IndexError
       end.

(** [[f(x) for x in l]] when [f] may raise. *)
Fixpoint map_result {A B : Type} (f : A -> result B) (l : list A)
  : result (list B) :=
  match l with
  | [] => Ok []
  | a :: l' => let* b := f a in let* bs := map_result f l' in Ok (b :: bs)
  end.

Section Icon.

Context {random : PyRandom} {libm : Libm}.

(** The builtin [hash] on strings.  CPython salts it with a key drawn when
    the interpreter starts, so it is a function of the process. *)
Variable hash : string -> Z.

Open Scope string_scope.

Definition A_TEAL : string := "#27B3B1".

Definition point : Type := (float * float)%type.

(** The local variables the markup is assembled from. *)
Record icon : Type := mkIcon {
  bg : string;
  edges : list string;
  dbl : list string;
  subs : list string
}.

(** The inner function [line]; [w] is only ever a literal, given here as
    the text [str] prints it back as. *)
Definition line (p1 p2 : point) (w col cap : string) : string :=
  "<line" ++ Fmt.attr "x1" (Fmt.format_f 2 (fst p1))
          ++ Fmt.attr "y1" (Fmt.format_f 2 (snd p1))
          ++ Fmt.attr "x2" (Fmt.format_f 2 (fst p2))
          ++ Fmt.attr "y2" (Fmt.format_f 2 (snd p2))
          ++ Fmt.attr "stroke" col
          ++ Fmt.attr "stroke-width" w
          ++ Fmt.attr "stroke-linecap" cap ++ " />".

(** The filled dot that ends a substituent. *)
Definition dot (p : point) : string :=
  "<circle" ++ Fmt.attr "cx" (Fmt.format_f 2 (fst p))
            ++ Fmt.attr "cy" (Fmt.format_f 2 (snd p))
            ++ Fmt.attr "r" "1.8"
            ++ Fmt.attr "fill" "#0F172A" ++ " />".

(** [x / z] with a float [x] and an int [z]. *)
Definition float_div_int (x : float) (z : Z) : result float :=
  let* fz := float_of_int z in fdiv x fz.

(** Vertex [k] of the hexagon. *)
Definition vertex (cx cy r rot : float) (k : Z) : result point :=
  let* step := float_div_int math_pi 3 in
  let* turn := int_mul_float k step in
  let theta := fadd rot turn in
  let* c := math_cos theta in
  let x := fadd cx (fmul r c) in
  let* s := math_sin theta in
  let y := fadd cy (fmul r s) in
  Ok (x, y).

(** Edge [i] of the hexagon, from vertex [i] to the next one. *)
Definition edge (stroke : string) (pts : list point) (i : Z)
  : result string :=
  let* p1 := py_index pts i in
  let* p2 := py_index pts ((i + 1) mod 6) in
  Ok (line p1 p2 "1.8" stroke "round").

(** The offset line drawn along edge [i]. *)
Definition double_bond (pts : list point) (i : Z) : result string :=
  let* p1 := py_index pts i in
  let* p2 := py_index pts ((i + 1) mod 6) in
  let '(x1, y1) := p1 in
  let '(x2, y2) := p2 in
  let dx := fsub x2 x1 in
  let dy := fsub y2 y1 in
  let L := py_or (math_hypot dx dy) (Fin 1) in
  let* qx := fdiv (fneg dy) L in
  let ox := fmul qx (Fin 2) in
  let* qy := fdiv dx L in
  let oy := fmul qy (Fin 2) in
  Ok (line (fadd x1 ox, fadd y1 oy) (fadd x2 ox, fadd y2 oy)
        "1.2" "#1F2937" "round").

(** The far end of the substituent on vertex [p]: the vertex moved by
    [size*0.24] along the direction from the centre to the vertex. *)
Definition substituent_end (cx cy : float) (size : Z) (p : point)
  : result point :=
  let '(x1, y1) := p in
  let vx := fsub x1 cx in
  let vy := fsub y1 cy in
  let L := py_or (math_hypot vx vy) (Fin 1) in
  let* ux := fdiv vx L in
  let* uy := fdiv vy L in
  let* L2 := int_mul_float size (lit (24 # 100)) in
  Ok (fadd x1 (fmul ux L2), fadd y1 (fmul uy L2)).

(** One turn of the last loop: a vertex is drawn from [g], and a line and
    a dot are appended to [subs]. *)
Definition substituent (cx cy : float) (size : Z) (pts : list point)
  (acc : list string) (g : rng) : result (list string * rng) :=
  let (i, g') := next_randint 0 5 g in
  let* p := py_index pts i in
  let* p3 := substituent_end cx cy size p in
  Ok ((acc ++ [line p p3 "1.5" "#243045" "round"; dot p3])%list, g').

Fixpoint substituents (n : nat) (cx cy : float) (size : Z)
  (pts : list point) (acc : list string) (g : rng)
  : result (list string) :=
  match n with
  | O => Ok acc
  | S n' =>
      let* (acc', g') := substituent cx cy size pts acc g in
      substituents n' cx cy size pts acc' g'
  end.

(** The number of substituents: [random.Random(hash(name) % 10**6)
    .randint(1, 3)]. *)
Definition n_sub (name : string) : Z :=
  fst (next_randint 1 3 (seeded (hash name mod 10 ^ 6))).

(** The body of [molecule_svg] up to the final [return]. *)
Definition molecule_icon (name : string) (size : Z) (stroke : string)
  : result icon :=
  let g := seeded (hash name mod 10 ^ 7) in
  let* cx := int_truediv size 2 in
  let* cy := int_truediv size 2 in
  let* r := int_mul_float size (lit (26 # 100)) in
  let* top := float_div_int math_pi 3 in
  let (rot, g) := uniform (Fin 0) top g in
  let* pts := map_result (vertex cx cy r rot) (range 0 6) in
  let* rbg := int_mul_float size (lit (44 # 100)) in
  let bg := "<circle" ++ Fmt.attr "cx" (Fmt.format_f 1 cx)
                      ++ Fmt.attr "cy" (Fmt.format_f 1 cy)
                      ++ Fmt.attr "r" (Fmt.format_f 1 rbg)
                      ++ Fmt.attr "fill" (A_TEAL ++ "11") ++ " />" in
  let* edges := map_result (edge stroke pts) (range 0 6) in
  let* dbl := map_result (double_bond pts) [0; 2; 4]%Z in
  let* subs := substituents (Z.to_nat (n_sub name)) cx cy size pts [] g in
  Ok {| bg := bg; edges := edges; dbl := dbl; subs := subs |}.

(** The markup returned. *)
Definition render (size : Z) (ic : icon) : string :=
  "<svg" ++ Fmt.attr "width" (Fmt.str_int size)
         ++ Fmt.attr "height" (Fmt.str_int size)
         ++ Fmt.attr "viewBox"
              ("0 0 " ++ Fmt.str_int size ++ " " ++ Fmt.str_int size)
         ++ Fmt.attr "xmlns" "http://www.w3.org/2000/svg" ++ ">"
         ++ bg ic
         ++ String.concat "" (edges ic)
         ++ String.concat "" (dbl ic)
         ++ String.concat "" (subs ic)
         ++ "</svg>".

Definition molecule_svg (name : string) (size : Z) (stroke : string)
  : result string :=
  let* ic := molecule_icon name size stroke in
  Ok (render size ic).

(** The default value of [stroke]. *)
Definition default_stroke : string := "#111827".

End Icon.

(** * The page around the two functions

    What [app.py] does with [generate_demo] and [molecule_svg] once "Run
    search" has been pressed: the seed and the run id taken from the target,
    the view of the frame that is shown ([df_view], [df_disp]), the colours
    of its rows, the cards of the icons and the "Safety" column of the
    charts.  The widgets are inputs: [target] is the string of the select
    box, [max_tox] the float and [top_n] the int of the two sliders. *)

Section Page.

Context {random : PyRandom} {sorter : ArgSort} {libm : Libm}.

Variable hash : string -> Z.

Open Scope string_scope.

Definition PRIMARY : string := "#0F172A".
Definition ROW1_BG : string := "#ECFDF5".
Definition ROW2_BG : string := "#EFF6FF".
Definition ROW3_BG : string := "#ECFEFF".

(** [svg_card(name, size)]: the icon and the name under it, in a [div]. *)
Definition svg_card (name : string) (size : Z) : result string :=
  let* svg := molecule_svg hash name size default_stroke in
  Ok ("<div" ++ Fmt.attr "class" "molcard" ++ ">" ++ svg
        ++ "<div" ++ Fmt.attr "class" "mollabel" ++ ">" ++ name
        ++ "</div></div>").

(** [run_id = str(abs(hash(target)) % (10**6))]. *)
Definition run_id (target : string) : string :=
  Fmt.str_int (Z.abs (hash target) mod 10 ^ 6).

(** [df_all = generate_demo(n=10, seed=hash(target) % (10**6))], run with
    the module-level generator in state [g]. *)
Definition df_all (target : string) (g : rng) : result DataFrame * rng :=
  generate_demo 10 (hash target mod 10 ^ 6) g.

(** [df["Toxicity"]]. *)
Definition toxicity_column (df : DataFrame) : result (list float) :=
  if existsb (String.eqb "Toxicity") (columns df)
  then Ok (map Toxicity (rows df))
  else Raise (KeyError "Toxicity").

(** [series <= x], element by element. *)
Definition series_le (s : list float) (x : float) : list bool :=
  map (fun t => fleb t x) s.

(** [df[mask]] with a boolean mask made from [df] itself, so as long as
    [df]: the rows whose entry is [True], in the order of [df]. *)
Fixpoint select (rs : list Row) (mask : list bool) : list Row :=
  match rs, mask with
  | r :: rs', b :: mask' =>
      if b then r :: select rs' mask' else select rs' mask'
  | _, _ => []
  end.

Definition boolean_index (df : DataFrame) (mask : list bool) : DataFrame :=
  {| columns := columns df; rows := select (rows df) mask |}.

(** [l[:n]]: the first [n] elements, and all but the last [-n] ones when
    [n] is negative. *)
Definition slice_to {A : Type} (n : Z) (l : list A) : list A :=
  let stop := if (n <? 0)%Z then (Z.of_nat (List.length l) + n)%Z else n in
  firstn (Z.to_nat stop) l.

(** [df.head(n)] is [df.iloc[:n]]. *)
Definition head (n : Z) (df : DataFrame) : DataFrame :=
  {| columns := columns df; rows := slice_to n (rows df) |}.

(** [df_view = df_all[df_all["Toxicity"] <= max_tox].head(top_n)]. *)
Definition df_view (target : string) (max_tox : float) (top_n : Z) (g : rng)
  : result DataFrame :=
  let* all := fst (df_all target g) in
  let* tox := toxicity_column all in
  Ok (head top_n (boolean_index all (series_le tox max_tox))).

(** [df_disp]: the copy of the view whose index is
    [range(1, len(df_disp)+1)], as [iterrows()] goes through it, every row
    with its label. *)
Definition df_disp (view : DataFrame) : list (Z * Row) :=
  combine (range 1 (Z.of_nat (List.length (rows view)) + 1)) (rows view).

(** [color_rows(row)], from the label [row.name] and [len(row)]. *)
Definition color_rows (name : Z) (len : nat) : list string :=
  if (name =? 1)%Z
  then repeat
         ("background-color: " ++ ROW1_BG ++ "; color: " ++ PRIMARY ++ ";") len
  else if (name =? 2)%Z
  then repeat
         ("background-color: " ++ ROW2_BG ++ "; color: " ++ PRIMARY ++ ";") len
  else if (name =? 3)%Z
  then repeat
         ("background-color: " ++ ROW3_BG ++ "; color: " ++ PRIMARY ++ ";") len
  else repeat "" len.

(** [df_disp.style.apply(color_rows, axis=1)]: the styles of the cells,
    row by row. *)
Definition apply_color_rows (view : DataFrame) : list (list string) :=
  map (fun p => color_rows (fst p) (List.length (columns view)))
    (df_disp view).

(** The loop [for _, r in df_disp.iterrows(): html += svg_card(...)]. *)
Fixpoint cards_loop (its : list (Z * Row)) (html : string) : result string :=
  match its with
  | [] => Ok html
  | (_, r) :: its' =>
      let* card := svg_card (Molecule r) 64 in
      cards_loop its' (html ++ card)
  end.

(** The grid of icons, [html] when it is handed to [st.markdown]. *)
Definition html (view : DataFrame) : result string :=
  let* h :=
    cards_loop (df_disp view) ("<div" ++ Fmt.attr "class" "molgrid" ++ ">") in
  Ok (h ++ "</div>").

(** [ch_df["Safety"] = 1 - ch_df["Toxicity"]], for one row. *)
Definition Safety (r : Row) : float := fsub (Fin 1) (Toxicity r).

End Page.

(** ** The report: [build_pdf]

    [reportlab]'s canvas is the list of the calls made on it, in order; the
    bytes returned are what [save] makes of them.  [cm] and the height of
    [A4] are [reportlab]'s: [inch = 72.0], [cm = inch / 2.54],
    [mm = cm * 0.1], [A4 = (210*mm, 297*mm)]. *)

Inductive canvas_call : Type :=
| setFont (psfontname : string) (size : float)
| drawString (x y : float) (text : string)
| showPage
| save.

(** [cm], the double printed [28.346456692913385]. *)
Definition cm : float := lit (28346456692913385 # 1000000000000000).

(** [H], the height of [A4]: the double printed [841.8897637795277]. *)
Definition A4_height : float := lit (8418897637795277 # 10000000000000).

Section Report.

Open Scope string_scope.

(** What the function takes from the page around it. *)
Variables (max_tox : float) (run_id started_at : string).

(** The five strings of one row of the table, at height [y]. *)
Definition row_calls (y : float) (idx : Z) (r : Row) : list canvas_call :=
  [ drawString (fmul (lit (15 # 10)) cm) y (Fmt.str_int idx);
    drawString (fmul (lit (25 # 10)) cm) y (Molecule r);
    drawString (fmul (Fin 8) cm) y (Fmt.format_f 2 (Activity r));
    drawString (fmul (Fin 11) cm) y (Fmt.format_f 2 (Toxicity r));
    drawString (fmul (Fin 14) cm) y (Fmt.format_f 2 (Composite_score r)) ].

(** The loop [for idx, (_, r) in enumerate(df.iterrows(), start=1)], from
    row [idx] on with the pen at height [y]. *)
Fixpoint table_calls (its : list (Z * Row)) (idx : Z) (y : float)
  : list canvas_call :=
  match its with
  | [] => []
  | (_, r) :: its' =>
      let y' := fsub y (fmul (lit (6 # 10)) cm) in
      (row_calls y idx r
       ++ (if fltb y' (fmul (Fin 2) cm)
           then showPage
                :: table_calls its' (idx + 1)
                     (fsub A4_height (fmul (Fin 2) cm))
           else table_calls its' (idx + 1) y'))%list
  end.

(** The three lines at the top of the first page. *)
Definition heading_calls (title target_name : string) (len : nat)
  : list canvas_call :=
  [ setFont "Helvetica-Bold" (Fin 13);
    drawString (fmul (Fin 2) cm) (fsub A4_height (fmul (Fin 2) cm)) title;
    setFont "Helvetica" (lit (105 # 10));
    drawString (fmul (Fin 2) cm) (fsub A4_height (fmul (Fin 3) cm))
      ("Target: " ++ target_name);
    drawString (fmul (Fin 2) cm) (fsub A4_height (fmul (lit (36 # 10)) cm))
      ("Toxicity " ++ String "226" (String "137" (String "164" ""))
         ++ " " ++ Fmt.format_f 2 max_tox
         ++ "; Top: " ++ Fmt.str_int (Z.of_nat len)
         ++ "; Run " ++ run_id ++ "; " ++ started_at) ].

(** The titles of the columns, at height [y]. *)
Definition titles_calls (y : float) : list canvas_call :=
  [ setFont "Helvetica-Bold" (Fin 10);
    drawString (fmul (lit (15 # 10)) cm) y "#";
    drawString (fmul (lit (25 # 10)) cm) y "Molecule";
    drawString (fmul (Fin 8) cm) y "Activity";
    drawString (fmul (Fin 11) cm) y "Toxicity";
    drawString (fmul (Fin 14) cm) y "Composite";
    setFont "Helvetica" (Fin 10) ].

(** [build_pdf(title, target_name, df)]: the calls made on the canvas; [df]
    is given as [iterrows()] goes through it. *)
Definition build_pdf (title target_name : string) (df : list (Z * Row))
  : list canvas_call :=
  let y := fsub A4_height (fmul (Fin 5) cm) in
  (heading_calls title target_name (List.length df)
   ++ titles_calls y
   ++ table_calls df 1 (fsub y (fmul (lit (7 # 10)) cm))
   ++ [showPage; save])%list.

End Report.


(** * The libraries, concretely

    [random] and the string hash as CPython 3.11 implements them, so that
    the two functions can be run on the numbers Python draws; then a stable
    sort, the argsort numpy runs on a CPU with AVX-512, and a small
    [libm]. *)

Module MT.

Open Scope Z_scope.

(** The Mersenne Twister of CPython's [_randommodule.c]; every value is a
    [uint32_t]. *)

Definition N : nat := 624.
Definition M : nat := 397.

Definition u32 (x : Z) : Z := x mod 2 ^ 32.

Record state : Type := mkState { mt : list Z; index : nat }.

Definition get (l : list Z) (i : nat) : Z := nth i l 0.

Fixpoint set (l : list Z) (i : nat) (v : Z) : list Z :=
  match l, i with
  | [], _ => []
  | _ :: l', O => v :: l'
  | x :: l', S i' => x :: set l' i' v
  end.

(** [init_genrand(s)]: the list is built from its last element back. *)
Fixpoint init_words (n : nat) (i : Z) (prev : Z) : list Z :=
  match n with
  | O => []
  | S n' =>
      let next := u32 (1812433253 * Z.lxor prev (Z.shiftr prev 30) + i) in
      next :: init_words n' (i + 1) next
  end.

Definition init_genrand (s : Z) : list Z :=
  u32 s :: init_words (N - 1) 1 (u32 s).

(** One turn of a loop of [init_by_array]: [mt[i]] is rewritten from
    [mt[i-1]], then [i] moves on and wraps from [N] to 1. *)
Definition mix (mult : Z) (add : Z) (l : list Z) (i : nat) : list Z * nat :=
  let prev := get l (i - 1) in
  let v := u32 (Z.lxor (get l i) (Z.lxor prev (Z.shiftr prev 30) * mult) + add) in
  let l := set l i v in
  if (N <=? S i)%nat then (set l 0 (get l (N - 1)), 1%nat) else (l, S i).

Fixpoint first_loop (k : nat) (key : list Z) (l : list Z) (i j : nat)
  : list Z * nat :=
  match k with
  | O => (l, i)
  | S k' =>
      let (l', i') := mix 1664525 (get key j + Z.of_nat j) l i in
      let j' := if (List.length key <=? S j)%nat then O else S j in
      first_loop k' key l' i' j'
  end.

Fixpoint second_loop (k : nat) (l : list Z) (i : nat) : list Z :=
  match k with
  | O => l
  | S k' =>
      let (l', i') := mix 1566083941 (- Z.of_nat i) l i in
      second_loop k' l' i'
  end.

Definition init_by_array (key : list Z) : state :=
  let l := init_genrand 19650218 in
  let (l, i) := first_loop (Nat.max N (List.length key)) key l 1 0 in
  let l := second_loop (N - 1) l i in
  {| mt := set l 0 2147483648; index := N |}.

(** The 32-bit chunks of [n >= 0], from the right; one chunk for 0. *)
Fixpoint chunks (fuel : nat) (n : Z) : list Z :=
  match fuel with
  | O => []
  | S fuel' =>
      if n <? 2 ^ 32 then [n] else u32 n :: chunks fuel' (Z.shiftr n 32)
  end.

(** [random_seed] on an int: the absolute value is the key. *)
Definition seed (a : Z) : state :=
  let n := Z.abs a in
  init_by_array (chunks (S (Z.to_nat (Z.log2 n))) n).

Definition twist_word (l : list Z) (kk other next : nat) : list Z :=
  let y := Z.lor (Z.land (get l kk) 2147483648) (Z.land (get l next) 2147483647) in
  set l kk
    (Z.lxor (Z.lxor (get l other) (Z.shiftr y 1))
       (if Z.odd y then 2567483615 else 0)).

(** The [N] words are regenerated in place, word [kk] from the words
    [kk + 1] and [kk + M] (indices taken modulo [N]). *)
Definition twist (l : list Z) : list Z :=
  fold_left
    (fun l kk => twist_word l kk ((kk + M) mod N)%nat ((kk + 1) mod N)%nat)
    (seq 0 N) l.

Definition temper (y : Z) : Z :=
  let y := Z.lxor y (Z.shiftr y 11) in
  let y := Z.lxor y (Z.land (u32 (Z.shiftl y 7)) 2636928640) in
  let y := Z.lxor y (Z.land (u32 (Z.shiftl y 15)) 4022730752) in
  u32 (Z.lxor y (Z.shiftr y 18)).

Definition genrand_uint32 (s : state) : Z * state :=
  let s := if (N <=? index s)%nat then {| mt := twist (mt s); index := 0 |} else s in
  (temper (get (mt s) (index s)), {| mt := mt s; index := S (index s) |}).

(** [random()]: 27 and 26 bits of two words make a 53-bit fraction. *)
Definition random (s : state) : Q * state :=
  let (x, s) := genrand_uint32 s in
  let (y, s) := genrand_uint32 s in
  (Qmake (Z.shiftr x 5 * 67108864 + Z.shiftr y 6) (2 ^ 53), s).

(** [getrandbits(k)] for [k > 0]: whole words from the right, and the top
    bits of the last word. *)
Fixpoint getrandbits (words : nat) (k : Z) (s : state) : Z * state :=
  match words with
  | O => (0, s)
  | S words' =>
      let (r, s) := genrand_uint32 s in
      if k <? 32 then (Z.shiftr r (32 - k), s)
      else let (hi, s) := getrandbits words' (k - 32) s in
           (r + Z.shiftl hi 32, s)
  end.

Definition bit_length (n : Z) : Z := if n =? 0 then 0 else Z.log2 n + 1.

(** [_randbelow_with_getrandbits(n)]: draw [k] bits until the draw is below
    [n].  The loop of the source has no bound; this one gives up after
    [tries] draws, and then returns 0. *)
Fixpoint randbelow (tries : nat) (n k : Z) (s : state) : Z * state :=
  match tries with
  | O => (0, s)
  | S tries' =>
      let (r, s') := getrandbits (Z.to_nat ((k - 1) / 32 + 1)) k s in
      if r <? n then (r, s') else randbelow tries' n k s'
  end.

(** [randint(a, b)] is [randrange(a, b + 1)]. *)
Definition randint (a b : Z) (s : state) : Z * state :=
  let width := b + 1 - a in
  if 0 <? width
  then let (r, s') := randbelow 1000 width (bit_length width) s in (a + r, s')
  else (a, s).

End MT.

Module SipHash.

Open Scope Z_scope.

(** CPython's hash of a [str], [Python/pyhash.c]: SipHash-1-3 over the
    bytes of the string, keyed by the secret of the process. *)

Definition u64 (x : Z) : Z := x mod 2 ^ 64.

Definition rotl (x b : Z) : Z :=
  Z.lor (u64 (Z.shiftl x b)) (Z.shiftr x (64 - b)).

Definition lanes : Type := (Z * Z * Z * Z)%type.

Definition half_round (a b c d s t : Z) : Z * Z * Z * Z :=
  let a := u64 (a + b) in
  let c := u64 (c + d) in
  let b := Z.lxor (rotl b s) a in
  let d := Z.lxor (rotl d t) c in
  (rotl a 32, b, c, d).

Definition single_round (v : lanes) : lanes :=
  let '(v0, v1, v2, v3) := v in
  let '(v0, v1, v2, v3) := half_round v0 v1 v2 v3 13 16 in
  let '(v2, v1, v0, v3) := half_round v2 v1 v0 v3 17 21 in
  (v0, v1, v2, v3).

(** Little-endian value of at most 8 bytes. *)
Fixpoint le_bytes (bs : list Z) : Z :=
  match bs with
  | [] => 0
  | b :: bs' => b + 256 * le_bytes bs'
  end.

Definition absorb (v : lanes) (m : Z) : lanes :=
  let '(v0, v1, v2, v3) := v in
  let '(v0, v1, v2, v3) := single_round (v0, v1, v2, Z.lxor v3 m) in
  (Z.lxor v0 m, v1, v2, v3).

(** The whole words of the input, then what is left of it. *)
Fixpoint blocks (fuel : nat) (v : lanes) (bs : list Z) : lanes * list Z :=
  match fuel with
  | O => (v, bs)
  | S fuel' =>
      if (8 <=? List.length bs)%nat
      then blocks fuel' (absorb v (le_bytes (firstn 8 bs))) (skipn 8 bs)
      else (v, bs)
  end.

Definition siphash13 (k0 k1 : Z) (src : list Z) : Z :=
  let b := u64 (Z.shiftl (Z.of_nat (List.length src)) 56) in
  let v := (Z.lxor k0 8317987319222330741, Z.lxor k1 7237128888997146477,
            Z.lxor k0 7816392313619706465, Z.lxor k1 8387220255154660723) in
  let (v, rest) := blocks (List.length src) v src in
  let b := Z.lor b (le_bytes rest) in
  let '(v0, v1, v2, v3) := absorb v b in
  let v := single_round (v0, v1, Z.lxor v2 255, v3) in
  let v := single_round v in
  let '(v0, v1, v2, v3) := single_round v in
  Z.lxor (Z.lxor v0 v1) (Z.lxor v2 v3).

(** [lcg_urandom]: the bytes of the secret, from [PYTHONHASHSEED]. *)
Fixpoint lcg_urandom (n : nat) (x : Z) : list Z :=
  match n with
  | O => []
  | S n' =>
      let x := (x * 214013 + 2531011) mod 2 ^ 32 in
      Z.land (Z.shiftr x 16) 255 :: lcg_urandom n' x
  end.

(** The two keys: zero when [PYTHONHASHSEED=0]. *)
Definition keys (hashseed : Z) : Z * Z :=
  if hashseed =? 0 then (0, 0)
  else let secret := lcg_urandom 16 hashseed in
       (le_bytes (firstn 8 secret), le_bytes (skipn 8 secret)).

Fixpoint bytes_of (s : string) : list Z :=
  match s with
  | EmptyString => []
  | String c s' => Z.of_nat (nat_of_ascii c) :: bytes_of s'
  end.

(** [hash(s)] for a string of one-byte characters, in a process started
    with [PYTHONHASHSEED=hashseed]: a signed 64-bit value, never -1. *)
Definition str_hash (hashseed : Z) (s : string) : Z :=
  match bytes_of s with
  | [] => 0
  | src =>
      let (k0, k1) := keys hashseed in
      let x := siphash13 k0 k1 src in
      let x := if 2 ^ 63 <=? x then x - 2 ^ 64 else x in
      if x =? -1 then -2 else x
  end.

End SipHash.

(** ** A stable sort and a [libm] *)

Module Demo.

(** Insertion sort on the indices of [l]: index [i] goes in front of the
    first index [j] with [before l[i] l[j]]. *)
Section Insertion.

Variable before : cell -> cell -> bool.

Fixpoint insert (l : list cell) (i : nat) (sorted : list nat) : list nat :=
  match sorted with
  | [] => [i]
  | j :: rest =>
      if before (nth i l (CNum NaN)) (nth j l (CNum NaN))
      then i :: j :: rest
      else j :: insert l i rest
  end.

Definition insertion_argsort (l : list cell) : list nat :=
  fold_right (insert l) [] (seq 0 (List.length l)).

End Insertion.

(** In front of the first key that is not smaller: equal keys stay in
    index order. *)
Definition stable_argsort : list cell -> list nat :=
  insertion_argsort cell_le.

(** Cosine and sine by their Taylor polynomials, every step rounded to a
    double, and [hypot] by an integer square root. *)
Fixpoint taylor (n : nat) (x2 term acc : Q) (k : Z) : Q :=
  match n with
  | O => acc
  | S n' =>
      let term' := Qred (RN (- term * x2 / inject_Z ((k + 1) * (k + 2)))) in
      taylor n' x2 term' (Qred (RN (acc + term'))) (k + 2)
  end.

Definition taylor_cos (x : Q) : Q := taylor 16 (Qred (RN (x * x))) 1 1 0.
Definition taylor_sin (x : Q) : Q := taylor 16 (Qred (RN (x * x))) x x 1.

Definition root (v : Q) : Q :=
  inject_Z (Z.sqrt (Qfloor (v * inject_Z (2 ^ 120)))) / inject_Z (2 ^ 60).

Definition root_hypot (x y : float) : float :=
  match x, y with
  | Inf _, _ | _, Inf _ => Inf false
  | NaN, _ | _, NaN => NaN
  | Fin a, Fin b => round_to_float (root (a * a + b * b))
  end.

End Demo.

(** ** [numpy.argsort] on AVX-512 *)

Module Simd.

(** [numpy.argsort(kind="quicksort")] on [float64] where numpy hands it to
    x86-simd-sort (numpy 1.25 and later, on a CPU with AVX-512): an array of
    at most 16 elements is loaded into two registers of 8 lanes, a key and
    its index per lane, the lanes left over holding the largest double;
    each register is sorted by a bitonic network and the two are merged.  A
    compare-and-exchange keeps the index of a lane whose key does not
    change, so equal keys keep the lanes they are in: which of two equal
    keys comes first is decided by the network, not by their indices. *)

Definition reg : Type := list (cell * nat).

(** [zmm_max], the key of a lane that is not loaded; its index is 0. *)
Definition zmm_max : cell := CNum (Inf false).

Definition lane (r : reg) (l : nat) : cell * nat := nth l r (zmm_max, O).

Definition min_pd (a b : cell) : cell := if cell_le a b then a else b.
Definition max_pd (a b : cell) : cell := if cell_le a b then b else a.

(** [permutexvar(idx, r)]: lane [l] takes lane [idx[l]] of [r]. *)
Definition permutexvar (idx : list nat) (r : reg) : reg :=
  map (fun j => lane r j) idx.

(** The lanes each step pairs, written from lane 0 up
    ([NETWORK_64BIT_1] to [NETWORK_64BIT_4] and the shuffle of neighbours),
    and the masks [0xAA], [0xCC] and [0xF0] of the lanes that keep the
    maximum. *)
Definition NETWORK_64BIT_1 : list nat := [3; 2; 1; 0; 7; 6; 5; 4]%nat.
Definition NETWORK_64BIT_2 : list nat := [7; 6; 5; 4; 3; 2; 1; 0]%nat.
Definition NETWORK_64BIT_3 : list nat := [2; 3; 0; 1; 6; 7; 4; 5]%nat.
Definition NETWORK_64BIT_4 : list nat := [4; 5; 6; 7; 0; 1; 2; 3]%nat.
Definition SHUFFLE_1_1_1_1 : list nat := [1; 0; 3; 2; 5; 4; 7; 6]%nat.

Definition oxAA : list bool :=
  [false; true; false; true; false; true; false; true].
Definition oxCC : list bool :=
  [false; false; true; true; false; false; true; true].
Definition oxF0 : list bool :=
  [false; false; false; false; true; true; true; true].

(** [cmp_merge(in1, in2, indexes1, indexes2, mask)] with [in2] the
    permutation [idx] of [in1]: a lane of the mask takes the maximum of
    the two keys, the others the minimum; the index stays when the key
    does. *)
Definition cmp_merge (r : reg) (idx : list nat) (mask : list bool) : reg :=
  map (fun lm : nat * bool =>
         let (k, i) := lane r (fst lm) in
         let (k2, i2) := lane r (nth (fst lm) idx O) in
         let t := if snd lm then max_pd k k2 else min_pd k k2 in
         (t, if cell_eq t k then i else i2))
    (combine (seq 0 8) mask).

(** [sort_zmm_64bit]. *)
Definition sort_zmm_64bit (r : reg) : reg :=
  let r := cmp_merge r SHUFFLE_1_1_1_1 oxAA in
  let r := cmp_merge r NETWORK_64BIT_1 oxCC in
  let r := cmp_merge r SHUFFLE_1_1_1_1 oxAA in
  let r := cmp_merge r NETWORK_64BIT_2 oxF0 in
  let r := cmp_merge r NETWORK_64BIT_3 oxCC in
  cmp_merge r SHUFFLE_1_1_1_1 oxAA.

(** [bitonic_merge_zmm_64bit]. *)
Definition bitonic_merge_zmm_64bit (r : reg) : reg :=
  let r := cmp_merge r NETWORK_64BIT_4 oxF0 in
  let r := cmp_merge r NETWORK_64BIT_3 oxCC in
  cmp_merge r SHUFFLE_1_1_1_1 oxAA.

(** [bitonic_merge_two_zmm_64bit]: the second register is reversed and
    exchanged lane by lane with the first, then each is merged. *)
Definition bitonic_merge_two_zmm_64bit (r1 r2 : reg) : reg * reg :=
  let r2 := permutexvar NETWORK_64BIT_2 r2 in
  let lo :=
    map (fun p : (cell * nat) * (cell * nat) =>
           let t := min_pd (fst (fst p)) (fst (snd p)) in
           (t, if cell_eq t (fst (fst p)) then snd (fst p) else snd (snd p)))
      (combine r1 r2) in
  let hi :=
    map (fun p : (cell * nat) * (cell * nat) =>
           let t := min_pd (fst (fst p)) (fst (snd p)) in
           (max_pd (fst (fst p)) (fst (snd p)),
            if cell_eq t (fst (fst p)) then snd (snd p) else snd (fst p)))
      (combine r1 r2) in
  (bitonic_merge_zmm_64bit lo, bitonic_merge_zmm_64bit hi).

(** The masked load of the lanes [from], [from + 1], ... of [arr], with
    [arg] still [0, 1, ..., n - 1]. *)
Definition load (arr : list cell) (from : nat) : reg :=
  map (fun l =>
         if (from + l <? List.length arr)%nat
         then (nth (from + l) arr zmm_max, (from + l)%nat)
         else (zmm_max, O))
    (seq 0 8).

(** [argsort_8_64bit] and [argsort_16_64bit]: the indices stored back. *)
Definition argsort_16_64bit (arr : list cell) : list nat :=
  let n := List.length arr in
  if (n <=? 8)%nat
  then firstn n (map snd (sort_zmm_64bit (load arr 0)))
  else
    let (r1, r2) :=
      bitonic_merge_two_zmm_64bit
        (sort_zmm_64bit (load arr 0)) (sort_zmm_64bit (load arr 8)) in
    (map snd r1 ++ firstn (n - 8) (map snd r2))%list.

(** [p] holds the indices of [arr], each once, the keys in ascending
    order. *)
Definition holds_indices (n : nat) (p : list nat) : bool :=
  (List.length p =? n)%nat
  && forallb (fun i => existsb (Nat.eqb i) p) (seq 0 n).

Fixpoint ascending (arr : list cell) (p : list nat) : bool :=
  match p with
  | [] => true
  | i :: p' =>
      forallb
        (fun j => cell_le (nth i arr (CNum NaN)) (nth j arr (CNum NaN))) p'
      && ascending arr p'
  end.

(** The argsort: the network for an array of up to 16 elements (longer
    arrays go through larger networks and a partition, which are not
    needed here: they are sorted by insertion).  A network sorts whatever
    it is given; the test makes that part of the definition. *)
Definition avx512_argsort (arr : list cell) : list nat :=
  let p := argsort_16_64bit arr in
  if (List.length arr <=? 16)%nat && holds_indices (List.length arr) p
     && ascending arr p
  then p
  else Demo.stable_argsort arr.

End Simd.


(** * What the properties are stated with *)

Open Scope Q_scope.

(** The value of a finite float. *)
Definition val (x : float) : Q := match x with Fin q => q | _ => 0 end.

(** The doubles [n/100] for [lo <= n <= hi]. *)
Definition hundredths (lo hi : Z) : list float :=
  map (fun n => round_to_float (inject_Z n / inject_Z (10 ^ Z.of_nat 2)))
    (range lo (hi + 1)).

(** The derived fields, as the specification words them. *)
Definition composite_score (activity toxicity : float) : float :=
  py_round 2
    (py_max (Fin 0)
       (py_min (Fin 1)
          (fmul (fmul activity (fsub (Fin 1) toxicity)) (lit (125 # 100))))).

Definition status_of (activity toxicity : float) : string :=
  if fleb (lit (7 # 10)) activity && fleb toxicity (lit (5 # 10))
  then "priority"%string else "reserve"%string.

Definition in_range (lo x hi : float) : bool := fleb lo x && fleb x hi.

Definition is_finite (x : float) : bool :=
  match x with Fin _ => true | _ => false end.

(** The row [take] falls back on; never reached. *)
Definition no_row : Row := mkRow "" NaN NaN NaN "".

(** The column [df["Composite score"]]. *)
Definition scores (rs : list Row) : list cell :=
  map (fun r => CNum (Composite_score r)) rs.

(** A row as the loop body builds it. *)
Definition built (r : Row) : Prop :=
  In (Activity r) (hundredths 30 95)
  /\ In (Toxicity r) (hundredths 10 80)
  /\ Composite_score r = composite_score (Activity r) (Toxicity r)
  /\ Status r = status_of (Activity r) (Toxicity r).

Definition name_of (i : Z) : string := ("Mol-" ++ Fmt.format_0d 3 i)%string.

Definition frame_columns : list string :=
  ["Molecule"; "Activity"; "Toxicity"; "Composite score"; "Status"]%string.

(** Non-increasing in the composite score. *)
Definition non_increasing (rs : list Row) : Prop :=
  ForallOrdPairs
    (fun r1 r2 => fleb (Composite_score r2) (Composite_score r1) = true) rs.

(** The place of the record called [name] in the batch [gen]. *)
Fixpoint position (name : string) (gen : list Row) : nat :=
  match gen with
  | [] => O
  | r :: gen' =>
      if String.eqb (Molecule r) name then O else S (position name gen')
  end.

(** Records of [out] with equal scores come in the order [gen] has them. *)
Definition ties_in_generation_order (gen out : list Row) : Prop :=
  ForallOrdPairs
    (fun r1 r2 =>
       feqb (Composite_score r1) (Composite_score r2) = true ->
       (position (Molecule r1) gen < position (Molecule r2) gen)%nat)
    out.

Section Batch.

Context {random : PyRandom} {sorter : ArgSort}.

(** The rows the loop appends, in order, and the state it leaves the
    generator in. *)
Fixpoint rows_from (is_ : list Z) (g : rng) : list Row :=
  match is_ with
  | [] => []
  | i :: is' => fst (demo_row i g) :: rows_from is' (snd (demo_row i g))
  end.

Fixpoint rng_after (is_ : list Z) (g : rng) : rng :=
  match is_ with
  | [] => g
  | i :: is' => rng_after is' (snd (demo_row i g))
  end.

(** The batch before it is sorted. *)
Definition generated (n seed : Z) : list Row :=
  rows_from (range 1 (n + 1)) (seeded seed).

(** The frame [sort_values] returns on a batch that is not empty. *)
Definition sorted_rows (rs : list Row) : list Row :=
  map (fun i => nth i rs no_row) (nargsort (scores rs) false).

End Batch.

Section IconShape.

Context {random : PyRandom} {libm : Libm}.

Variable hash : string -> Z.

(** The markup of one substituent: the line from the vertex [p] to [p3], and
    the dot on [p3]. *)
Definition substituent_markup (pp : point * point) : list string :=
  [line (fst pp) (snd pp) "1.5" "#243045" "round"; dot (snd pp)].

(** [pp] is a vertex of [pts] with the end of its substituent. *)
Definition substituent_on (cx cy : float) (size : Z) (pts : list point)
  (pp : point * point) : Prop :=
  In (fst pp) pts /\ substituent_end cx cy size (fst pp) = Ok (snd pp).

(** What the icon is made of. *)
Definition icon_shape (name : string) (size : Z) (stroke : string)
  (ic : icon) : Prop :=
  exists (cx r rot : float) (pts : list point) (picks : list (point * point)),
    int_truediv size 2 = Ok cx
    /\ map_result (vertex cx cx r rot) (range 0 6) = Ok pts
    /\ map_result (edge stroke pts) (range 0 6) = Ok (edges ic)
    /\ map_result (double_bond pts) [0; 2; 4]%Z = Ok (dbl ic)
    /\ Z.of_nat (List.length picks) = n_sub hash name
    /\ Forall (substituent_on cx cx size pts) picks
    /\ subs ic = flat_map substituent_markup picks.

End IconShape.

(** ** The drawing of the icon, written out *)

Definition sq (x : Q) : Q := x * x.

Section IconDrawing.

Context {random : PyRandom} {libm : Libm}.

Open Scope Z_scope.
Open Scope string_scope.

(** The markup of the line from [p1] to [p2]: the coordinates with two
    decimals, the colour, the width and round caps. *)
Definition segment (p1 p2 : point) (width colour : string) : string :=
  "<line x1=" ++ Fmt.dq ++ Fmt.format_f 2 (fst p1) ++ Fmt.dq
  ++ " y1=" ++ Fmt.dq ++ Fmt.format_f 2 (snd p1) ++ Fmt.dq
  ++ " x2=" ++ Fmt.dq ++ Fmt.format_f 2 (fst p2) ++ Fmt.dq
  ++ " y2=" ++ Fmt.dq ++ Fmt.format_f 2 (snd p2) ++ Fmt.dq
  ++ " stroke=" ++ Fmt.dq ++ colour ++ Fmt.dq
  ++ " stroke-width=" ++ Fmt.dq ++ width ++ Fmt.dq
  ++ " stroke-linecap=" ++ Fmt.dq ++ "round" ++ Fmt.dq ++ " />".

(** The markup of the filled dot on [p]. *)
Definition filled_dot (p : point) : string :=
  "<circle cx=" ++ Fmt.dq ++ Fmt.format_f 2 (fst p) ++ Fmt.dq
  ++ " cy=" ++ Fmt.dq ++ Fmt.format_f 2 (snd p) ++ Fmt.dq
  ++ " r=" ++ Fmt.dq ++ "1.8" ++ Fmt.dq
  ++ " fill=" ++ Fmt.dq ++ "#0F172A" ++ Fmt.dq ++ " />".

(** Vertex [i] of a list of six. *)
Definition vertex_at (pts : list point) (i : Z) : point :=
  nth (Z.to_nat i) pts (NaN, NaN).

(** [p] is the point at angle [rot + k*(pi/3)] of the circle of radius [r]
    around [(cx, cy)], in floats. *)
Definition on_hexagon (cx cy r rot : float) (k : Z) (p : point) : Prop :=
  exists step c s : float,
    fdiv math_pi (Fin 3) = Ok step
    /\ math_cos (fadd rot (fmul (Fin (inject_Z k)) step)) = Ok c
    /\ math_sin (fadd rot (fmul (Fin (inject_Z k)) step)) = Ok s
    /\ p = (fadd cx (fmul r c), fadd cy (fmul r s)).

(** [s] is the line along edge [i], moved by twice the unit normal of the
    edge; the length of an edge of length zero is taken as 1. *)
Definition offset_line (pts : list point) (i : Z) (s : string) : Prop :=
  let p1 := vertex_at pts i in
  let p2 := vertex_at pts ((i + 1) mod 6) in
  let dx := fsub (fst p2) (fst p1) in
  let dy := fsub (snd p2) (snd p1) in
  let L := py_or (math_hypot dx dy) (Fin 1) in
  exists qx qy : float,
    fdiv (fneg dy) L = Ok qx /\ fdiv dx L = Ok qy
    /\ s = segment
             (fadd (fst p1) (fmul qx (Fin 2)), fadd (snd p1) (fmul qy (Fin 2)))
             (fadd (fst p2) (fmul qx (Fin 2)), fadd (snd p2) (fmul qy (Fin 2)))
             "1.2" "#1F2937".

(** [p3] is the vertex [p] moved by [size*0.24] times the direction from
    the centre to [p], the direction divided by its length (a length of
    zero taken as 1). *)
Definition tip_of (cx cy : float) (size : Z) (p p3 : point) : Prop :=
  let vx := fsub (fst p) cx in
  let vy := fsub (snd p) cy in
  let L := py_or (math_hypot vx vy) (Fin 1) in
  exists fs ux uy : float,
    float_of_int size = Ok fs
    /\ fdiv vx L = Ok ux /\ fdiv vy L = Ok uy
    /\ p3 = (fadd (fst p) (fmul ux (fmul fs (lit (24 # 100)))),
             fadd (snd p) (fmul uy (fmul fs (lit (24 # 100))))).

(** The vertex lies within [size] of the origin, as every point of the
    drawing does. *)
Definition within_drawing (size : Z) (p : point) : Prop :=
  exists x y : Q,
    p = (Fin x, Fin y)
    /\ (Qabs x <= inject_Z size)%Q /\ (Qabs y <= inject_Z size)%Q.

(** [math.hypot(vx, vy)] is the length of [(vx, vy)] within the relative
    error [d], and not zero. *)
Definition hypot_accurate (d : Q) (vx vy : float) : Prop :=
  exists a b h : Q,
    vx = Fin a /\ vy = Fin b /\ math_hypot vx vy = Fin h /\ (0 < h)%Q
    /\ (sq (1 - d) * (sq a + sq b) <= sq h)%Q
    /\ (sq h <= sq (1 + d) * (sq a + sq b))%Q.

(** The line from [p] to [p3] has length [T]: its square is [T^2] within
    the relative error [4*d + 2^-43]. *)
Definition length_near (d T : Q) (p p3 : point) : Prop :=
  exists x1 y1 x3 y3 : Q,
    p = (Fin x1, Fin y1) /\ p3 = (Fin x3, Fin y3)
    /\ ((1 - 4 * d - pow2 (-43)) * sq T
        <= sq (x3 - x1) + sq (y3 - y1))%Q
    /\ (sq (x3 - x1) + sq (y3 - y1)
        <= (1 + 4 * d + pow2 (-43)) * sq T)%Q.

(** A substituent [(p, p3)]: [p] is a vertex, [p3] the end of the line
    drawn from it, and the line is [0.24*size] long as far as [hypot] is
    accurate, for a vertex of the drawing and a size that leaves its
    coordinates finite. *)
Definition decoration (cx cy : float) (size : Z) (pts : list point)
  (pp : point * point) : Prop :=
  In (fst pp) pts
  /\ tip_of cx cy size (fst pp) (snd pp)
  /\ forall d : Q,
       (size <= 2 ^ 1023)%Z -> (0 <= d)%Q -> (d <= 1 # 1000)%Q ->
       within_drawing size (fst pp) ->
       hypot_accurate d (fsub (fst (fst pp)) cx) (fsub (snd (fst pp)) cy) ->
       length_near d ((24 # 100) * inject_Z size) (fst pp) (snd pp).

(** The markup of a substituent: the line, then the dot on its end. *)
Definition decoration_markup (pp : point * point) : list string :=
  [segment (fst pp) (snd pp) "1.5" "#243045"; filled_dot (snd pp)].

End IconDrawing.

(** The markup of two results is the same. *)
Definition same_markup (a b : result string) : bool :=
  match a, b with
  | Ok s, Ok t => String.eqb s t
  | _, _ => false
  end.

(** [R] on every ordered pair of [l], decided. *)
Fixpoint ordered_pairs_b {A : Type} (R : A -> A -> bool) (l : list A) : bool :=
  match l with
  | [] => true
  | a :: l' => forallb (R a) l' && ordered_pairs_b R l'
  end.

(** [ties_in_generation_order], decided. *)
Definition ties_in_generation_order_b (gen out : list Row) : bool :=
  ordered_pairs_b
    (fun r1 r2 =>
       implb (feqb (Composite_score r1) (Composite_score r2))
         (position (Molecule r1) gen <? position (Molecule r2) gen)%nat)
    out.

(** The rational value of a hardware double. *)
Definition Q_of_prim (x : PrimFloat.float) : float :=
  match Prim2SF x with
  | S754_zero _ => Fin 0
  | S754_finite s m e =>
      Fin (Qred ((if s then -1 else 1) * inject_Z (Zpos m) * pow2 e))
  | S754_infinity s => Inf s
  | S754_nan => NaN
  end.

(** A small int as a hardware double, and the double nearest to [n/100]. *)
Definition prim_of_Z (n : Z) : PrimFloat.float :=
  PrimFloat.of_uint63 (Uint63.of_Z n).

Definition prim_hundredths (n : Z) : PrimFloat.float :=
  PrimFloat.div (prim_of_Z n) (prim_of_Z 100).

(** [l1] is [l2] with some elements left out, the others in the same
    order. *)
Inductive subseq {A : Type} : list A -> list A -> Prop :=
| subseq_nil : subseq [] []
| subseq_skip a l1 l2 : subseq l1 l2 -> subseq l1 (a :: l2)
| subseq_keep a l1 l2 : subseq l1 l2 -> subseq (a :: l1) (a :: l2).

(** The toxicity is at most [max_tox]. *)
Definition admissible (max_tox : float) (r : Row) : bool :=
  fleb (Toxicity r) max_tox.

(** [r] scores at most what [v] scores. *)
Definition scores_below (r v : Row) : Prop :=
  fleb (Composite_score r) (Composite_score v) = true.

(** [h] hundredths written with two decimals. *)
Definition two_decimals (h : Z) : string :=
  (Fmt.str_int (h / 100) ++ "."
   ++ NilEmpty.string_of_uint (Fmt.zpad 2 (Fmt.digits (h mod 100))))%string.

(** The float is [h] hundredths and [format(x, ".2f")] writes just that. *)
Definition shown_exactly (lo hi : Z) (x : float) : Prop :=
  exists h, (lo <= h <= hi)%Z
            /\ x = round_to_float (inject_Z h / inject_Z (10 ^ Z.of_nat 2))
            /\ Fmt.format_f 2 x = two_decimals h.

Definition is_digit (c : ascii) : bool :=
  let n := nat_of_ascii c in ((48 <=? n) && (n <=? 57))%nat.

Fixpoint all_digits (s : string) : bool :=
  match s with
  | EmptyString => true
  | String c s' => is_digit c && all_digits s'
  end.

(** The product the score is clamped and rounded from. *)
Definition raw_score (activity toxicity : float) : float :=
  fmul (fmul activity (fsub (Fin 1) toxicity)) (lit (125 # 100)).

(** What the derived fields of every pair of the two grids are checked
    for: the raw score is above zero, the score is at least 0.07, at least
    0.44 for a priority candidate and at most 0.78 for a reserve one. *)
Definition score_facts (a t : float) : bool :=
  let s := composite_score a t in
  fltb (Fin 0) (raw_score a t)
  && fleb (lit (7 # 100)) s
  && (if String.eqb (status_of a t) "priority"
      then fleb (lit (44 # 100)) s else fleb s (lit (78 # 100))).

(** Two outcomes of [molecule_icon] that differ at most in the markup of
    the six edges. *)
Definition same_but_edges (a b : result icon) : Prop :=
  match a, b with
  | Ok i1, Ok i2 =>
      bg i1 = bg i2 /\ dbl i1 = dbl i2 /\ subs i1 = subs i2
      /\ List.length (edges i1) = List.length (edges i2)
  | Raise e1, Raise e2 => e1 = e2
  | _, _ => False
  end.

(** Two results that are both values, or the same exception. *)
Definition same_outcome {A : Type} (R : A -> A -> Prop) (a b : result A)
  : Prop :=
  match a, b with
  | Ok x, Ok y => R x y
  | Raise e1, Raise e2 => e1 = e2
  | _, _ => False
  end.

(** The style of a cell that is not coloured. *)
Definition plain (style : string) : Prop := style = ""%string.

(** The heights the text of the report is kept between: [2*cm] from the
    bottom and [2*cm] from the top of the page. *)
Definition bottom_margin : float := fmul (Fin 2) cm.
Definition top_margin : float := fsub A4_height (fmul (Fin 2) cm).

(** A string is drawn between the two margins; the other calls draw
    nothing. *)
Definition within_margins (c : canvas_call) : bool :=
  match c with
  | drawString _ y _ => fleb bottom_margin y && fleb y top_margin
  | _ => true
  end.

(** The number of pages: one per [showPage]. *)
Definition pages (calls : list canvas_call) : nat :=
  List.length
    (filter (fun c => match c with showPage => true | _ => false end) calls).

(** The strings drawn, in order. *)
Definition texts (calls : list canvas_call) : list string :=
  flat_map (fun c => match c with drawString _ _ t => [t] | _ => [] end) calls.

(** The page breaks of a table of [n] rows with the pen at height [y]: the
    heights only. *)
Fixpoint breaks (n : nat) (y : float) : nat :=
  match n with
  | O => O
  | S n' =>
      let y' := fsub y (fmul (lit (6 # 10)) cm) in
      if fltb y' (fmul (Fin 2) cm)
      then S (breaks n' (fsub A4_height (fmul (Fin 2) cm)))
      else breaks n' y'
  end.

(** The five strings of a row of the report. *)
Definition row_texts (p : Z * Row) : list string :=
  [ Fmt.str_int (fst p); Molecule (snd p);
    Fmt.format_f 2 (Activity (snd p));
    Fmt.format_f 2 (Toxicity (snd p));
    Fmt.format_f 2 (Composite_score (snd p)) ].

(** A height between the margins, as the loop keeps it. *)
Definition on_page (y : float) : Prop :=
  exists q, y = Fin q /\ (val bottom_margin <= q <= val top_margin)%Q.

(** The three rows of [generate_demo(3, 42)], labelled as [df_disp] labels
    them. *)
Definition three_rows : list (Z * Row) :=
  [ (1%Z, mkRow "Mol-001" (lit (72 # 100)) (lit (12 # 100))
            (lit (79 # 100)) "priority");
    (2%Z, mkRow "Mol-002" (lit (48 # 100)) (lit (26 # 100))
            (lit (44 # 100)) "reserve");
    (3%Z, mkRow "Mol-003" (lit (78 # 100)) (lit (57 # 100))
            (lit (42 # 100)) "reserve") ].

(** * Properties *)

(** ** Rounding to a double *)

Module FloatFacts.

Open Scope Q_scope.

Lemma pow2_pos n : 0 < pow2 n.
Proof. apply Qpower_0_lt. reflexivity. Qed.

Lemma pow2_le n m : (n <= m)%Z -> pow2 n <= pow2 m.
Proof. intros H. apply Qpower_le_compat_l; [exact H | discriminate]. Qed.

Lemma pow2_lt_inv n m : pow2 n < pow2 m -> (n < m)%Z.
Proof. intros H. apply Qpower_lt_compat_l_inv with (q := 2); [exact H | reflexivity]. Qed.

Lemma pow2_add n m : pow2 (n + m) == pow2 n * pow2 m.
Proof. apply Qpower_plus. discriminate. Qed.

Lemma pow2_Z n : (0 <= n)%Z -> pow2 n == inject_Z (2 ^ n).
Proof. intros H. unfold pow2. rewrite Zpower_Qpower by exact H. reflexivity. Qed.

Lemma rne_error t : t - (1#2) <= inject_Z (rne t) /\ inject_Z (rne t) <= t + (1#2).
Proof.
  unfold rne.
  pose proof (Qfloor_le t) as Hlo.
  pose proof (Qlt_floor t) as Hhi.
  rewrite inject_Z_plus in Hhi. change (inject_Z 1) with 1 in Hhi.
  destruct (Qcompare (t - inject_Z (Qfloor t)) (1 # 2)) eqn:E.
  - apply Qeq_alt in E.
    destruct (Z.even (Qfloor t));
      [| rewrite inject_Z_plus; change (inject_Z 1) with 1]; split; lra.
  - apply Qlt_alt in E. split; lra.
  - apply Qgt_alt in E. rewrite inject_Z_plus. change (inject_Z 1) with 1.
    split; lra.
Qed.

Lemma ilog2_lb x : 0 < x -> pow2 (ilog2 x) <= x.
Proof.
  intros Hx. unfold ilog2.
  set (a := Z.log2 (Qnum x)). set (b := Z.log2 (Zpos (Qden x))).
  destruct (Qle_bool (pow2 (a - b)) x) eqn:E.
  - apply Qle_bool_iff. exact E.
  - assert (Hp : (0 < Qnum x)%Z).
    { destruct x as [p d]. unfold Qlt in Hx. simpl in *. lia. }
    assert (Ha : (0 <= a)%Z) by apply Z.log2_nonneg.
    assert (Hb : (0 <= b)%Z) by apply Z.log2_nonneg.
    assert (Hpa : (2 ^ a <= Qnum x)%Z) by (apply Z.log2_spec; exact Hp).
    assert (Hdb : (Zpos (Qden x) < 2 ^ (b + 1))%Z).
    { replace (b + 1)%Z with (Z.succ b) by lia. apply Z.log2_spec. lia. }
    assert (Hmul : pow2 (a - b - 1) * pow2 (b + 1) == pow2 a).
    { rewrite <- pow2_add. replace (a - b - 1 + (b + 1))%Z with a by lia. reflexivity. }
    rewrite (@pow2_Z (b + 1)) in Hmul by lia. rewrite (@pow2_Z a) in Hmul by lia.
    pose proof (pow2_pos (a - b - 1)) as Hpos.
    set (y := pow2 (a - b - 1)) in *.
    assert (Hx' : x == inject_Z (Qnum x) / inject_Z (Zpos (Qden x))).
    { destruct x as [p d]. simpl. rewrite Qmake_Qdiv. reflexivity. }
    rewrite Hx'.
    apply Qle_shift_div_l. { reflexivity. }
    apply Qle_trans with (y * inject_Z (2 ^ (b + 1))).
    + apply Qmult_le_l; [exact Hpos|]. rewrite <- Zle_Qle. lia.
    + rewrite Hmul. rewrite <- Zle_Qle. exact Hpa.
Qed.


Lemma rne_zero t : t == 0 -> rne t = 0%Z.
Proof.
  intros Ht. pose proof (rne_error t) as [H1 H2].
  assert (L : (-1 < rne t)%Z).
  { rewrite Zlt_Qlt. change (inject_Z (-1)) with (-1). lra. }
  assert (U : (rne t < 1)%Z).
  { rewrite Zlt_Qlt. change (inject_Z 1) with 1. lra. }
  lia.
Qed.

Lemma RN_zero x : x == 0 -> RN x == 0.
Proof.
  intros Hx. unfold RN. set (e := quantum x). rewrite rne_zero.
  - change (inject_Z 0) with 0. ring.
  - rewrite Hx. unfold Qdiv. ring.
Qed.

Lemma pow2_half k : pow2 (k - 54) == (1 # 2) * pow2 (k - 53).
Proof.
  replace (k - 53)%Z with (1 + (k - 54))%Z by lia.
  rewrite pow2_add. change (pow2 1) with 2. lra.
Qed.

Lemma quantum_le k x :
  (-1021 <= k)%Z -> ~ x == 0 -> Qabs x < pow2 k -> (quantum x <= k - 53)%Z.
Proof.
  intros Hk Hx Hlt. unfold quantum.
  assert (Hpos : 0 < Qabs x).
  { pose proof (Qabs_nonneg x) as H0.
    destruct (Qeq_dec (Qabs x) 0) as [E | E].
    - exfalso. apply Hx. 
      revert E. apply Qabs_case; intros; lra.
    - lra. }
  pose proof (ilog2_lb Hpos) as Hlb.
  assert (Hi : (ilog2 (Qabs x) < k)%Z).
  { apply pow2_lt_inv. lra. }
  lia.
Qed.

Lemma RN_error k x :
  (-1021 <= k)%Z -> Qabs x < pow2 k -> Qabs (RN x - x) <= pow2 (k - 54).
Proof.
  intros Hk Hlt.
  destruct (Qeq_dec x 0) as [Hx | Hx].
  - rewrite (RN_zero Hx), Hx. 
    pose proof (pow2_pos (k - 54)). 
    setoid_replace (0 - 0) with 0 by ring. simpl. lra.
  - pose proof (quantum_le Hk Hx Hlt) as He.
    unfold RN. set (e := quantum x) in *.
    pose proof (pow2_pos e) as Hpe.
    pose proof (rne_error (x / pow2 e)) as [H1 H2].
    set (m := inject_Z (rne (x / pow2 e))) in *.
    assert (Hxe : x == (x / pow2 e) * pow2 e) by (field; lra).
    set (t := x / pow2 e) in *.
    pose proof (pow2_le He) as Hle.
    rewrite pow2_half.
    apply Qabs_Qle_condition. 
    split; nra.
Qed.

Lemma Qabs_Qred x : Qabs (Qred x) == Qabs x.
Proof. rewrite Qred_correct. reflexivity. Qed.

(** An exact result of magnitude below [2^k] that stays in range rounds to
    a finite double, within half a unit in the last place. *)
Lemma round_to_float_Fin k x :
  (-1021 <= k)%Z -> Qabs x < pow2 k -> Qabs x + pow2 (k - 54) < pow2 1024 ->
  exists y, round_to_float x = Fin y /\ Qabs (y - x) <= pow2 (k - 54).
Proof.
  intros Hk Hx Hr. pose proof (@RN_error k x Hk Hx) as He.
  exists (Qred (RN x)). unfold round_to_float.
  assert (Hy : Qabs (RN x) < pow2 1024).
  { apply Qabs_Qle_condition in He. revert Hr.
    apply Qabs_case; intros; apply Qabs_Qlt_condition; split; lra. }
  destruct (Qle_bool (pow2 1024) (Qabs (RN x))) eqn:E.
  - apply Qle_bool_iff in E. lra.
  - split; [reflexivity |]. rewrite Qred_correct. exact He.
Qed.

Lemma round_to_float_small k x :
  (-1021 <= k <= 1023)%Z -> Qabs x < pow2 k ->
  exists y, round_to_float x = Fin y /\ Qabs (y - x) <= pow2 (k - 54)
            /\ Qabs y < pow2 (k + 1).
Proof.
  intros Hk Hx.
  assert (H54 : pow2 (k - 54) < pow2 k).
  { apply Qpower_lt_compat_l; [lia | reflexivity]. }
  assert (Hk1 : pow2 (k + 1) == 2 * pow2 k).
  { rewrite Z.add_comm, pow2_add. reflexivity. }
  assert (Hmax : pow2 (k + 1) <= pow2 1024) by (apply pow2_le; lia).
  destruct (@round_to_float_Fin k x) as [y [Hy He]]; [lia | exact Hx | lra |].
  exists y. split; [exact Hy |]. split; [exact He |].
  apply Qabs_Qle_condition in He. apply Qabs_Qlt_condition in Hx.
  apply Qabs_Qlt_condition. split; lra.
Qed.

End FloatFacts.

Import FloatFacts.

Open Scope Q_scope.

(** ** The values a generated record can take *)

Lemma rne_between lo hi t :
  inject_Z lo - (1 # 2) < t -> t < inject_Z hi + (1 # 2) ->
  (lo <= rne t <= hi)%Z.
Proof.
  intros Hlo Hhi. destruct (rne_error t) as [H1 H2].
  assert (L : (lo - 1 < rne t)%Z).
  { rewrite Zlt_Qlt. unfold Z.sub. rewrite inject_Z_plus, inject_Z_opp.
    change (inject_Z 1) with 1. lra. }
  assert (U : (rne t < hi + 1)%Z).
  { rewrite Zlt_Qlt, inject_Z_plus. change (inject_Z 1) with 1. lra. }
  lia.
Qed.

Lemma In_range a b n : (a <= n < b)%Z -> In n (range a b).
Proof.
  intros H. unfold range. apply in_map_iff.
  exists (Z.to_nat (n - a)). split; [lia |].
  apply in_seq. lia.
Qed.

Lemma range_In a b n : In n (range a b) -> (a <= n < b)%Z.
Proof.
  unfold range. intros H. apply in_map_iff in H. destruct H as [k [<- Hk]].
  apply in_seq in Hk. lia.
Qed.

Lemma py_round_hundredths lo hi s :
  inject_Z lo - (1 # 2) < s * 100 -> s * 100 < inject_Z hi + (1 # 2) ->
  In (py_round 2 (Fin s)) (hundredths lo hi).
Proof.
  intros Hlo Hhi. unfold py_round, hundredths. apply in_map_iff.
  exists (rne (s * inject_Z (10 ^ Z.of_nat 2))). split; [reflexivity |].
  apply In_range. change (inject_Z (10 ^ Z.of_nat 2)) with 100.
  pose proof (@rne_between lo hi (s * 100) Hlo Hhi). lia.
Qed.

Lemma tiny : pow2 (-52) <= 1 # 1000000000 /\ pow2 (-51) <= 1 # 1000000000.
Proof. split; apply Qle_bool_iff; vm_compute; reflexivity. Qed.

Section Draws.

Context {random : PyRandom}.

(** [uniform(a, b)] stays within a hundred-millionth of [[a, b]]. *)
Lemma uniform_bounds a b g :
  0 <= a -> a <= b -> b <= 2 ->
  exists s, uniform (Fin a) (Fin b) g = (Fin s, snd (next_random g))
            /\ a - (1 # 100000000) <= s <= b + (1 # 100000000).
Proof.
  intros Ha Hab Hb. unfold uniform.
  pose proof (random_range g) as [Hu0 Hu1].
  destruct (next_random g) as [u g']. simpl in Hu0, Hu1. simpl snd.
  destruct tiny as [T52 T51].
  assert (P2 : pow2 2 == 4) by reflexivity.
  assert (P3 : pow2 3 == 8) by reflexivity.
  unfold fsub, fneg, fadd.
  destruct (@round_to_float_small 2 (b + Qred (- a))) as [c [Hc [Ec _]]].
  { lia. } { rewrite Qred_correct. apply Qabs_Qlt_condition. lra. }
  rewrite Hc. unfold fmul. change (2 - 54)%Z with (-52)%Z in Ec.
  rewrite Qred_correct in Ec. apply Qabs_Qle_condition in Ec.
  destruct (@round_to_float_small 2 (c * u)) as [p [Hp [Ep _]]].
  { lia. } { apply Qabs_Qlt_condition. split; nra. }
  rewrite Hp. change (2 - 54)%Z with (-52)%Z in Ep.
  apply Qabs_Qle_condition in Ep.
  assert (Hcu : - (1 # 1000000000) <= c * u <= b - a + (1 # 1000000000))
    by (split; nra).
  destruct (@round_to_float_small 3 (a + p)) as [s [Hs [Es _]]].
  { lia. } { apply Qabs_Qlt_condition. split; lra. }
  rewrite Hs. change (3 - 54)%Z with (-51)%Z in Es.
  apply Qabs_Qle_condition in Es.
  exists s. split; [reflexivity |]. split; lra.
Qed.

Lemma activity_literals :
  lit (30 # 100) = Fin (val (lit (30 # 100)))
  /\ lit (95 # 100) = Fin (val (lit (95 # 100)))
  /\ 0 <= val (lit (30 # 100)) /\ (2999 # 10000) <= val (lit (30 # 100))
  /\ val (lit (30 # 100)) <= val (lit (95 # 100))
  /\ val (lit (95 # 100)) <= (9501 # 10000) /\ val (lit (95 # 100)) <= 2.
Proof.
  repeat split; try (apply Qle_bool_iff); vm_compute; reflexivity.
Qed.

Lemma toxicity_literals :
  lit (10 # 100) = Fin (val (lit (10 # 100)))
  /\ lit (80 # 100) = Fin (val (lit (80 # 100)))
  /\ 0 <= val (lit (10 # 100)) /\ (999 # 10000) <= val (lit (10 # 100))
  /\ val (lit (10 # 100)) <= val (lit (80 # 100))
  /\ val (lit (80 # 100)) <= (8001 # 10000) /\ val (lit (80 # 100)) <= 2.
Proof.
  repeat split; try (apply Qle_bool_iff); vm_compute; reflexivity.
Qed.

(** [round(random.uniform(0.30, 0.95), 2)] is one of 0.30, 0.31, ..., 0.95. *)
Lemma activity_draw g :
  exists x, uniform (lit (30 # 100)) (lit (95 # 100)) g = (x, snd (next_random g))
            /\ In (py_round 2 x) (hundredths 30 95).
Proof.
  destruct activity_literals as (E1 & E2 & H0 & Hlo & Hab & Hhi & H1).
  rewrite E1, E2.
  destruct (uniform_bounds g H0 Hab H1) as [s [Hs [L U]]].
  exists (Fin s). split; [exact Hs |].
  apply py_round_hundredths.
  - change (inject_Z 30) with 30. lra.
  - change (inject_Z 95) with 95. lra.
Qed.

(** [round(random.uniform(0.10, 0.80), 2)] is one of 0.10, 0.11, ..., 0.80. *)
Lemma toxicity_draw g :
  exists x, uniform (lit (10 # 100)) (lit (80 # 100)) g = (x, snd (next_random g))
            /\ In (py_round 2 x) (hundredths 10 80).
Proof.
  destruct toxicity_literals as (E1 & E2 & H0 & Hlo & Hab & Hhi & H1).
  rewrite E1, E2.
  destruct (uniform_bounds g H0 Hab H1) as [s [Hs [L U]]].
  exists (Fin s). split; [exact Hs |].
  apply py_round_hundredths.
  - change (inject_Z 10) with 10. lra.
  - change (inject_Z 80) with 80. lra.
Qed.

End Draws.

Section Rows.

Context {random : PyRandom}.

Lemma demo_row_spec i g :
  exists a t,
    In a (hundredths 30 95) /\ In t (hundredths 10 80)
    /\ demo_row i g =
       ({| Molecule := "Mol-" ++ Fmt.format_0d 3 i;
           Activity := a;
           Toxicity := t;
           Composite_score := composite_score a t;
           Status := status_of a t |},
        snd (next_random (snd (next_random g)))).
Proof.
  unfold demo_row.
  destruct (activity_draw g) as [x [Hx Ha]]. rewrite Hx.
  destruct (toxicity_draw (snd (next_random g))) as [y [Hy Ht]]. rewrite Hy.
  exists (py_round 2 x), (py_round 2 y). repeat split; assumption.
Qed.

End Rows.

(** Clamping to [[0, 1]] gives a finite value of that interval, whatever is
    clamped: a NaN and [+inf] are sent to 1, [-inf] to 0. *)
Lemma clamp_unit x :
  exists c, py_max (Fin 0) (py_min (Fin 1) x) = Fin c /\ 0 <= c <= 1.
Proof.
  unfold py_min, py_max.
  destruct x as [q | [|] |]; simpl.
  - destruct (Qle_bool 1 q) eqn:E1; simpl.
    + exists 1. split; [reflexivity | lra].
    + destruct (Qle_bool q 0) eqn:E0; simpl.
      * exists 0. split; [reflexivity | lra].
      * exists q. split; [reflexivity |].
        assert (~ 1 <= q) by (rewrite <- Qle_bool_iff, E1; discriminate).
        assert (~ q <= 0) by (rewrite <- Qle_bool_iff, E0; discriminate).
        lra.
  - exists 0. split; [reflexivity | lra].
  - exists 1. split; [reflexivity | lra].
  - exists 1. split; [reflexivity | lra].
Qed.

(** Whatever the activity and the toxicity, the composite score is one of
    0.00, 0.01, ..., 1.00. *)
Lemma composite_score_hundredths a t :
  In (composite_score a t) (hundredths 0 100).
Proof.
  unfold composite_score.
  destruct (clamp_unit (fmul (fmul a (fsub (Fin 1) t)) (lit (125 # 100))))
    as [c [-> Hc]].
  apply py_round_hundredths.
  - change (inject_Z 0) with 0. lra.
  - change (inject_Z 100) with 100. lra.
Qed.

(** The three grids lie in the three intervals: checked value by value. *)
Lemma activity_grid_ok :
  forallb (fun a => in_range (lit (30 # 100)) a (lit (95 # 100)))
    (hundredths 30 95) = true.
Proof. vm_compute. reflexivity. Qed.

Lemma toxicity_grid_ok :
  forallb (fun t => in_range (lit (10 # 100)) t (lit (80 # 100)))
    (hundredths 10 80) = true.
Proof. vm_compute. reflexivity. Qed.

Lemma score_grid_ok :
  forallb (fun s => in_range (Fin 0) s (Fin 1) && is_finite s)
    (hundredths 0 100) = true.
Proof. vm_compute. reflexivity. Qed.

(** ** Lists: ordered pairs, indices *)

Section ListFacts.

Variables A B : Type.

Lemma FOP_impl_In (R R' : A -> A -> Prop) l :
  (forall a b, In a l -> In b l -> R a b -> R' a b) ->
  ForallOrdPairs R l -> ForallOrdPairs R' l.
Proof.
  intros H FOP. induction FOP as [| a l Ha _ IH]; constructor.
  - rewrite Forall_forall in *. intros b Hb.
    apply H; [left; reflexivity | right; exact Hb | apply Ha, Hb].
  - apply IH. intros x y Hx Hy. apply H; right; assumption.
Qed.

Lemma FOP_map (f : A -> B) (R : B -> B -> Prop) l :
  ForallOrdPairs (fun a b => R (f a) (f b)) l -> ForallOrdPairs R (map f l).
Proof.
  induction 1 as [| a l Ha _ IH]; simpl; constructor.
  - rewrite Forall_forall in *. intros b Hb.
    apply in_map_iff in Hb. destruct Hb as [x [<- Hx]]. apply Ha, Hx.
  - exact IH.
Qed.

Lemma FOP_app (R : A -> A -> Prop) l1 l2 :
  ForallOrdPairs R l1 -> ForallOrdPairs R l2 ->
  (forall x y, In x l1 -> In y l2 -> R x y) ->
  ForallOrdPairs R (l1 ++ l2).
Proof.
  intros H1 H2 H. induction H1 as [| a l Ha _ IH]; simpl; [exact H2 |].
  constructor.
  - apply Forall_app. split; [exact Ha |].
    rewrite Forall_forall. intros y Hy. apply H; [left; reflexivity | exact Hy].
  - apply IH. intros x y Hx Hy. apply H; [right; exact Hx | exact Hy].
Qed.

Lemma FOP_rev (R : A -> A -> Prop) l :
  ForallOrdPairs (fun a b => R b a) l -> ForallOrdPairs R (rev l).
Proof.
  induction 1 as [| a l Ha _ IH]; simpl; [constructor |].
  apply FOP_app; [exact IH | repeat constructor |].
  intros x y Hx [<- | []]. rewrite Forall_forall in Ha.
  apply Ha. apply in_rev. exact Hx.
Qed.

Lemma map_nth_seq (d : A) l :
  map (fun i => nth i l d) (seq 0 (List.length l)) = l.
Proof.
  apply nth_ext with (d := d) (d' := d).
  - rewrite length_map, length_seq. reflexivity.
  - intros n Hn. rewrite length_map, length_seq in Hn.
    rewrite (nth_indep _ d (nth 0 l d)) by (rewrite length_map, length_seq; exact Hn).
    rewrite (map_nth (fun i => nth i l d)), seq_nth by exact Hn. reflexivity.
Qed.

Lemma combine_seq_fst (l : list A) s :
  map fst (combine (seq s (List.length l)) l) = seq s (List.length l).
Proof.
  revert s. induction l as [| a l IH]; intros s; simpl; [reflexivity |].
  rewrite IH. reflexivity.
Qed.

Lemma combine_seq_snd (l : list A) s :
  map snd (combine (seq s (List.length l)) l) = l.
Proof.
  revert s. induction l as [| a l IH]; intros s; simpl; [reflexivity |].
  rewrite IH. reflexivity.
Qed.

Lemma filter_all (p : A -> bool) l :
  Forall (fun a => p a = true) l -> filter p l = l.
Proof.
  induction 1 as [| a l Ha _ IH]; simpl; [reflexivity |].
  rewrite Ha, IH. reflexivity.
Qed.

Lemma filter_none (p : A -> bool) l :
  Forall (fun a => p a = false) l -> filter p l = [].
Proof.
  induction 1 as [| a l Ha _ IH]; simpl; [reflexivity |].
  rewrite Ha. exact IH.
Qed.

End ListFacts.

(** The index that [rev (seq 0 n)] holds at [j]. *)
Lemma nth_rev_seq n j : (j < n)%nat -> nth j (rev (seq 0 n)) O = (n - S j)%nat.
Proof.
  intros H. rewrite rev_nth by (rewrite length_seq; exact H).
  rewrite length_seq, seq_nth by lia. reflexivity.
Qed.

(** ** [sort_values] *)

Lemma feqb_sym x y : feqb x y = feqb y x.
Proof.
  destruct x as [a | s |], y as [b | s' |]; simpl; try reflexivity.
  - destruct (Qeq_bool a b) eqn:E.
    + apply Qeq_bool_iff in E. symmetry. apply Qeq_bool_iff. symmetry. exact E.
    + destruct (Qeq_bool b a) eqn:E'; [| reflexivity].
      apply Qeq_bool_iff in E'. symmetry in E'. apply Qeq_bool_iff in E'.
      congruence.
  - destruct s, s'; reflexivity.
Qed.

Lemma cell_eq_sym a b : cell_eq a b = cell_eq b a.
Proof.
  destruct a, b; simpl; try reflexivity.
  - apply String.eqb_sym.
  - apply feqb_sym.
Qed.

Lemma is_number_not_na c : is_number c -> isna c = false.
Proof. destruct c; simpl; [intros [] | auto]. Qed.

Section SortFacts.

Context {sorter : ArgSort}.

(** On a column without missing values, the descending [nargsort] is the
    ascending [argsort] of the reversed column, mapped back and reversed. *)
Lemma nargsort_desc items :
  Forall is_number items ->
  nargsort items false =
  rev (map (fun j => nth j (rev (seq 0 (List.length items))) O)
         (argsort (rev items))).
Proof.
  intros Hnum. unfold nargsort.
  assert (Hkeep : Forall (fun p : nat * cell => isna (snd p) = false)
                    (combine (seq 0 (List.length items)) items)).
  { rewrite Forall_forall in *. intros [i c] Hin. simpl.
    apply is_number_not_na, Hnum. eapply in_combine_r, Hin. }
  rewrite (@filter_all _ (fun p : nat * cell => negb (isna (snd p)))).
  2: { eapply Forall_impl; [| exact Hkeep]. simpl. intros p ->. reflexivity. }
  rewrite (@filter_none _ (fun p : nat * cell => isna (snd p))) by exact Hkeep.
  rewrite combine_seq_fst, combine_seq_snd. simpl. apply app_nil_r.
Qed.

Lemma argsort_lt l i : In i (argsort l) -> (i < List.length l)%nat.
Proof.
  intros H. apply (Permutation_in _ (argsort_perm l)) in H.
  apply in_seq in H. lia.
Qed.

Lemma nargsort_desc_perm items :
  Forall is_number items ->
  Permutation (nargsort items false) (seq 0 (List.length items)).
Proof.
  intros Hnum. rewrite (nargsort_desc Hnum).
  set (n := List.length items).
  assert (E : map (fun j => nth j (rev (seq 0 n)) O) (seq 0 n) = rev (seq 0 n)).
  { pose proof (map_nth_seq O (rev (seq 0 n))) as H.
    rewrite length_rev, length_seq in H. exact H. }
  apply Permutation_trans with (rev (seq 0 n));
    [| symmetry; apply Permutation_rev].
  apply Permutation_trans
    with (map (fun j => nth j (rev (seq 0 n)) O) (argsort (rev items)));
    [symmetry; apply Permutation_rev |].
  apply Permutation_trans
    with (map (fun j => nth j (rev (seq 0 n)) O) (seq 0 n));
    [| rewrite E; apply Permutation_refl].
  apply Permutation_map.
  unfold n. rewrite <- (length_rev items). apply argsort_perm.
Qed.

Lemma Forall_is_number_rev items :
  Forall is_number items -> Forall is_number (rev items).
Proof. intros H. apply Forall_rev. exact H. Qed.

(** The descending [nargsort] lists the indices by non-increasing key. *)
Lemma nargsort_desc_sorted items :
  Forall is_number items ->
  ForallOrdPairs
    (fun i j => cell_le (nth j items (CNum NaN)) (nth i items (CNum NaN)) = true)
    (nargsort items false).
Proof.
  intros Hnum. rewrite (nargsort_desc Hnum).
  apply FOP_rev, FOP_map.
  eapply FOP_impl_In; [| apply argsort_sorted, Forall_is_number_rev, Hnum].
  intros a b Ha Hb. simpl.
  apply argsort_lt in Ha, Hb. rewrite length_rev in Ha, Hb.
  rewrite !nth_rev_seq by assumption.
  rewrite !rev_nth by assumption. auto.
Qed.

(** With a stable [argsort], equal keys stay in index order. *)
Lemma nargsort_desc_stable items :
  stable sorter -> Forall is_number items ->
  ForallOrdPairs
    (fun i j =>
       cell_eq (nth i items (CNum NaN)) (nth j items (CNum NaN)) = true ->
       (i < j)%nat)
    (nargsort items false).
Proof.
  intros Hst Hnum. rewrite (nargsort_desc Hnum).
  apply FOP_rev, FOP_map.
  eapply FOP_impl_In; [| apply (Hst (rev items)), Forall_is_number_rev, Hnum].
  intros a b Ha Hb. simpl.
  apply argsort_lt in Ha, Hb. rewrite length_rev in Ha, Hb.
  rewrite !nth_rev_seq by assumption.
  rewrite !rev_nth by assumption.
  intros H E. rewrite cell_eq_sym in E. specialize (H E). lia.
Qed.

Lemma take_In rs indexer out :
  take rs indexer = Ok out -> forall r, In r out -> In r rs.
Proof.
  revert out. induction indexer as [| i ix IH]; simpl; intros out H r Hr.
  - injection H as <-. destruct Hr.
  - destruct (nth_error rs i) as [r0 |] eqn:E; [| discriminate].
    destruct (take rs ix) as [out' |]; simpl in H; [| discriminate].
    injection H as <-. destruct Hr as [<- | Hr].
    + eapply nth_error_In, E.
    + eapply IH; [reflexivity | exact Hr].
Qed.

Lemma take_map rs indexer :
  Forall (fun i => (i < List.length rs)%nat) indexer ->
  take rs indexer = Ok (map (fun i => nth i rs no_row) indexer).
Proof.
  induction 1 as [| i ix Hi _ IH]; simpl; [reflexivity |].
  rewrite (nth_error_nth' rs no_row Hi), IH. reflexivity.
Qed.

End SortFacts.

(** ** The rows [generate_demo] builds *)

Section GeneratorFacts.

Context {random : PyRandom} {sorter : ArgSort}.

Lemma demo_loop_eq is_ acc g :
  demo_loop is_ acc g = ((acc ++ rows_from is_ g)%list, rng_after is_ g).
Proof.
  revert acc g. induction is_ as [| i is' IH]; intros acc g; simpl.
  - rewrite app_nil_r. reflexivity.
  - destruct (demo_row i g) as [r g'] eqn:E. simpl.
    rewrite IH, <- app_assoc. reflexivity.
Qed.

Lemma length_rows_from is_ g : List.length (rows_from is_ g) = List.length is_.
Proof.
  revert g. induction is_ as [| i is' IH]; intros g; simpl; [| rewrite IH];
    reflexivity.
Qed.

Lemma length_range a b : List.length (range a b) = Z.to_nat (b - a).
Proof. unfold range. rewrite length_map, length_seq. reflexivity. Qed.

Lemma length_generated n seed : List.length (generated n seed) = Z.to_nat n.
Proof.
  unfold generated. rewrite length_rows_from, length_range. f_equal. lia.
Qed.

Lemma rows_from_Forall (P : Row -> Prop) is_ g :
  (forall i g', P (fst (demo_row i g'))) -> Forall P (rows_from is_ g).
Proof.
  intros H. revert g. induction is_ as [| i is' IH]; intros g; simpl;
    constructor; auto.
Qed.

Lemma rows_from_names is_ g :
  map Molecule (rows_from is_ g)
  = map (fun i => ("Mol-" ++ Fmt.format_0d 3 i)%string) is_.
Proof.
  revert g. induction is_ as [| i is' IH]; intros g; simpl; [reflexivity |].
  rewrite IH. f_equal.
  destruct (demo_row_spec i g) as (a & t & _ & _ & ->). reflexivity.
Qed.

Lemma demo_row_built i g : built (fst (demo_row i g)).
Proof.
  destruct (demo_row_spec i g) as (a & t & Ha & Ht & ->).
  repeat split; assumption.
Qed.

Lemma generated_built n seed : Forall built (generated n seed).
Proof. apply rows_from_Forall. intros. apply demo_row_built. Qed.

Lemma built_score_finite r : built r -> is_finite (Composite_score r) = true.
Proof.
  intros (_ & _ & -> & _).
  pose proof score_grid_ok as H. rewrite forallb_forall in H.
  specialize (H _ (composite_score_hundredths (Activity r) (Toxicity r))).
  apply andb_true_iff in H. apply H.
Qed.

Lemma column_scores r rs :
  column_values "Composite score" (DataFrame_of (r :: rs))
  = Some (scores (r :: rs)).
Proof.
  unfold column_values. simpl existsb. cbv iota.
  unfold DataFrame_of, rows.
  induction (r :: rs) as [| r' rs' IH]; simpl; [reflexivity |].
  unfold scores in IH. simpl in IH. rewrite IH. reflexivity.
Qed.

Lemma scores_numbers rs : Forall built rs -> Forall is_number (scores rs).
Proof.
  intros H. unfold scores. apply Forall_map.
  eapply Forall_impl; [| exact H]. intros r Hr. simpl.
  apply built_score_finite in Hr. destruct (Composite_score r); simpl in *;
    congruence.
Qed.

Lemma nth_scores rs i :
  (i < List.length rs)%nat ->
  nth i (scores rs) (CNum NaN) = CNum (Composite_score (nth i rs no_row)).
Proof.
  intros H. unfold scores.
  rewrite (nth_indep _ (CNum NaN) (CNum (Composite_score no_row)))
    by (rewrite length_map; exact H).
  apply (map_nth (fun r => CNum (Composite_score r))).
Qed.

Lemma sort_values_built r rs :
  Forall built (r :: rs) ->
  sort_values "Composite score" false (DataFrame_of (r :: rs))
  = Ok {| columns := columns (DataFrame_of (r :: rs));
          rows := sorted_rows (r :: rs) |}.
Proof.
  intros Hb. unfold sort_values. rewrite column_scores.
  unfold rows at 1. unfold DataFrame_of at 1.
  rewrite take_map; [reflexivity |].
  rewrite Forall_forall. intros i Hi.
  apply (Permutation_in _ (nargsort_desc_perm (scores_numbers Hb))) in Hi.
  apply in_seq in Hi. unfold scores in Hi. rewrite length_map in Hi. lia.
Qed.

Lemma sorted_rows_perm rs :
  Forall built rs -> Permutation (sorted_rows rs) rs.
Proof.
  intros Hb. unfold sorted_rows.
  apply Permutation_trans
    with (map (fun i => nth i rs no_row) (seq 0 (List.length rs)));
    [| rewrite map_nth_seq; apply Permutation_refl].
  apply Permutation_map.
  replace (List.length rs) with (List.length (scores rs))
    by (unfold scores; apply length_map).
  apply nargsort_desc_perm, scores_numbers, Hb.
Qed.

Lemma nargsort_scores_lt rs i :
  Forall built rs -> In i (nargsort (scores rs) false) ->
  (i < List.length rs)%nat.
Proof.
  intros Hb Hi.
  apply (Permutation_in _ (nargsort_desc_perm (scores_numbers Hb))) in Hi.
  apply in_seq in Hi. unfold scores in Hi. rewrite length_map in Hi. lia.
Qed.

(** Non-increasing in the composite score. *)
Lemma sorted_rows_sorted rs :
  Forall built rs ->
  ForallOrdPairs
    (fun r1 r2 => fleb (Composite_score r2) (Composite_score r1) = true)
    (sorted_rows rs).
Proof.
  intros Hb. unfold sorted_rows. apply FOP_map.
  eapply FOP_impl_In; [| apply nargsort_desc_sorted, scores_numbers, Hb].
  intros i j Hi Hj. simpl.
  rewrite !nth_scores by (eapply nargsort_scores_lt; eassumption).
  auto.
Qed.

End GeneratorFacts.

(** ** Names *)

Lemma of_uint_zpad w d : N.of_uint (Fmt.zpad w d) = N.of_uint d.
Proof.
  unfold Fmt.zpad. induction (w - Decimal.nb_digits d)%nat as [| k IH];
    simpl; [reflexivity | exact IH].
Qed.

Lemma format_0d_inj w i j :
  (0 <= i)%Z -> (0 <= j)%Z -> Fmt.format_0d w i = Fmt.format_0d w j -> i = j.
Proof.
  intros Hi Hj. unfold Fmt.format_0d.
  destruct (Z.ltb_spec i 0) as [? | _]; [lia |].
  destruct (Z.ltb_spec j 0) as [? | _]; [lia |].
  intros E. apply (f_equal NilEmpty.uint_of_string) in E.
  rewrite !NilEmpty.usu in E. injection E as E.
  apply (f_equal N.of_uint) in E. rewrite !of_uint_zpad in E.
  unfold Fmt.digits in E. rewrite !DecimalN.Unsigned.of_to in E. lia.
Qed.

Lemma name_of_inj i j : (0 <= i)%Z -> (0 <= j)%Z -> name_of i = name_of j -> i = j.
Proof.
  intros Hi Hj E. unfold name_of in E. simpl in E.
  injection E as E. eapply format_0d_inj; eassumption.
Qed.

Lemma NoDup_range a b : NoDup (range a b).
Proof.
  unfold range. apply Finite.Injective_map_NoDup.
  - intros x y. lia.
  - apply seq_NoDup.
Qed.

Lemma NoDup_names n : NoDup (map name_of (range 1 (n + 1))).
Proof.
  apply Finite.Injective_map_NoDup_in; [| apply NoDup_range].
  intros i j Hi Hj. apply range_In in Hi, Hj. apply name_of_inj; lia.
Qed.

(** ** The frame [generate_demo] returns *)

Lemma position_nth gen i :
  NoDup (map Molecule gen) -> (i < List.length gen)%nat ->
  position (Molecule (nth i gen no_row)) gen = i.
Proof.
  revert i. induction gen as [| r gen IH]; intros i Hnd Hi; simpl in *; [lia |].
  inversion Hnd as [| ? ? Hnotin Hnd']; subst.
  destruct i as [| i].
  - rewrite String.eqb_refl. reflexivity.
  - destruct (String.eqb_spec (Molecule r) (Molecule (nth i gen no_row))) as [E | _].
    + exfalso. apply Hnotin. rewrite E. apply in_map, nth_In. lia.
    + rewrite IH by (assumption || lia). reflexivity.
Qed.

Section GeneratorTheorems.

Context {random : PyRandom} {sorter : ArgSort}.

Lemma generated_names n seed :
  map Molecule (generated n seed) = map name_of (range 1 (n + 1)).
Proof. apply rows_from_names. Qed.

Lemma generate_demo_pos n seed g :
  (1 <= n)%Z ->
  generate_demo n seed g
  = (Ok {| columns := frame_columns; rows := sorted_rows (generated n seed) |},
     rng_after (range 1 (n + 1)) (seeded seed)).
Proof.
  intros Hn. unfold generate_demo. rewrite demo_loop_eq. simpl app.
  fold (generated n seed).
  pose proof (generated_built n seed) as Hb.
  pose proof (length_generated n seed) as Hlen.
  destruct (generated n seed) as [| r rs]; [simpl in Hlen; lia |].
  rewrite (sort_values_built Hb). reflexivity.
Qed.

Lemma generate_demo_nonpos n seed g :
  (n <= 0)%Z ->
  generate_demo n seed g = (Raise (KeyError "Composite score"), seeded seed).
Proof.
  intros Hn. unfold generate_demo, range.
  replace (Z.to_nat (n + 1 - 1)) with O by lia. reflexivity.
Qed.

Lemma sorted_rows_ties gen :
  stable sorter -> Forall built gen -> NoDup (map Molecule gen) ->
  ties_in_generation_order gen (sorted_rows gen).
Proof.
  intros Hst Hb Hnd. unfold ties_in_generation_order, sorted_rows.
  apply FOP_map.
  eapply FOP_impl_In; [| apply (nargsort_desc_stable Hst (scores_numbers Hb))].
  intros i j Hi Hj. simpl.
  pose proof (nargsort_scores_lt _ Hb Hi) as Li.
  pose proof (nargsort_scores_lt _ Hb Hj) as Lj.
  rewrite !nth_scores by assumption. simpl.
  rewrite !position_nth by assumption. auto.
Qed.

End GeneratorTheorems.

(** ** The concrete libraries keep the contracts *)

Module MTFacts.

Open Scope Z_scope.

Lemma genrand_range s : 0 <= fst (MT.genrand_uint32 s) < 2 ^ 32.
Proof.
  unfold MT.genrand_uint32. cbv zeta. cbn [fst]. unfold MT.temper, MT.u32.
  apply Z.mod_pos_bound. reflexivity.
Qed.

Lemma random_range s :
  (0 <= fst (MT.random s) /\ fst (MT.random s) < 1)%Q.
Proof.
  unfold MT.random.
  pose proof (genrand_range s) as Hx.
  destruct (MT.genrand_uint32 s) as [x s1].
  pose proof (genrand_range s1) as Hy.
  destruct (MT.genrand_uint32 s1) as [y s2].
  cbn [fst] in *. rewrite !Z.shiftr_div_pow2 by lia.
  assert (Dx : 0 <= x / 2 ^ 5 < 2 ^ 27).
  { split; [apply Z.div_pos; lia |].
    apply Z.div_lt_upper_bound; [reflexivity |].
    change (2 ^ 5 * 2 ^ 27) with (2 ^ 32). lia. }
  assert (Dy : 0 <= y / 2 ^ 6 < 2 ^ 26).
  { split; [apply Z.div_pos; lia |].
    apply Z.div_lt_upper_bound; [reflexivity |].
    change (2 ^ 6 * 2 ^ 26) with (2 ^ 32). lia. }
  change (2 ^ 27) with 134217728 in Dx. change (2 ^ 26) with 67108864 in Dy.
  unfold Qle, Qlt. cbn [Qnum Qden].
  change (Z.pos (2 ^ 53)) with 9007199254740992.
  change (QDen 0) with 1. change (QDen 1) with 1. change (Qnum 0) with 0.
  change (Qnum 1) with 1. lia.
Qed.

Lemma getrandbits_nonneg words k s : 0 <= fst (MT.getrandbits words k s).
Proof.
  revert k s. induction words as [| w IH]; intros k s; cbn [MT.getrandbits].
  - reflexivity.
  - pose proof (genrand_range s) as Hr.
    destruct (MT.genrand_uint32 s) as [r s1]. cbn [fst] in Hr.
    destruct (k <? 32).
    + cbn [fst]. apply Z.shiftr_nonneg. lia.
    + specialize (IH (k - 32) s1).
      destruct (MT.getrandbits w (k - 32) s1) as [hi s2]. cbn [fst] in *.
      pose proof (proj2 (Z.shiftl_nonneg hi 32) IH). lia.
Qed.

Lemma randbelow_range tries n k s :
  0 < n -> 0 <= fst (MT.randbelow tries n k s) < n.
Proof.
  intros Hn. revert s. induction tries as [| t IH]; intros s;
    cbn [MT.randbelow].
  - cbn [fst]. lia.
  - pose proof (getrandbits_nonneg (Z.to_nat ((k - 1) / 32 + 1)) k s) as Hr.
    destruct (MT.getrandbits (Z.to_nat ((k - 1) / 32 + 1)) k s) as [r s1].
    cbn [fst] in Hr. destruct (Z.ltb_spec r n) as [L | _].
    + cbn [fst]. lia.
    + apply IH.
Qed.

Lemma randint_range a b s :
  a <= b -> a <= fst (MT.randint a b s) <= b.
Proof.
  intros H. unfold MT.randint.
  destruct (Z.ltb_spec 0 (b + 1 - a)) as [W | W]; [| lia].
  pose proof (@randbelow_range 1000 (b + 1 - a) (MT.bit_length (b + 1 - a)) s W)
    as Hr.
  destruct (MT.randbelow 1000 (b + 1 - a) (MT.bit_length (b + 1 - a)) s)
    as [r s1].
  cbn [fst] in *. lia.
Qed.

End MTFacts.

Module DemoFacts.

Import Demo.

Lemma fleb_Fin a b : fleb (Fin a) (Fin b) = true <-> (a <= b)%Q.
Proof.
  unfold fleb. simpl. rewrite orb_true_iff, negb_true_iff. split.
  - intros [H | H].
    + assert (~ (b <= a)%Q) by (rewrite <- Qle_bool_iff, H; discriminate).
      lra.
    + apply Qeq_bool_iff in H. lra.
  - intros H. destruct (Qle_bool b a) eqn:E; [right | left; reflexivity].
    apply Qle_bool_iff in E. apply Qeq_bool_iff. lra.
Qed.

Lemma fleb_Fin_false a b : fleb (Fin a) (Fin b) = false <-> (b < a)%Q.
Proof.
  pose proof (fleb_Fin a b) as H. destruct (fleb (Fin a) (Fin b)).
  - split; [discriminate |]. intros. assert ((a <= b)%Q) by tauto. lra.
  - split; [| reflexivity]. intros _.
    destruct (Qlt_le_dec b a) as [L | L]; [exact L |].
    apply H in L. discriminate.
Qed.

Lemma fleb_total x y :
  is_nan x = false -> is_nan y = false -> fleb x y = false -> fleb y x = true.
Proof.
  destruct x as [a | [|] |], y as [b | [|] |]; intros Hx Hy H;
    try discriminate; try reflexivity.
  apply fleb_Fin_false in H. apply fleb_Fin. lra.
Qed.

Lemma fleb_trans x y z : fleb x y = true -> fleb y z = true -> fleb x z = true.
Proof.
  destruct x as [a | [|] |], y as [b | [|] |], z as [c | [|] |];
    intros H1 H2; try discriminate; try reflexivity.
  rewrite fleb_Fin in *. lra.
Qed.

Lemma cell_le_total a b :
  is_number a -> is_number b -> cell_le a b = false -> cell_le b a = true.
Proof. destruct a, b; simpl; try tauto. apply fleb_total. Qed.

Lemma cell_le_trans a b c :
  is_number a -> cell_le a b = true -> cell_le b c = true -> cell_le a c = true.
Proof.
  destruct a, b, c; simpl; try tauto; try congruence. intros _. apply fleb_trans.
Qed.

(** Insertion sort, whatever decides where an index goes in. *)
Section InsertionFacts.

Variable before : cell -> cell -> bool.

Lemma insert_perm l i sorted :
  Permutation (insert before l i sorted) (i :: sorted).
Proof.
  induction sorted as [| j rest IH]; simpl; [reflexivity |].
  destruct (before (nth i l (CNum NaN)) (nth j l (CNum NaN))); [reflexivity |].
  rewrite IH. apply perm_swap.
Qed.

Lemma insertion_argsort_perm l :
  Permutation (insertion_argsort before l) (seq 0 (List.length l)).
Proof.
  unfold insertion_argsort. induction (seq 0 (List.length l)) as [| i is_ IH];
    simpl; [reflexivity |].
  rewrite insert_perm. constructor. exact IH.
Qed.

Hypothesis before_le : forall a b,
  is_number a -> is_number b -> before a b = true -> cell_le a b = true.
Hypothesis before_ge : forall a b,
  is_number a -> is_number b -> before a b = false -> cell_le b a = true.

Lemma insert_sorted l i sorted :
  Forall is_number l -> (i < List.length l)%nat ->
  Forall (fun j => (j < List.length l)%nat) sorted ->
  ForallOrdPairs (fun i j => cell_le (nth i l (CNum NaN)) (nth j l (CNum NaN)) = true) sorted ->
  ForallOrdPairs (fun i j => cell_le (nth i l (CNum NaN)) (nth j l (CNum NaN)) = true)
    (insert before l i sorted).
Proof.
  intros Hl Hi Hs FOP.
  assert (Num : forall k, (k < List.length l)%nat -> is_number (nth k l (CNum NaN))).
  { intros k Hk. rewrite Forall_forall in Hl. apply Hl, nth_In, Hk. }
  induction FOP as [| j rest Hj Hrest IH]; simpl.
  - repeat constructor.
  - inversion Hs as [| ? ? Lj Lrest]; subst.
    destruct (before (nth i l (CNum NaN)) (nth j l (CNum NaN))) eqn:E.
    + constructor; [| constructor; assumption].
      pose proof (before_le (Num i Hi) (Num j Lj) E) as Hij.
      constructor; [exact Hij |].
      rewrite Forall_forall in *. intros k Hk.
      eapply cell_le_trans; [apply Num, Hi | exact Hij | apply Hj, Hk].
    + constructor; [| apply IH; assumption].
      rewrite Forall_forall in *. intros k Hk.
      apply (Permutation_in _ (insert_perm l i rest)) in Hk.
      destruct Hk as [<- | Hk]; [| apply Hj, Hk].
      apply before_ge; auto.
Qed.

Lemma insertion_argsort_sorted l :
  Forall is_number l ->
  ForallOrdPairs (fun i j => cell_le (nth i l (CNum NaN)) (nth j l (CNum NaN)) = true)
    (insertion_argsort before l).
Proof.
  intros Hl. unfold insertion_argsort.
  assert (In_seq : forall k, In k (seq 0 (List.length l)) -> (k < List.length l)%nat).
  { intros k Hk. apply in_seq in Hk. lia. }
  induction (seq 0 (List.length l)) as [| i is_ IH]; simpl; [constructor |].
  apply insert_sorted.
  - exact Hl.
  - apply In_seq. left. reflexivity.
  - rewrite Forall_forall. intros k Hk. apply In_seq. right.
    revert Hk. clear - is_. revert k.
    induction is_ as [| j js IHj]; simpl; intros k Hk; [destruct Hk |].
    apply (Permutation_in _ (insert_perm l j _)) in Hk.
    destruct Hk as [<- | Hk]; [left; reflexivity | right; apply IHj, Hk].
  - apply IH. intros k Hk. apply In_seq. right. exact Hk.
Qed.

End InsertionFacts.

(** The insertion sort is stable: an index goes in behind the keys
    that are smaller only, so in front of every equal key, and it is smaller
    than the indices already in. *)
Lemma cell_le_false_neq a b : cell_le a b = false -> cell_eq b a = false.
Proof.
  destruct a as [s | x], b as [t | y]; simpl; try reflexivity.
  - unfold String.leb. intros H. apply String.eqb_neq. intros ->.
    pose proof (String.compare_antisym s s) as A.
    destruct (String.compare s s); simpl in *; discriminate.
  - unfold fleb. intros H. apply orb_false_iff in H. rewrite feqb_sym. apply H.
Qed.

Lemma insert_stable l i sorted :
  Forall (fun j => (i < j)%nat) sorted ->
  ForallOrdPairs
    (fun i j => cell_eq (nth i l (CNum NaN)) (nth j l (CNum NaN)) = true ->
                (i < j)%nat) sorted ->
  ForallOrdPairs
    (fun i j => cell_eq (nth i l (CNum NaN)) (nth j l (CNum NaN)) = true ->
                (i < j)%nat) (insert cell_le l i sorted).
Proof.
  intros Hlt FOP. induction FOP as [| j rest Hj Hrest IH]; simpl.
  - repeat constructor.
  - inversion Hlt as [| ? ? Lj Lrest]; subst.
    destruct (cell_le (nth i l (CNum NaN)) (nth j l (CNum NaN))) eqn:E.
    + constructor; [| constructor; assumption].
      eapply Forall_impl; [| exact Hlt]. auto.
    + constructor; [| apply IH; assumption].
      rewrite Forall_forall in *. intros k Hk.
      apply (Permutation_in _ (insert_perm cell_le l i rest)) in Hk.
      destruct Hk as [<- | Hk]; [| apply Hj, Hk].
      rewrite (cell_le_false_neq _ _ E). discriminate.
Qed.

Lemma stable_argsort_stable l :
  ForallOrdPairs
    (fun i j => cell_eq (nth i l (CNum NaN)) (nth j l (CNum NaN)) = true ->
                (i < j)%nat) (stable_argsort l).
Proof.
  unfold stable_argsort, insertion_argsort.
  generalize 0%nat at 1 as s. 
  induction (List.length l) as [| n IH]; intros s; simpl; [constructor |].
  apply insert_stable; [| apply IH].
  rewrite Forall_forall. intros k Hk.
  assert (Hin : In k (seq (S s) n)).
  { revert Hk. generalize (seq (S s) n). intros js.
    induction js as [| j js IHj]; simpl; intros Hk; [destruct Hk |].
    apply (Permutation_in _ (insert_perm cell_le l j _)) in Hk.
    destruct Hk as [<- | Hk]; [left; reflexivity | right; apply IHj, Hk]. }
  apply in_seq in Hin. lia.
Qed.

End DemoFacts.

(** The network returns the indices, the keys in ascending order: it
    meets the contract of [ArgSort]. *)
Module SimdFacts.

Lemma holds_indices_perm n p :
  Simd.holds_indices n p = true -> Permutation p (seq 0 n).
Proof.
  unfold Simd.holds_indices. intros H. apply andb_true_iff in H.
  destruct H as [Hl Hi]. apply Nat.eqb_eq in Hl.
  rewrite forallb_forall in Hi.
  symmetry. apply NoDup_Permutation_bis.
  - apply seq_NoDup.
  - rewrite length_seq. lia.
  - intros i Hin. specialize (Hi i Hin). apply existsb_exists in Hi.
    destruct Hi as (j & Hj & E). apply Nat.eqb_eq in E. subst j. exact Hj.
Qed.

Lemma ascending_sorted arr p :
  Simd.ascending arr p = true ->
  ForallOrdPairs
    (fun i j => cell_le (nth i arr (CNum NaN)) (nth j arr (CNum NaN)) = true) p.
Proof.
  induction p as [| i p IH]; cbn [Simd.ascending]; intros H; [constructor |].
  apply andb_true_iff in H. destruct H as [H1 H2].
  constructor; [| apply IH, H2].
  rewrite forallb_forall in H1. rewrite Forall_forall. exact H1.
Qed.

Lemma avx512_argsort_perm l :
  Permutation (Simd.avx512_argsort l) (seq 0 (List.length l)).
Proof.
  unfold Simd.avx512_argsort.
  destruct ((List.length l <=? 16)%nat
            && Simd.holds_indices (List.length l) (Simd.argsort_16_64bit l)
            && Simd.ascending l (Simd.argsort_16_64bit l)) eqn:E.
  - apply andb_true_iff in E. destruct E as [E _].
    apply andb_true_iff in E. destruct E as [_ E].
    apply holds_indices_perm, E.
  - apply (DemoFacts.insertion_argsort_perm cell_le).
Qed.

Lemma avx512_argsort_sorted l :
  Forall is_number l ->
  ForallOrdPairs
    (fun i j => cell_le (nth i l (CNum NaN)) (nth j l (CNum NaN)) = true)
    (Simd.avx512_argsort l).
Proof.
  intros Hn. unfold Simd.avx512_argsort.
  destruct ((List.length l <=? 16)%nat
            && Simd.holds_indices (List.length l) (Simd.argsort_16_64bit l)
            && Simd.ascending l (Simd.argsort_16_64bit l)) eqn:E.
  - apply andb_true_iff in E. destruct E as [_ E].
    apply ascending_sorted, E.
  - apply (DemoFacts.insertion_argsort_sorted cell_le
             (fun a b _ _ H => H) DemoFacts.cell_le_total Hn).
Qed.

End SimdFacts.

(** The four interfaces, implemented: the Mersenne Twister, the stable
    insertion sort and numpy's argsort on AVX-512, the small [libm]; the
    string hash is [SipHash.str_hash]. *)
Module Lib.

Import Demo DemoFacts.

#[export] Instance mersenne_twister : PyRandom :=
  {| rng := MT.state;
     seeded := MT.seed;
     next_random := MT.random;
     next_randint := MT.randint;
     random_range := MTFacts.random_range;
     randint_range := MTFacts.randint_range |}.

Definition insertion_sorter : ArgSort :=
  {| argsort := stable_argsort;
     argsort_perm := insertion_argsort_perm cell_le;
     argsort_sorted :=
       insertion_argsort_sorted cell_le
         (fun a b _ _ H => H) cell_le_total |}.

Definition simd_sorter : ArgSort :=
  {| argsort := Simd.avx512_argsort;
     argsort_perm := SimdFacts.avx512_argsort_perm;
     argsort_sorted := SimdFacts.avx512_argsort_sorted |}.

#[export] Instance taylor_libm : Libm :=
  {| libm_cos := taylor_cos;
     libm_sin := taylor_sin;
     libm_hypot := root_hypot |}.

Lemma insertion_sorter_stable : stable insertion_sorter.
Proof. intros l _. apply stable_argsort_stable. Qed.

End Lib.

Open Scope Q_scope.

(** ** The candidate generator: the claims *)

Section GeneratorClaims.

Context {random : PyRandom} {sorter : ArgSort}.

(** For [n >= 1] a frame is returned, and its records are records the loop
    built. *)
Lemma generate_demo_built (n seed : Z) (g : rng) :
  (1 <= n)%Z ->
  exists df,
    fst (generate_demo n seed g) = Ok df
    /\ Permutation (rows df) (generated n seed)
    /\ Forall built (rows df).
Proof.
  intros Hn. rewrite (generate_demo_pos seed g Hn). simpl fst.
  eexists. split; [reflexivity |]. simpl rows.
  pose proof (generated_built n seed) as Hb.
  pose proof (sorted_rows_perm Hb) as Hp.
  split; [exact Hp |].
  rewrite Forall_forall in *. intros r Hr. apply Hb.
  eapply Permutation_in; eassumption.
Qed.

Lemma built_ranges r :
  built r ->
  in_range (lit (30 # 100)) (Activity r) (lit (95 # 100)) = true
  /\ in_range (lit (10 # 100)) (Toxicity r) (lit (80 # 100)) = true
  /\ in_range (Fin 0) (Composite_score r) (Fin 1) = true.
Proof.
  intros (Ha & Ht & Hs & _).
  pose proof activity_grid_ok as A. rewrite forallb_forall in A.
  pose proof toxicity_grid_ok as T. rewrite forallb_forall in T.
  pose proof score_grid_ok as S. rewrite forallb_forall in S.
  split; [apply A, Ha |]. split; [apply T, Ht |].
  rewrite Hs.
  specialize (S _ (composite_score_hundredths (Activity r) (Toxicity r))).
  apply andb_true_iff in S. apply S.
Qed.

Lemma status_of_priority a t :
  status_of a t = "priority"%string
  <-> fleb (lit (7 # 10)) a = true /\ fleb t (lit (5 # 10)) = true.
Proof.
  unfold status_of. rewrite <- andb_true_iff.
  destruct (fleb (lit (7 # 10)) a && fleb t (lit (5 # 10))); split;
    (reflexivity || discriminate).
Qed.

Lemma status_of_reserve a t :
  status_of a t = "reserve"%string
  <-> ~ (fleb (lit (7 # 10)) a = true /\ fleb t (lit (5 # 10)) = true).
Proof.
  unfold status_of. rewrite <- andb_true_iff.
  destruct (fleb (lit (7 # 10)) a && fleb t (lit (5 # 10))); split;
    try reflexivity; try discriminate; intros H; try (exfalso; apply H; reflexivity).
Qed.

(** C1 -- determinism.  What [generate_demo(n, seed)] returns, and the state
    it leaves the module-level generator in, do not depend on the state the
    generator was in before the call: two calls with the same [(n, seed)]
    return the same frame, record for record, or raise the same exception. *)
Theorem generate_demo_deterministic (n seed : Z) (g1 g2 : rng) :
  generate_demo n seed g1 = generate_demo n seed g2.
Proof. reflexivity. Qed.

(** C2, as amended -- for [n >= 1] the frame returned holds the generated
    records, reordered so that the composite score never increases; records
    with equal scores keep their generation order when the [argsort] behind
    [sort_values] is stable. *)
Theorem generate_demo_sorted (n seed : Z) (g : rng) :
  (1 <= n)%Z ->
  exists df,
    fst (generate_demo n seed g) = Ok df
    /\ Permutation (rows df) (generated n seed)
    /\ non_increasing (rows df)
    /\ (stable sorter ->
        ties_in_generation_order (generated n seed) (rows df)).
Proof.
  intros Hn. rewrite (generate_demo_pos seed g Hn). simpl fst.
  eexists. split; [reflexivity |]. simpl rows.
  pose proof (generated_built n seed) as Hb.
  split; [apply sorted_rows_perm, Hb |].
  split; [apply sorted_rows_sorted, Hb |].
  intros Hst. apply sorted_rows_ties; [exact Hst | exact Hb |].
  rewrite generated_names. apply NoDup_names.
Qed.

(** C3 -- ranges.  For [n >= 1] every record of the frame has its activity
    in [[0.30, 0.95]], its toxicity in [[0.10, 0.80]] and its composite
    score in [[0.0, 1.0]], all three rounded to 2 decimals; the bounds are
    the doubles of these literals. *)
Theorem generate_demo_ranges (n seed : Z) (g : rng) :
  (1 <= n)%Z ->
  exists df,
    fst (generate_demo n seed g) = Ok df
    /\ Forall
         (fun r =>
            in_range (lit (30 # 100)) (Activity r) (lit (95 # 100)) = true
            /\ in_range (lit (10 # 100)) (Toxicity r) (lit (80 # 100)) = true
            /\ in_range (Fin 0) (Composite_score r) (Fin 1) = true)
         (rows df).
Proof.
  intros Hn. destruct (generate_demo_built seed g Hn) as (df & E & _ & Hb).
  exists df. split; [exact E |].
  eapply Forall_impl; [| exact Hb]. apply built_ranges.
Qed.

(** C4 -- derived fields.  For [n >= 1] every record of the frame has
    [compositeScore = round(max(0, min(1, activity * (1 - toxicity) * 1.25)), 2)],
    its status is "priority" exactly when [activity >= 0.7] and
    [toxicity <= 0.5], and "reserve" exactly when not. *)
Theorem generate_demo_derived_fields (n seed : Z) (g : rng) :
  (1 <= n)%Z ->
  exists df,
    fst (generate_demo n seed g) = Ok df
    /\ Forall
         (fun r =>
            Composite_score r
            = py_round 2
                (py_max (Fin 0)
                   (py_min (Fin 1)
                      (fmul (fmul (Activity r) (fsub (Fin 1) (Toxicity r)))
                         (lit (125 # 100)))))
            /\ (Status r = "priority"%string
                <-> fleb (lit (7 # 10)) (Activity r) = true
                    /\ fleb (Toxicity r) (lit (5 # 10)) = true)
            /\ (Status r = "reserve"%string
                <-> ~ (fleb (lit (7 # 10)) (Activity r) = true
                       /\ fleb (Toxicity r) (lit (5 # 10)) = true)))
         (rows df).
Proof.
  intros Hn. destruct (generate_demo_built seed g Hn) as (df & E & _ & Hb).
  exists df. split; [exact E |].
  eapply Forall_impl; [| exact Hb]. intros r (_ & _ & Hs & Hl).
  split; [exact Hs |]. rewrite Hl.
  split; [apply status_of_priority | apply status_of_reserve].
Qed.


(** C7 -- the call is not pure: [random.seed(seed)] re-seeds the
    module-level generator of [random], which is then drawn from twice per
    record.  Whatever state that generator was in, the call leaves it in the
    state reached from [seed] by these draws. *)
Theorem generate_demo_reseeds_global (n seed : Z) (g : rng) :
  snd (generate_demo n seed g) = rng_after (range 1 (n + 1)) (seeded seed).
Proof.
  unfold generate_demo. rewrite demo_loop_eq. reflexivity.
Qed.

End GeneratorClaims.

(** ** Which ints and quotients a float can hold *)

Lemma Qabs_inject_Z z : Qabs (inject_Z z) = inject_Z (Z.abs z).
Proof. reflexivity. Qed.

(** [float(z)] succeeds below [2^1024 - 2^970], the midpoint between the
    largest double and [2^1024]. *)
Lemma float_of_int_ok z :
  (Z.abs z < 2 ^ 1024 - 2 ^ 970)%Z -> exists q, float_of_int z = Ok (Fin q).
Proof.
  intros Hz. unfold float_of_int.
  destruct (@round_to_float_Fin 1024 (inject_Z z)) as [y [Hy _]].
  - lia.
  - rewrite Qabs_inject_Z, (@pow2_Z 1024) by lia. rewrite <- Zlt_Qlt. lia.
  - rewrite Qabs_inject_Z. change (1024 - 54)%Z with 970%Z.
    rewrite (@pow2_Z 1024), (@pow2_Z 970) by lia.
    rewrite <- inject_Z_plus, <- Zlt_Qlt. lia.
  - rewrite Hy. exists y. reflexivity.
Qed.

Lemma int_truediv_2_ok z :
  (Z.abs z < 2 ^ 1024)%Z -> exists q, int_truediv z 2 = Ok (Fin q).
Proof.
  intros Hz. unfold int_truediv. simpl Z.eqb. cbv iota.
  destruct (@round_to_float_small 1023 (inject_Z z / inject_Z 2))
    as [y [Hy _]].
  - lia.
  - assert (E : Qabs (inject_Z z / inject_Z 2) == inject_Z (Z.abs z) / 2).
    { unfold Qdiv. rewrite Qabs_Qmult, Qabs_inject_Z. reflexivity. }
    rewrite E. apply Qlt_shift_div_r; [reflexivity |].
    assert (P : pow2 1023 * 2 == inject_Z (2 ^ 1024)).
    { rewrite <- (@pow2_Z 1024) by lia.
      change 1024%Z with (1023 + 1)%Z. rewrite pow2_add. reflexivity. }
    rewrite P, <- Zlt_Qlt. exact Hz.
  - rewrite Hy. exists y. reflexivity.
Qed.

(** A small int converts exactly enough: it stays below [2^4]. *)
Lemma float_of_int_small z :
  (0 <= z < 6)%Z -> exists q, float_of_int z = Ok (Fin q) /\ Qabs q < pow2 4.
Proof.
  intros Hz. unfold float_of_int.
  destruct (@round_to_float_small 3 (inject_Z z)) as [y [Hy [_ Hb]]].
  - lia.
  - rewrite Qabs_inject_Z, (@pow2_Z 3) by lia. rewrite <- Zlt_Qlt. 
    change (2 ^ 3)%Z with 8%Z. lia.
  - rewrite Hy. exists y. split; [reflexivity | exact Hb].
Qed.

(** ** Loops that may raise *)

Lemma map_result_ok (A B : Type) (f : A -> result B) l :
  (forall a, In a l -> exists b, f a = Ok b) ->
  exists bs, map_result f l = Ok bs.
Proof.
  induction l as [| a l IH]; intros H; simpl.
  - exists []. reflexivity.
  - destruct (H a (or_introl eq_refl)) as [b ->].
    destruct IH as [bs ->]; [intros; apply H; right; assumption |].
    exists (b :: bs). reflexivity.
Qed.

Lemma map_result_length (A B : Type) (f : A -> result B) l bs :
  map_result f l = Ok bs -> List.length bs = List.length l.
Proof.
  revert bs. induction l as [| a l IH]; simpl; intros bs H.
  - injection H as <-. reflexivity.
  - destruct (f a) as [b |]; simpl in H; [| discriminate].
    destruct (map_result f l) as [bs' |]; simpl in H; [| discriminate].
    injection H as <-. simpl. rewrite (IH bs' eq_refl). reflexivity.
Qed.

Lemma py_index_ok (A : Type) (l : list A) i :
  (0 <= i < Z.of_nat (List.length l))%Z ->
  exists a, py_index l i = Ok a /\ In a l.
Proof.
  intros Hi. unfold py_index.
  destruct (Z.ltb_spec i 0) as [? | _]; [lia |].
  destruct (Z.ltb_spec i 0) as [? | _]; [lia |].
  destruct (nth_error l (Z.to_nat i)) as [a |] eqn:E.
  - exists a. split; [reflexivity |]. eapply nth_error_In, E.
  - apply nth_error_None in E. lia.
Qed.

(** ** Division by a length *)

Lemma py_or_one_not_zero h : is_zero (py_or h (Fin 1)) = false.
Proof.
  unfold py_or. destruct (is_zero h) eqn:E; [reflexivity | exact E].
Qed.

Lemma fdiv_ok x y : is_zero y = false -> exists q, fdiv x y = Ok q.
Proof. intros H. unfold fdiv. rewrite H. eexists. reflexivity. Qed.

(** ** The icon *)

Lemma third_of_pi :
  exists step, float_div_int math_pi 3 = Ok (Fin step) /\ 0 <= step /\ step <= 2.
Proof.
  eexists. split; [vm_compute; reflexivity |].
  split; apply Qle_bool_iff; vm_compute; reflexivity.
Qed.

Section IconFacts.

Context {random : PyRandom} {libm : Libm}.

Variable hash : string -> Z.

Lemma rotation_finite step g :
  0 <= step -> step <= 2 ->
  exists q, uniform (Fin 0) (Fin step) g = (Fin q, snd (next_random g))
            /\ Qabs q < 4.
Proof.
  intros H0 H2.
  destruct (@uniform_bounds _ 0 step g) as [s [Hs [L U]]]; try lra.
  exists s. split; [exact Hs |]. apply Qabs_Qlt_condition. split; lra.
Qed.

Lemma turn_finite step k :
  0 <= step -> step <= 2 -> (0 <= k < 6)%Z ->
  exists t, int_mul_float k (Fin step) = Ok (Fin t) /\ Qabs t < 64.
Proof.
  intros S0 S2 Hk. unfold int_mul_float.
  destruct (@float_of_int_small k Hk) as (kq & -> & Hkq). cbn [bind].
  apply Qabs_Qlt_condition in Hkq.
  assert (P4 : pow2 4 == 16) by reflexivity.
  assert (P5 : pow2 5 == 32) by reflexivity.
  assert (P6 : pow2 6 == 64) by reflexivity.
  unfold fmul.
  destruct (@round_to_float_small 5 (kq * step)) as (turn & -> & _ & Ht).
  { lia. } { apply Qabs_Qlt_condition. split; nra. }
  exists turn. split; [reflexivity |].
  change (5 + 1)%Z with 6%Z in Ht. rewrite P6 in Ht. exact Ht.
Qed.

Lemma angle_finite q t :
  Qabs q < 4 -> Qabs t < 64 -> exists theta, fadd (Fin q) (Fin t) = Fin theta.
Proof.
  intros Hq Ht. apply Qabs_Qlt_condition in Hq, Ht.
  assert (P7 : pow2 7 == 128) by reflexivity.
  unfold fadd.
  destruct (@round_to_float_small 7 (q + t)) as (theta & -> & _ & _).
  { lia. } { apply Qabs_Qlt_condition. split; lra. }
  exists theta. reflexivity.
Qed.

Lemma vertex_ok cx cy r q k :
  Qabs q < 4 -> (0 <= k < 6)%Z -> exists p, vertex cx cy r (Fin q) k = Ok p.
Proof.
  intros Hq Hk. unfold vertex.
  destruct third_of_pi as (step & -> & S0 & S2). cbn [bind].
  destruct (@turn_finite step k S0 S2 Hk) as (t & -> & Ht). cbn [bind].
  destruct (@angle_finite q t Hq Ht) as (theta & ->).
  cbn [math_cos math_sin bind]. eexists. reflexivity.
Qed.

Lemma hexagon_ok cx cy r q :
  Qabs q < 4 ->
  exists pts, map_result (vertex cx cy r (Fin q)) (range 0 6) = Ok pts
              /\ List.length pts = 6%nat.
Proof.
  intros Hq.
  destruct (@map_result_ok _ _ (vertex cx cy r (Fin q)) (range 0 6))
    as [pts Hp].
  - intros k Hk. apply range_In in Hk. apply vertex_ok; [exact Hq | lia].
  - exists pts. split; [exact Hp |]. apply map_result_length in Hp. exact Hp.
Qed.

Lemma edge_ok stroke pts i :
  List.length pts = 6%nat -> (0 <= i < 6)%Z ->
  exists e, edge stroke pts i = Ok e.
Proof.
  intros Hl Hi. unfold edge.
  destruct (@py_index_ok _ pts i) as (p1 & -> & _); [lia |].
  destruct (@py_index_ok _ pts ((i + 1) mod 6)) as (p2 & -> & _).
  { rewrite Hl. apply Z.mod_pos_bound. lia. }
  simpl. eexists. reflexivity.
Qed.

Lemma double_bond_ok pts i :
  List.length pts = 6%nat -> (0 <= i < 6)%Z ->
  exists e, double_bond pts i = Ok e.
Proof.
  intros Hl Hi. unfold double_bond.
  destruct (@py_index_ok _ pts i) as ([x1 y1] & -> & _); [lia |].
  destruct (@py_index_ok _ pts ((i + 1) mod 6)) as ([x2 y2] & -> & _).
  { rewrite Hl. apply Z.mod_pos_bound. lia. }
  cbn [bind]. cbv zeta.
  set (L := py_or (math_hypot (fsub x2 x1) (fsub y2 y1)) (Fin 1)).
  destruct (@fdiv_ok (fneg (fsub y2 y1)) L) as [qx ->];
    [apply py_or_one_not_zero |].
  destruct (@fdiv_ok (fsub x2 x1) L) as [qy ->]; [apply py_or_one_not_zero |].
  simpl. eexists. reflexivity.
Qed.

Lemma substituent_end_ok cx cy size p fs :
  float_of_int size = Ok fs -> exists p3, substituent_end cx cy size p = Ok p3.
Proof.
  intros Hs. unfold substituent_end. destruct p as [x1 y1]. cbv zeta.
  set (L := py_or (math_hypot (fsub x1 cx) (fsub y1 cy)) (Fin 1)).
  destruct (@fdiv_ok (fsub x1 cx) L) as [ux ->]; [apply py_or_one_not_zero |].
  destruct (@fdiv_ok (fsub y1 cy) L) as [uy ->]; [apply py_or_one_not_zero |].
  unfold int_mul_float. rewrite Hs. simpl. eexists. reflexivity.
Qed.

Lemma substituents_spec n cx cy size pts acc g fs :
  List.length pts = 6%nat -> float_of_int size = Ok fs ->
  exists picks,
    List.length picks = n
    /\ Forall (substituent_on cx cy size pts) picks
    /\ substituents n cx cy size pts acc g
       = Ok (acc ++ flat_map substituent_markup picks)%list.
Proof.
  intros Hl Hs. revert acc g.
  induction n as [| n IH]; intros acc g; simpl.
  - exists []. simpl. rewrite app_nil_r. repeat split. constructor.
  - unfold substituent.
    pose proof (@randint_range _ 0 5 g) as Hi.
    destruct (next_randint 0 5 g) as [i g']. simpl in Hi.
    destruct (@py_index_ok _ pts i) as (p & -> & Hin); [lia |].
    destruct (@substituent_end_ok cx cy size p fs Hs) as [p3 Hp3]. cbn [bind].
    rewrite Hp3. cbn [bind].
    destruct (IH (acc ++ [line p p3 "1.5" "#243045" "round"; dot p3])%list g')
      as (picks & Hlen & Hall & ->).
    exists ((p, p3) :: picks). split; [simpl; lia |].
    split; [constructor; [split; assumption | exact Hall] |].
    simpl. rewrite <- app_assoc. reflexivity.
Qed.

Lemma n_sub_range name : (1 <= n_sub hash name <= 3)%Z.
Proof. unfold n_sub. apply randint_range. lia. Qed.

(** As soon as [size / 2] and [float(size)] do not overflow, nothing else
    can raise. *)
Lemma molecule_icon_ok name size stroke cx fs :
  int_truediv size 2 = Ok cx -> float_of_int size = Ok fs ->
  exists ic, molecule_icon hash name size stroke = Ok ic
             /\ icon_shape hash name size stroke ic.
Proof.
  intros Hcx Hfs. unfold molecule_icon. rewrite Hcx. cbn [bind].
  unfold int_mul_float at 1. rewrite Hfs. cbn [bind].
  destruct third_of_pi as (step & -> & S0 & S2). cbn [bind].
  destruct (@rotation_finite step (seeded (hash name mod 10 ^ 7)) S0 S2)
    as (q & -> & Hq).
  set (r := fmul fs (lit (26 # 100))).
  destruct (@hexagon_ok cx cx r q Hq) as (pts & Hpts & Hlen).
  rewrite Hpts. cbn [bind].
  unfold int_mul_float at 1. rewrite Hfs. cbn [bind].
  destruct (@map_result_ok _ _ (edge stroke pts) (range 0 6)) as [es Hes].
  { intros i Hi. apply range_In in Hi. apply edge_ok; [exact Hlen | lia]. }
  rewrite Hes. cbn [bind].
  destruct (@map_result_ok _ _ (double_bond pts) [0; 2; 4]%Z) as [ds Hds].
  { intros i Hi. apply double_bond_ok; [exact Hlen |].
    simpl in Hi. lia. }
  rewrite Hds. cbn [bind].
  destruct (@substituents_spec (Z.to_nat (n_sub hash name)) cx cx size pts []
              (snd (next_random (seeded (hash name mod 10 ^ 7)))) fs Hlen Hfs)
    as (picks & Hn & Hall & ->).
  cbn [bind]. eexists. split; [reflexivity |].
  exists cx, r, (Fin q), pts, picks. cbn [edges dbl subs].
  pose proof (n_sub_range name).
  repeat split; try assumption. lia.
Qed.

End IconFacts.

(** ** Rounding, relative to the value *)

Module RoundFacts.

Open Scope Q_scope.

(** A rounding moves a value by at most [2^-53] of it, or by half the
    least subnormal. *)
Lemma RN_relative x :
  Qabs (RN x - x) <= pow2 (-53) * Qabs x + pow2 (-1075).
Proof.
  pose proof (pow2_pos (-1075)) as Htiny.
  pose proof (pow2_pos (-53)) as H53.
  pose proof (Qabs_nonneg x) as Hx0.
  destruct (Qeq_dec x 0) as [Hx | Hx].
  - assert (E : RN x - x == 0) by (rewrite (RN_zero Hx), Hx; ring).
    rewrite E. change (Qabs 0) with 0. nra.
  - assert (Hpos : 0 < Qabs x).
    { destruct (Qeq_dec (Qabs x) 0) as [E | E]; [| lra].
      exfalso. apply Hx. revert E. apply Qabs_case; intros; lra. }
    pose proof (ilog2_lb Hpos) as Hlb.
    unfold RN. set (e := quantum x).
    pose proof (pow2_pos e) as Hpe.
    pose proof (rne_error (x / pow2 e)) as [H1 H2].
    set (m := inject_Z (rne (x / pow2 e))) in *.
    assert (Hxe : x == (x / pow2 e) * pow2 e) by (field; lra).
    set (t := x / pow2 e) in *.
    assert (Hhalf : Qabs (m * pow2 e - x) <= (1 # 2) * pow2 e).
    { apply Qabs_Qle_condition. split; nra. }
    assert (He : (1 # 2) * pow2 e
                 <= pow2 (-53) * Qabs x + pow2 (-1075)).
    { unfold e, quantum.
      destruct (Z.max_spec (ilog2 (Qabs x) - 52) (-1074)) as [[_ ->] | [_ ->]].
      - change ((1 # 2) * pow2 (-1074)) with (pow2 (-1075)). nra.
      - replace (ilog2 (Qabs x) - 52)%Z with (1 + (-53 + ilog2 (Qabs x)))%Z
          by lia.
        rewrite !pow2_add. change (pow2 1) with 2.
        pose proof (pow2_pos (ilog2 (Qabs x))). nra. }
    lra.
Qed.

(** A rounding that stays clear of the largest double gives a finite
    float. *)
Lemma round_to_float_relative x :
  Qabs x <= pow2 1023 + pow2 1022 ->
  exists y, round_to_float x = Fin y
            /\ Qabs (y - x) <= pow2 (-53) * Qabs x + pow2 (-1075).
Proof.
  intros Hx. pose proof (RN_relative x) as He.
  exists (Qred (RN x)). unfold round_to_float.
  assert (B : pow2 (-53) * (pow2 1023 + pow2 1022) + pow2 (-1075)
              + pow2 1023 + pow2 1022 < pow2 1024).
  { apply Qlt_alt. vm_compute. reflexivity. }
  pose proof (pow2_pos (-53)) as H53.
  assert (Hy : Qabs (RN x) < pow2 1024).
  { apply Qabs_Qle_condition in He.
    pose proof (Qabs_nonneg x).
    revert Hx He. apply Qabs_case; intros; apply Qabs_Qlt_condition;
      split; nra. }
  destruct (Qle_bool (pow2 1024) (Qabs (RN x))) eqn:E.
  - apply Qle_bool_iff in E. lra.
  - split; [reflexivity |]. rewrite Qred_correct. exact He.
Qed.

End RoundFacts.

(** ** Rounding at the top of the range *)

Module OverflowFacts.

Open Scope Q_scope.

Lemma ilog2_ub x : 0 < x -> x < pow2 (ilog2 x + 1).
Proof.
  intros Hx. unfold ilog2.
  set (a := Z.log2 (Qnum x)). set (b := Z.log2 (Zpos (Qden x))).
  destruct (Qle_bool (pow2 (a - b)) x) eqn:E.
  - assert (Hp : (0 < Qnum x)%Z).
    { destruct x as [p d]. unfold Qlt in Hx. simpl in *. lia. }
    assert (Ha : (0 <= a)%Z) by apply Z.log2_nonneg.
    assert (Hb : (0 <= b)%Z) by apply Z.log2_nonneg.
    assert (Hpa : (Qnum x < 2 ^ (a + 1))%Z).
    { replace (a + 1)%Z with (Z.succ a) by lia. apply Z.log2_spec. exact Hp. }
    assert (Hdb : (2 ^ b <= Zpos (Qden x))%Z) by (apply Z.log2_spec; lia).
    assert (Hmul : pow2 (a - b + 1) * pow2 b == pow2 (a + 1)).
    { rewrite <- pow2_add. replace (a - b + 1 + b)%Z with (a + 1)%Z by lia.
      reflexivity. }
    rewrite (@pow2_Z b) in Hmul by lia.
    rewrite (@pow2_Z (a + 1)) in Hmul by lia.
    pose proof (pow2_pos (a - b + 1)) as Hpos.
    set (y := pow2 (a - b + 1)) in *.
    assert (Hx' : x == inject_Z (Qnum x) / inject_Z (Zpos (Qden x))).
    { destruct x as [p d]. simpl. rewrite Qmake_Qdiv. reflexivity. }
    rewrite Hx'.
    apply Qlt_shift_div_r. { reflexivity. }
    apply Qlt_le_trans with (y * inject_Z (2 ^ b)).
    + rewrite Hmul. rewrite <- Zlt_Qlt. exact Hpa.
    + apply Qmult_le_l; [exact Hpos |]. rewrite <- Zle_Qle. exact Hdb.
  - replace (a - b - 1 + 1)%Z with (a - b)%Z by lia.
    apply Qnot_le_lt. intros H. apply Qle_bool_iff in H. congruence.
Qed.

(** A value within a half of an even integer, or beyond it, does not round
    to the other side of it. *)
Lemma rne_above n t :
  Z.even n = true -> inject_Z n - (1 # 2) <= t -> (n <= rne t)%Z.
Proof.
  intros Hn Ht. unfold rne.
  pose proof (Qfloor_le t) as Hlo.
  pose proof (Qlt_floor t) as Hhi.
  rewrite inject_Z_plus in Hhi. change (inject_Z 1) with 1 in Hhi.
  set (f := Qfloor t) in *.
  assert (Hf : (n - 1 <= f)%Z).
  { assert (L : (n - 2 < f)%Z); [| lia].
    rewrite Zlt_Qlt. unfold Z.sub. rewrite inject_Z_plus.
    change (inject_Z (- (2))) with (-2). lra. }
  destruct (Z.eq_dec f (n - 1)) as [Ef | Ef].
  - assert (Hodd : Z.even f = false).
    { rewrite Ef. rewrite Z.even_sub, Hn. reflexivity. }
    assert (If : inject_Z f == inject_Z n - 1).
    { rewrite Ef. unfold Z.sub. rewrite inject_Z_plus. reflexivity. }
    destruct (Qcompare (t - inject_Z f) (1 # 2)) eqn:E.
    + rewrite Hodd. lia.
    + apply Qlt_alt in E. lra.
    + lia.
  - destruct (Qcompare (t - inject_Z f) (1 # 2));
      [destruct (Z.even f) |..]; lia.
Qed.

Lemma rne_below n t :
  Z.even n = true -> t <= inject_Z n + (1 # 2) -> (rne t <= n)%Z.
Proof.
  intros Hn Ht. unfold rne.
  pose proof (Qfloor_le t) as Hlo.
  pose proof (Qlt_floor t) as Hhi.
  rewrite inject_Z_plus in Hhi. change (inject_Z 1) with 1 in Hhi.
  set (f := Qfloor t) in *.
  assert (Hf : (f <= n)%Z).
  { assert (L : (f < n + 1)%Z); [| lia].
    rewrite Zlt_Qlt. rewrite inject_Z_plus. change (inject_Z 1) with 1. lra. }
  destruct (Z.eq_dec f n) as [Ef | Ef].
  - assert (If : inject_Z f == inject_Z n) by (rewrite Ef; reflexivity).
    destruct (Qcompare (t - inject_Z f) (1 # 2)) eqn:E.
    + rewrite Ef, Hn. lia.
    + lia.
    + apply Qgt_alt in E. lra.
  - destruct (Qcompare (t - inject_Z f) (1 # 2));
      [destruct (Z.even f) |..]; lia.
Qed.

(** From the midpoint between the largest double and [2^1024] on, a value
    rounds to [2^1024] at least. *)
Lemma RN_overflow x :
  pow2 1024 - pow2 970 <= Qabs x -> pow2 1024 <= Qabs (RN x).
Proof.
  intros Hx.
  assert (B : pow2 1023 <= pow2 1024 - pow2 970)
    by (apply Qle_bool_iff; vm_compute; reflexivity).
  pose proof (pow2_pos 1023) as P1023.
  assert (Hpos : 0 < Qabs x) by lra.
  pose proof (@ilog2_lb (Qabs x) Hpos) as Hlb.
  pose proof (@ilog2_ub (Qabs x) Hpos) as Hub.
  set (n := ilog2 (Qabs x)) in *.
  assert (Hn : (1023 <= n)%Z).
  { assert (L : (1023 < n + 1)%Z); [| lia]. apply pow2_lt_inv. lra. }
  unfold RN, quantum. fold n.
  rewrite Z.max_l by lia.
  set (e := (n - 52)%Z).
  pose proof (pow2_pos e) as Pe.
  (* the least multiple of the quantum the value can round to *)
  assert (M : exists m : Z,
             Z.even m = true
             /\ (inject_Z m - (1 # 2)) * pow2 e <= Qabs x
             /\ pow2 1024 <= inject_Z m * pow2 e).
  { destruct (Z.eq_dec n 1023) as [En | En].
    - exists (2 ^ 53)%Z. split; [reflexivity |].
      unfold e. rewrite En. change (1023 - 52)%Z with 971%Z.
      rewrite <- (@pow2_Z 53) by lia.
      assert (E1 : (pow2 53 - (1 # 2)) * pow2 971 == pow2 1024 - pow2 970)
        by reflexivity.
      assert (E2 : pow2 53 * pow2 971 == pow2 1024) by reflexivity.
      rewrite E1, E2. split; lra.
    - exists (2 ^ 52)%Z. split; [reflexivity |].
      rewrite <- (@pow2_Z 52) by lia.
      assert (E2 : pow2 52 * pow2 e == pow2 n).
      { rewrite <- pow2_add. unfold e.
        replace (52 + (n - 52))%Z with n by lia. reflexivity. }
      assert (L : pow2 1024 <= pow2 n) by (apply pow2_le; lia).
      split; [nra | lra]. }
  destruct M as (m & Hm & Hlo & Hhi).
  set (t := x / pow2 e).
  assert (Hxe : x == t * pow2 e) by (unfold t; field; lra).
  destruct (Qlt_le_dec x 0) as [Neg | Pos].
  - assert (Ax : Qabs x == - x) by (apply Qabs_neg; lra).
    assert (Ht : t <= inject_Z (- m) + (1 # 2)).
    { rewrite inject_Z_opp.
      destruct (Qlt_le_dec (- inject_Z m + (1 # 2)) t) as [C | C];
        [exfalso; nra | exact C]. }
    assert (Em : Z.even (- m) = true) by (rewrite Z.even_opp; exact Hm).
    pose proof (@rne_below (- m) t Em Ht) as R.
    rewrite Zle_Qle, inject_Z_opp in R.
    set (y := inject_Z (rne t) * pow2 e).
    assert (Y : y <= - pow2 1024) by (unfold y; nra).
    pose proof (pow2_pos 1024).
    assert (A : Qabs y == - y) by (apply Qabs_neg; lra).
    rewrite A. lra.
  - assert (Ax : Qabs x == x) by (apply Qabs_pos; exact Pos).
    assert (Ht : inject_Z m - (1 # 2) <= t).
    { destruct (Qlt_le_dec t (inject_Z m - (1 # 2))) as [C | C];
        [exfalso; nra | exact C]. }
    pose proof (@rne_above m t Hm Ht) as R.
    rewrite Zle_Qle in R.
    assert (M0 : 0 <= inject_Z m).
    { destruct (Qlt_le_dec (inject_Z m) 0) as [C | C]; [| exact C].
      exfalso. pose proof (pow2_pos 1024). nra. }
    set (y := inject_Z (rne t) * pow2 e).
    assert (Y : pow2 1024 <= y) by (unfold y; nra).
    pose proof (pow2_pos 1024).
    assert (A : Qabs y == y) by (apply Qabs_pos; lra).
    rewrite A. exact Y.
Qed.

Lemma round_to_float_overflow x :
  pow2 1024 - pow2 970 <= Qabs x ->
  round_to_float x = Inf (negb (Qle_bool 0 x)).
Proof.
  intros Hx. unfold round_to_float.
  destruct (Qle_bool (pow2 1024) (Qabs (RN x))) eqn:E; [reflexivity |].
  pose proof (@RN_overflow x Hx) as H. apply Qle_bool_iff in H. congruence.
Qed.

(** [float(z)] raises from [2^1024 - 2^970] on. *)
Lemma float_of_int_overflow z :
  (2 ^ 1024 - 2 ^ 970 <= Z.abs z)%Z -> float_of_int z = Raise OverflowError.
Proof.
  intros Hz. unfold float_of_int. rewrite round_to_float_overflow;
    [reflexivity |].
  rewrite Qabs_inject_Z, (@pow2_Z 1024), (@pow2_Z 970) by lia.
  unfold Qminus. rewrite <- inject_Z_opp, <- inject_Z_plus, <- Zle_Qle. lia.
Qed.

End OverflowFacts.

(** ** The length of a substituent *)

(** Squares and absolute values, and the length of a vector that is a
    nearly unit direction times a nearly known length. *)
Module LengthFacts.

Open Scope Q_scope.

Lemma mul_bound x y X Y :
  Qabs x <= X -> Qabs y <= Y -> Qabs (x * y) <= X * Y.
Proof.
  intros Hx Hy. rewrite Qabs_Qmult.
  pose proof (Qabs_nonneg x). pose proof (Qabs_nonneg y). nra.
Qed.

Lemma abs_le x X : - X <= x -> x <= X -> Qabs x <= X.
Proof. intros. apply Qabs_Qle_condition. split; assumption. Qed.

Lemma abs_inv x X : Qabs x <= X -> - X <= x /\ x <= X.
Proof. intros H. apply Qabs_Qle_condition in H. exact H. Qed.

(** The direction divided by an accurate length is a unit vector, nearly. *)
Lemma unit_direction vx vy h d :
  0 <= d -> d <= 1 # 1000 -> 0 < h ->
  sq (1 - d) * (sq vx + sq vy) <= sq h ->
  sq h <= sq (1 + d) * (sq vx + sq vy) ->
  1 - 2 * d <= sq (vx / h) + sq (vy / h)
  /\ sq (vx / h) + sq (vy / h) <= 1 + 3 * d.
Proof.
  intros D0 D1 Hh Hlo Hhi. unfold sq in *.
  set (a := vx / h). set (b := vy / h).
  assert (Ea : vx == a * h) by (unfold a; field; lra).
  assert (Eb : vy == b * h) by (unfold b; field; lra).
  assert (HH : 0 < h * h) by nra.
  set (H2 := h * h) in *. set (rho := a * a + b * b).
  assert (EN : vx * vx + vy * vy == rho * H2).
  { rewrite Ea, Eb. unfold rho, H2. ring. }
  rewrite EN in Hlo, Hhi.
  assert (L1 : (1 - d) * (1 - d) * rho <= 1).
  { assert (K : ((1 - d) * (1 - d) * rho - 1) * H2 <= 0) by lra.
    destruct (Qlt_le_dec 1 ((1 - d) * (1 - d) * rho)) as [C | C]; [| exact C].
    exfalso. nra. }
  assert (L2 : 1 <= (1 + d) * (1 + d) * rho).
  { assert (K : 0 <= ((1 + d) * (1 + d) * rho - 1) * H2) by lra.
    destruct (Qlt_le_dec ((1 + d) * (1 + d) * rho) 1) as [C | C]; [| exact C].
    exfalso. nra. }
  assert (R0 : 0 <= rho) by (unfold rho; nra).
  split.
  - destruct (Qlt_le_dec rho (1 - 2 * d)) as [C | C]; [| exact C].
    exfalso.
    assert ((1 + d) * (1 + d) * rho <= (1 + d) * (1 + d) * (1 - 2 * d)) by nra.
    nra.
  - destruct (Qlt_le_dec (1 + 3 * d) rho) as [C | C]; [| exact C].
    exfalso.
    assert ((1 - d) * (1 - d) * (1 + 3 * d) <= (1 - d) * (1 - d) * rho) by nra.
    nra.
Qed.

(** A coordinate of a nearly unit vector is at most 1.01. *)
Lemma unit_coordinate a b d :
  0 <= d -> d <= 1 # 1000 -> sq a + sq b <= 1 + 3 * d ->
  Qabs a <= 101 # 100 /\ Qabs b <= 101 # 100.
Proof.
  intros D0 D1 H. unfold sq in H.
  split; apply abs_le.
  - destruct (Qlt_le_dec a (- (101 # 100))) as [C | C]; [exfalso; nra | lra].
  - destruct (Qlt_le_dec (101 # 100) a) as [C | C]; [exfalso; nra | lra].
  - destruct (Qlt_le_dec b (- (101 # 100))) as [C | C]; [exfalso; nra | lra].
  - destruct (Qlt_le_dec (101 # 100) b) as [C | C]; [exfalso; nra | lra].
Qed.

Lemma sq_mono u v : 0 <= u -> u <= v -> u * u <= v * v.
Proof. intros. nra. Qed.

(** The vector [(a * L + Ex, b * L + Ey)]: a nearly unit direction [(a, b)]
    times [L], each coordinate off by at most [2^-49 * L], with [L] within
    [2^-50] of [T].  Its squared length is [T^2] within the relative error
    [4 * d + 2^-43]. *)
Lemma nearly_length a b L T Ex Ey d :
  0 <= d -> d <= 1 # 1000 -> 0 < T ->
  1 - 2 * d <= sq a + sq b -> sq a + sq b <= 1 + 3 * d ->
  Qabs (L - T) <= pow2 (-50) * T ->
  Qabs Ex <= pow2 (-49) * L -> Qabs Ey <= pow2 (-49) * L ->
  (1 - 4 * d - pow2 (-43)) * sq T <= sq (a * L + Ex) + sq (b * L + Ey)
  /\ sq (a * L + Ex) + sq (b * L + Ey) <= (1 + 4 * d + pow2 (-43)) * sq T.
Proof.
  intros D0 D1 HT Rlo Rhi HL HEx HEy. unfold sq in *.
  assert (K50 : 0 < pow2 (-50) /\ pow2 (-50) <= 1 # 1000000000000000).
  { split; [apply pow2_pos | apply Qle_bool_iff; vm_compute; reflexivity]. }
  assert (K49 : pow2 (-49) == 2 * pow2 (-50)) by reflexivity.
  assert (K43 : pow2 (-43) == 128 * pow2 (-50)) by reflexivity.
  set (k := pow2 (-50)) in *. rewrite K49 in HEx, HEy. rewrite K43.
  clear K49 K43. destruct K50 as [Kp Ks].
  apply abs_inv in HL. destruct HL as [HL1 HL2].
  assert (L0 : 0 < L) by nra.
  (* the scaled quantities *)
  set (rho := a * a + b * b) in *.
  destruct (@unit_coordinate a b d D0 D1 Rhi) as [Ha Hb].
  pose proof (@mul_bound _ _ _ _ Ha HEx) as P1.
  pose proof (@mul_bound _ _ _ _ Hb HEy) as P2.
  pose proof (@mul_bound _ _ _ _ HEx HEx) as P3.
  pose proof (@mul_bound _ _ _ _ HEy HEy) as P4.
  apply abs_inv in P1, P2, P3, P4.
  assert (E : (a * L + Ex) * (a * L + Ex) + (b * L + Ey) * (b * L + Ey)
              == rho * (L * L) + 2 * L * (a * Ex) + 2 * L * (b * Ey)
                 + Ex * Ex + Ey * Ey) by (unfold rho; ring).
  rewrite E. clear E.
  set (p1 := a * Ex) in *. set (p2 := b * Ey) in *.
  set (p3 := Ex * Ex) in *. set (p4 := Ey * Ey) in *.
  assert (Q1 : Qabs (L * p1) <= L * ((101 # 100) * (2 * k * L))).
  { apply mul_bound; [apply abs_le; lra | apply abs_le; lra]. }
  assert (Q2 : Qabs (L * p2) <= L * ((101 # 100) * (2 * k * L))).
  { apply mul_bound; [apply abs_le; lra | apply abs_le; lra]. }
  apply abs_inv in Q1, Q2.
  set (q1 := L * p1) in *. set (q2 := L * p2) in *.
  assert (LL : 0 < L * L) by (clear - L0; nra).
  assert (TT : 0 < T * T) by (clear - HT; nra).
  assert (LT1 : L * L <= (1 + 3 * k) * (T * T)).
  { assert (A : L * L <= ((1 + k) * T) * ((1 + k) * T))
      by (apply sq_mono; lra).
    assert (B : ((1 + k) * T) * ((1 + k) * T)
                == (1 + 2 * k + k * k) * (T * T)) by ring.
    assert (C : k * k <= k) by (clear - Kp Ks; nra).
    assert (D : k * k * (T * T) <= k * (T * T)) by (clear - C TT; nra).
    rewrite B in A. clear - A D. lra. }
  assert (LT2 : (1 - 3 * k) * (T * T) <= L * L).
  { assert (U : 0 <= (1 - k) * T) by (clear - HT Kp Ks; nra).
    assert (A : ((1 - k) * T) * ((1 - k) * T) <= L * L)
      by (apply sq_mono; [exact U | lra]).
    assert (B : ((1 - k) * T) * ((1 - k) * T)
                == (1 - 2 * k + k * k) * (T * T)) by ring.
    assert (C : 0 <= k * k * (T * T)) by (clear - Kp TT; nra).
    assert (D : 0 <= k * (T * T)) by (clear - Kp TT; nra).
    rewrite B in A. clear - A C D. lra. }
  set (X := L * L) in *. set (Y := T * T) in *.
  assert (G1 : 2 * L * p1 == 2 * q1) by (unfold q1; ring).
  assert (G2 : 2 * L * p2 == 2 * q2) by (unfold q2; ring).
  rewrite G1, G2.
  assert (B1 : L * ((101 # 100) * (2 * k * L)) == (202 # 100) * k * X)
    by (unfold X; ring).
  rewrite B1 in Q1, Q2.
  assert (B3 : 2 * k * L * (2 * k * L) == 4 * k * k * X) by (unfold X; ring).
  rewrite B3 in P3, P4.
  assert (kk : k * k <= k) by (clear - Kp Ks; nra).
  assert (kX : 0 <= k * X) by (clear - Kp LL; nra).
  assert (kkX : k * k * X <= k * X) by (clear - kk LL; nra).
  assert (rX1 : rho * X <= (1 + 3 * d) * X) by (clear - Rhi LL; nra).
  assert (rX2 : (1 - 2 * d) * X <= rho * X) by (clear - Rlo LL; nra).
  assert (dX1 : d * X <= d * ((1 + 3 * k) * Y)) by (clear - D0 LT1; nra).
  assert (dX0 : 0 <= d * X) by (clear - D0 LL; nra).
  assert (dY : 0 <= d * Y) by (clear - D0 TT; nra).
  assert (kY : 0 <= k * Y) by (clear - Kp TT; nra).
  assert (dkY : d * (k * Y) <= k * Y) by (clear - D0 D1 kY; nra).
  assert (kX1 : k * X <= k * ((1 + 3 * k) * Y)) by (clear - Kp LT1; nra).
  assert (kkY : k * (k * Y) <= k * Y) by (clear - Kp Ks kY; nra).
  clear - Q1 Q2 P3 P4 kkX kX rX1 rX2 dX1 dX0 dY kY dkY kX1 kkY LT1 LT2.
  clearbody rho k p3 p4 X q1 q2 Y.
  split; lra.
Qed.

End LengthFacts.

(** What the roundings of [size*0.24] and of an end point add up to, in
    units of [u * S]: [u] the relative error of a rounding, [t] half the
    least subnormal and [S] the size. *)
Module BudgetFacts.

Import LengthFacts RoundFacts.

Open Scope Q_scope.

Lemma prod_le x y X Y :
  0 <= x -> x <= X -> 0 <= y -> y <= Y -> x * y <= X * Y.
Proof. intros. nra. Qed.

(** The two constants of a rounding: the relative error and half the least
    subnormal. *)
Lemma rounding_constants :
  0 < pow2 (-53) /\ pow2 (-53) <= 1 # 1000000
  /\ 0 <= pow2 (-1075) /\ pow2 (-1075) <= pow2 (-53) * (1 # 500).
Proof.
  split; [apply pow2_pos |].
  split; [apply Qle_bool_iff; vm_compute; reflexivity |].
  split; [apply Qlt_le_weak, pow2_pos |].
  apply Qle_bool_iff. vm_compute. reflexivity.
Qed.

(** A rounding of a value of magnitude at most [B]. *)
Lemma round_step x B :
  Qabs x <= B -> B <= pow2 1023 + pow2 1022 ->
  exists y, round_to_float x = Fin y
            /\ Qabs (y - x) <= pow2 (-53) * B + pow2 (-1075).
Proof.
  intros Hx HB.
  destruct (@round_to_float_relative x) as (y & E & He); [lra |].
  exists y. split; [exact E |].
  pose proof (pow2_pos (-53)).
  assert (pow2 (-53) * Qabs x <= pow2 (-53) * B) by nra.
  lra.
Qed.

Section Budget.

Variables u t S : Q.

Hypothesis Hu : 0 < u.
Hypothesis Hu' : u <= 1 # 1000000.
Hypothesis Ht : 0 <= t.
Hypothesis Ht' : t <= u * (1 # 500).
Hypothesis HS : 1 <= S.

(** The product of the two rounded factors [f] and [l] of [0.24 * S]. *)
Lemma product_error f l :
  Qabs (f - S) <= u * S + t ->
  Qabs (l - (24 # 100)) <= u * (24 # 100) + t ->
  Qabs (f * l - (24 # 100) * S) <= (1 # 2) * (u * S).
Proof.
  intros Hf Hl.
  assert (HV : u <= u * S) by nra.
  assert (St : S * t <= (1 # 500) * (u * S)) by nra.
  set (V := u * S) in *.
  set (e1 := f - S) in *. set (e2 := l - (24 # 100)) in *.
  assert (E : f * l - (24 # 100) * S == (24 # 100) * e1 + S * e2 + e1 * e2)
    by (unfold e1, e2; ring).
  rewrite E.
  assert (B2 : Qabs (S * e2) <= S * (u * (24 # 100) + t))
    by (apply mul_bound; [apply abs_le; lra | exact Hl]).
  assert (B3 : Qabs (e1 * e2) <= (V + t) * (u * (24 # 100) + t))
    by (apply mul_bound; assumption).
  assert (B3' : (V + t) * (u * (24 # 100) + t)
                <= ((1002 # 1000) * V) * (1 # 1000000))
    by (apply prod_le; lra).
  assert (B2' : S * (u * (24 # 100) + t) == (24 # 100) * V + S * t)
    by (unfold V; ring).
  rewrite B2' in B2.
  apply abs_inv in Hf, B2, B3. apply abs_le; lra.
Qed.

(** The rounded product [L] is [0.24 * S] within [2^-50] of it, when [u] is
    [2^-53]. *)
Lemma length_error fl L :
  Qabs (fl - (24 # 100) * S) <= (1 # 2) * (u * S) ->
  Qabs (L - fl) <= u * ((1 # 4) * S) + t ->
  Qabs fl <= (1 # 4) * S
  /\ Qabs (L - (24 # 100) * S) <= 8 * u * ((24 # 100) * S)
  /\ (23 # 100) * S <= L /\ L <= (1 # 4) * S.
Proof.
  intros Hfl HL.
  assert (HV : u <= u * S) by nra.
  assert (HV' : u * S <= (1 # 1000000) * S) by nra.
  set (V := u * S) in *.
  assert (E1 : u * ((1 # 4) * S) == (1 # 4) * V) by (unfold V; ring).
  assert (E2 : 8 * u * ((24 # 100) * S) == (192 # 100) * V)
    by (unfold V; ring).
  rewrite E1 in HL. rewrite E2.
  apply abs_inv in Hfl, HL.
  split; [apply abs_le; lra |].
  split; [apply abs_le; lra |].
  split; lra.
Qed.

Variable L : Q.

Hypothesis HL1 : (23 # 100) * S <= L.
Hypothesis HL2 : L <= (1 # 4) * S.

(** The three roundings of a coordinate of the end point:
    [x3 = x1 + (a/h) * L], with what each step may round. *)
Lemma direction_bound a ux :
  Qabs a <= 101 # 100 ->
  Qabs (ux - a) <= u * (101 # 100) + t ->
  Qabs (ux * L) <= (102 # 100) * ((1 # 4) * S).
Proof.
  intros Ha Hux. apply mul_bound.
  - apply abs_inv in Ha, Hux. apply abs_le; lra.
  - apply abs_le; lra.
Qed.

Lemma offset_bound x1 uxL m :
  Qabs x1 <= S ->
  Qabs uxL <= (102 # 100) * ((1 # 4) * S) ->
  Qabs (m - uxL) <= u * ((102 # 100) * ((1 # 4) * S)) + t ->
  Qabs (x1 + m) <= (126 # 100) * S.
Proof.
  intros Hx Hp Hm.
  assert (HV : u <= u * S) by nra.
  assert (HV' : u * S <= (1 # 1000000) * S) by nra.
  set (V := u * S) in *.
  assert (E : u * ((102 # 100) * ((1 # 4) * S)) == (255 # 1000) * V)
    by (unfold V; ring).
  rewrite E in Hm.
  apply abs_inv in Hx, Hp, Hm. apply abs_le; lra.
Qed.

Lemma coordinate_error a x1 ux m x3 :
  Qabs a <= 101 # 100 ->
  Qabs (ux - a) <= u * (101 # 100) + t ->
  Qabs (m - ux * L) <= u * ((102 # 100) * ((1 # 4) * S)) + t ->
  Qabs (x3 - (x1 + m)) <= u * ((126 # 100) * S) + t ->
  Qabs (x3 - x1 - a * L) <= 16 * u * L.
Proof.
  intros Ha Hux Hm Hx3.
  assert (HV : u <= u * S) by nra.
  assert (UL : (23 # 100) * (u * S) <= u * L) by nra.
  assert (L0 : 0 <= L) by lra.
  assert (B1 : Qabs ((ux - a) * L) <= (u * (101 # 100) + t) * ((1 # 4) * S))
    by (apply mul_bound; [exact Hux | apply abs_le; lra]).
  assert (B1' : (u * (101 # 100) + t) * ((1 # 4) * S)
                <= (u * (1012 # 1000)) * ((1 # 4) * S))
    by (apply prod_le; lra).
  assert (E1 : (u * (1012 # 1000)) * ((1 # 4) * S) == (253 # 1000) * (u * S))
    by ring.
  rewrite E1 in B1'.
  assert (E2 : u * ((102 # 100) * ((1 # 4) * S)) == (255 # 1000) * (u * S))
    by ring.
  assert (E3 : u * ((126 # 100) * S) == (126 # 100) * (u * S)) by ring.
  rewrite E2 in Hm. rewrite E3 in Hx3.
  assert (E4 : 16 * u * L == 16 * (u * L)) by ring.
  rewrite E4.
  assert (E : x3 - x1 - a * L
              == (ux - a) * L + (m - ux * L) + (x3 - (x1 + m))) by ring.
  rewrite E.
  set (V := u * S) in *. set (W := u * L) in *.
  set (e1 := (ux - a) * L) in *. set (e2 := m - ux * L) in *.
  set (e3 := x3 - (x1 + m)) in *.
  apply abs_inv in B1, Hm, Hx3. apply abs_le; lra.
Qed.

End Budget.

End BudgetFacts.

(** The end point of a substituent in floats. *)
Module TipFacts.

Import LengthFacts RoundFacts BudgetFacts.

Open Scope Q_scope.

Section Tip.

Context {libm : Libm}.

Lemma not_zero h : 0 < h -> is_zero (Fin h) = false.
Proof.
  intros Hh. unfold is_zero.
  destruct (Qeq_bool h 0) eqn:E; [| reflexivity].
  apply Qeq_bool_iff in E. lra.
Qed.

(** [size * 0.24] in floats, for a size up to [2^1023]. *)
Lemma scaled_size size fs :
  (0 < size <= 2 ^ 1023)%Z -> float_of_int size = Ok fs ->
  exists L,
    fmul fs (lit (24 # 100)) = Fin L
    /\ Qabs (L - (24 # 100) * inject_Z size)
       <= pow2 (-50) * ((24 # 100) * inject_Z size)
    /\ (23 # 100) * inject_Z size <= L /\ L <= (1 # 4) * inject_Z size.
Proof.
  intros Hs Hfs.
  destruct rounding_constants as (Hu & Hu' & Ht & Ht').
  set (S := inject_Z size).
  assert (S1 : 1 <= S).
  { unfold S. change 1 with (inject_Z 1). rewrite <- Zle_Qle. lia. }
  assert (S2 : S <= pow2 1023).
  { unfold S. rewrite (@pow2_Z 1023) by lia. rewrite <- Zle_Qle. lia. }
  assert (P : 0 < pow2 1022) by apply pow2_pos.
  assert (P' : pow2 1023 == 2 * pow2 1022).
  { change 1023%Z with (1 + 1022)%Z. rewrite pow2_add. reflexivity. }
  destruct (@round_step S S) as (f & Ef & Hf); [apply abs_le; lra | lra |].
  destruct (@round_step (24 # 100) (24 # 100)) as (l & El & Hl);
    [apply abs_le; lra | lra |].
  unfold float_of_int in Hfs. fold S in Hfs. rewrite Ef in Hfs.
  injection Hfs as <-.
  unfold lit. rewrite El. unfold fmul.
  assert (Hp : Qabs (f * l - (24 # 100) * S) <= (1 # 2) * (pow2 (-53) * S))
    by exact (@product_error _ _ S Hu Hu' Ht Ht' S1 f l Hf Hl).
  assert (Hfl : Qabs (f * l) <= (1 # 4) * S).
  { assert (u1 : pow2 (-53) * S <= (1 # 1000000) * S) by nra.
    apply abs_inv in Hp. apply abs_le; lra. }
  destruct (@round_step (f * l) ((1 # 4) * S)) as (L & EL & HL);
    [exact Hfl | lra |].
  rewrite EL. exists L. split; [reflexivity |].
  assert (HE : Qabs (f * l) <= (1 # 4) * S
               /\ Qabs (L - (24 # 100) * S)
                  <= 8 * pow2 (-53) * ((24 # 100) * S)
               /\ (23 # 100) * S <= L /\ L <= (1 # 4) * S)
    by exact (@length_error _ _ S Hu Hu' Ht Ht' S1 (f * l) L Hp HL).
  destruct HE as (_ & H1 & H2 & H3).
  assert (K : pow2 (-50) == 8 * pow2 (-53)) by reflexivity.
  rewrite K. split; [exact H1 |]. split; assumption.
Qed.

(** One coordinate of the end point. *)
Lemma coordinate size L a h x1 :
  (0 < size <= 2 ^ 1023)%Z ->
  (23 # 100) * inject_Z size <= L -> L <= (1 # 4) * inject_Z size ->
  Qabs (a / h) <= 101 # 100 -> Qabs x1 <= inject_Z size ->
  exists ux x3,
    round_to_float (a / h) = Fin ux
    /\ fadd (Fin x1) (fmul (Fin ux) (Fin L)) = Fin x3
    /\ Qabs (x3 - x1 - (a / h) * L) <= pow2 (-49) * L.
Proof.
  intros Hs HL1 HL2 Ha Hx.
  destruct rounding_constants as (Hu & Hu' & Ht & Ht').
  set (S := inject_Z size) in *.
  assert (S1 : 1 <= S).
  { unfold S. change 1 with (inject_Z 1). rewrite <- Zle_Qle. lia. }
  assert (S2 : S <= pow2 1023).
  { unfold S. rewrite (@pow2_Z 1023) by lia. rewrite <- Zle_Qle. lia. }
  assert (P : 0 < pow2 1022) by apply pow2_pos.
  assert (P' : pow2 1023 == 2 * pow2 1022).
  { change 1023%Z with (1 + 1022)%Z. rewrite pow2_add. reflexivity. }
  destruct (@round_step (a / h) (101 # 100)) as (ux & Eu & Hux);
    [exact Ha | lra |].
  assert (Hp : Qabs (ux * L) <= (102 # 100) * ((1 # 4) * S))
    by exact (@direction_bound _ _ S Hu Hu' Ht' S1 L HL1 HL2 _ _ Ha Hux).
  destruct (@round_step (ux * L) ((102 # 100) * ((1 # 4) * S)))
    as (m & Em & Hm); [exact Hp | lra |].
  assert (Hxm : Qabs (x1 + m) <= (126 # 100) * S)
    by exact (@offset_bound _ _ S Hu Hu' Ht Ht' S1 L HL1 HL2 _ _ _ Hx Hp Hm).
  destruct (@round_step (x1 + m) ((126 # 100) * S)) as (x3 & E3 & H3);
    [exact Hxm | lra |].
  exists ux, x3. split; [exact Eu |].
  split; [unfold fmul; rewrite Em; unfold fadd; exact E3 |].
  assert (K : pow2 (-49) == 16 * pow2 (-53)) by reflexivity.
  rewrite K.
  exact (@coordinate_error _ _ S Hu Hu' Ht Ht' S1 L HL1 HL2 _ _ _ _ _
           Ha Hux Hm H3).
Qed.

(** The line of a substituent is [0.24 * size] long, as far as [hypot]
    is. *)
Lemma tip_length cx cy size p p3 d :
  (0 < size <= 2 ^ 1023)%Z -> 0 <= d -> d <= 1 # 1000 ->
  within_drawing size p ->
  hypot_accurate d (fsub (fst p) cx) (fsub (snd p) cy) ->
  tip_of cx cy size p p3 ->
  length_near d ((24 # 100) * inject_Z size) p p3.
Proof.
  intros Hs D0 D1 (x1 & y1 & -> & Hx & Hy) (a & b & h & Ea & Eb & Eh & Hh
    & Hlo & Hhi) (fs & ux & uy & Hfs & Hux & Huy & ->).
  cbn [fst snd] in *. rewrite Ea, Eb in *. rewrite Eh in Hux, Huy.
  unfold py_or in Hux, Huy. rewrite (not_zero Hh) in Hux, Huy.
  unfold fdiv in Hux, Huy. rewrite (not_zero Hh) in Hux, Huy.
  injection Hux as <-. injection Huy as <-.
  destruct (@scaled_size size fs Hs Hfs) as (L & -> & HLT & HL1 & HL2).
  destruct (@unit_direction a b h d D0 D1 Hh Hlo Hhi) as [U1 U2].
  destruct (@unit_coordinate _ _ _ D0 D1 U2) as [Ba Bb].
  destruct (@coordinate size L a h x1 Hs HL1 HL2 Ba Hx)
    as (ux & x3 & -> & -> & Ex).
  destruct (@coordinate size L b h y1 Hs HL1 HL2 Bb Hy)
    as (uy & y3 & -> & -> & Ey).
  exists x1, y1, x3, y3. split; [reflexivity |]. split; [reflexivity |].
  assert (T0 : 0 < (24 # 100) * inject_Z size).
  { assert (1 <= inject_Z size)
      by (change 1 with (inject_Z 1); rewrite <- Zle_Qle; lia).
    lra. }
  pose proof (@nearly_length _ _ _ _ _ _ d D0 D1 T0 U1 U2 HLT Ex Ey) as N.
  assert (X : a / h * L + (x3 - x1 - a / h * L) == x3 - x1) by ring.
  assert (Y : b / h * L + (y3 - y1 - b / h * L) == y3 - y1) by ring.
  unfold sq in *. rewrite X, Y in N. exact N.
Qed.

End Tip.

End TipFacts.

(** ** The drawing, read off the loops *)

Lemma append_assoc (a b c : string) : ((a ++ b) ++ c = a ++ (b ++ c))%string.
Proof.
  induction a as [| x a IH]; simpl; [reflexivity | rewrite IH; reflexivity].
Qed.

Section IconDrawingFacts.

Context {random : PyRandom} {libm : Libm}.

Variable hash : string -> Z.

Open Scope Z_scope.

Lemma map_result_Forall2 (A B : Type) (f : A -> result B) l bs :
  map_result f l = Ok bs -> Forall2 (fun a b => f a = Ok b) l bs.
Proof.
  revert bs. induction l as [| a l IH]; simpl; intros bs H.
  - injection H as <-. constructor.
  - destruct (f a) as [b |] eqn:E; simpl in H; [| discriminate].
    destruct (map_result f l) as [bs' |]; simpl in H; [| discriminate].
    injection H as <-. constructor; [exact E | apply IH; reflexivity].
Qed.

Lemma Forall2_weaken (A B : Type) (P Q : A -> B -> Prop) l bs :
  (forall a b, In a l -> P a b -> Q a b) -> Forall2 P l bs -> Forall2 Q l bs.
Proof.
  intros H F. induction F as [| a b l bs Hab F IH]; constructor.
  - apply H; [left; reflexivity | exact Hab].
  - apply IH. intros a' b' Hin. apply H. right. exact Hin.
Qed.

Lemma Forall2_map_eq (A B : Type) (g : A -> B) l bs :
  Forall2 (fun a b => b = g a) l bs -> bs = map g l.
Proof.
  intros F. induction F as [| a b l bs E F IH]; simpl;
    [reflexivity | rewrite E, IH; reflexivity].
Qed.

Lemma py_index_nth (A : Type) (l : list A) i a d :
  (0 <= i)%Z -> py_index l i = Ok a -> a = nth (Z.to_nat i) l d.
Proof.
  intros Hi. unfold py_index.
  destruct (Z.ltb_spec i 0) as [? | _]; [lia |].
  destruct (Z.ltb_spec i 0) as [? | _]; [lia |].
  destruct (nth_error l (Z.to_nat i)) as [b |] eqn:E; [| discriminate].
  intros H. injection H as <-. symmetry. apply nth_error_nth. exact E.
Qed.

Lemma float_of_small_int k :
  (0 <= k < 6)%Z -> float_of_int k = Ok (Fin (inject_Z k)).
Proof.
  intros Hk.
  assert (C : (k = 0 \/ k = 1 \/ k = 2 \/ k = 3 \/ k = 4 \/ k = 5)%Z) by lia.
  destruct C as [-> | [-> | [-> | [-> | [-> | ->]]]]];
    vm_compute; reflexivity.
Qed.

Lemma third_of_pi_float : float_div_int math_pi 3 = fdiv math_pi (Fin 3).
Proof.
  unfold float_div_int. rewrite (@float_of_small_int 3) by lia. reflexivity.
Qed.

Lemma line_segment p1 p2 w col : line p1 p2 w col "round" = segment p1 p2 w col.
Proof.
  unfold line, segment, Fmt.attr. rewrite !append_assoc. reflexivity.
Qed.

Lemma dot_filled p : dot p = filled_dot p.
Proof.
  unfold dot, filled_dot, Fmt.attr. rewrite !append_assoc. reflexivity.
Qed.

Lemma vertex_on_hexagon cx cy r rot k p :
  (0 <= k < 6)%Z -> vertex cx cy r rot k = Ok p -> on_hexagon cx cy r rot k p.
Proof.
  intros Hk. unfold vertex. rewrite third_of_pi_float.
  destruct (fdiv math_pi (Fin 3)) as [step |] eqn:Es; cbn [bind];
    [| discriminate].
  unfold int_mul_float. rewrite (float_of_small_int Hk). cbn [bind].
  destruct (math_cos (fadd rot (fmul (Fin (inject_Z k)) step))) as [c |] eqn:Ec;
    cbn [bind]; [| discriminate].
  destruct (math_sin (fadd rot (fmul (Fin (inject_Z k)) step))) as [s |] eqn:En;
    cbn [bind]; [| discriminate].
  intros H. injection H as <-.
  exists step, c, s. repeat split; assumption.
Qed.

Lemma edge_segment stroke pts i e :
  (0 <= i)%Z -> edge stroke pts i = Ok e ->
  e = segment (vertex_at pts i) (vertex_at pts ((i + 1) mod 6)) "1.8" stroke.
Proof.
  intros Hi. unfold edge.
  destruct (py_index pts i) as [p1 |] eqn:E1; cbn [bind]; [| discriminate].
  destruct (py_index pts ((i + 1) mod 6)) as [p2 |] eqn:E2; cbn [bind];
    [| discriminate].
  intros H. injection H as <-. rewrite line_segment. unfold vertex_at.
  rewrite <- (@py_index_nth _ pts i p1 (NaN, NaN) Hi E1).
  rewrite <- (@py_index_nth _ pts ((i + 1) mod 6) p2 (NaN, NaN));
    [reflexivity | | exact E2].
  apply Z.mod_pos_bound. lia.
Qed.

Lemma double_bond_offset pts i s :
  (0 <= i)%Z -> double_bond pts i = Ok s -> offset_line pts i s.
Proof.
  intros Hi. unfold double_bond, offset_line.
  destruct (py_index pts i) as [p1 |] eqn:E1; cbn [bind]; [| discriminate].
  destruct (py_index pts ((i + 1) mod 6)) as [p2 |] eqn:E2; cbn [bind];
    [| discriminate].
  unfold vertex_at.
  rewrite <- (@py_index_nth _ pts i p1 (NaN, NaN) Hi E1).
  rewrite <- (@py_index_nth _ pts ((i + 1) mod 6) p2 (NaN, NaN));
    [| apply Z.mod_pos_bound; lia | exact E2].
  destruct p1 as [x1 y1], p2 as [x2 y2]. cbn [fst snd]. cbv zeta.
  set (L := py_or (math_hypot (fsub x2 x1) (fsub y2 y1)) (Fin 1)).
  destruct (fdiv (fneg (fsub y2 y1)) L) as [qx |] eqn:Ex; cbn [bind];
    [| discriminate].
  destruct (fdiv (fsub x2 x1) L) as [qy |] eqn:Ey; cbn [bind];
    [| discriminate].
  intros H. injection H as <-. exists qx, qy.
  split; [reflexivity |]. split; [reflexivity |]. apply line_segment.
Qed.

Lemma substituent_end_tip cx cy size p p3 :
  substituent_end cx cy size p = Ok p3 -> tip_of cx cy size p p3.
Proof.
  unfold substituent_end, tip_of. destruct p as [x1 y1]. cbn [fst snd].
  cbv zeta.
  set (L := py_or (math_hypot (fsub x1 cx) (fsub y1 cy)) (Fin 1)).
  destruct (fdiv (fsub x1 cx) L) as [ux |] eqn:Ex; cbn [bind];
    [| discriminate].
  destruct (fdiv (fsub y1 cy) L) as [uy |] eqn:Ey; cbn [bind];
    [| discriminate].
  unfold int_mul_float.
  destruct (float_of_int size) as [fs |] eqn:Ef; cbn [bind]; [| discriminate].
  intros H. injection H as <-. exists fs, ux, uy.
  repeat split; reflexivity.
Qed.

(** A substituent as the loop draws it is a decoration. *)
Lemma substituent_decoration cx cy size pts pp :
  (0 < size)%Z -> substituent_on cx cy size pts pp ->
  decoration cx cy size pts pp.
Proof.
  intros Hs [Hin He]. apply substituent_end_tip in He.
  split; [exact Hin |]. split; [exact He |].
  intros d Hb D0 D1 Hw Hh.
  apply (@TipFacts.tip_length _ cx cy size (fst pp) (snd pp) d);
    try assumption. lia.
Qed.

Lemma decoration_markup_eq pp : substituent_markup pp = decoration_markup pp.
Proof.
  unfold substituent_markup, decoration_markup.
  rewrite line_segment, dot_filled. reflexivity.
Qed.

Lemma flat_map_eq (A B : Type) (f g : A -> list B) l :
  (forall a, f a = g a) -> flat_map f l = flat_map g l.
Proof.
  intros H. induction l as [| a l IH]; simpl;
    [reflexivity | rewrite H, IH; reflexivity].
Qed.

(** The icon with everything it is drawn from. *)
Lemma molecule_icon_drawn name size stroke cx fs :
  int_truediv size 2 = Ok cx -> float_of_int size = Ok fs ->
  exists ic step pts picks,
    molecule_icon hash name size stroke = Ok ic
    /\ fdiv math_pi (Fin 3) = Ok step
    /\ map_result
         (vertex cx cx (fmul fs (lit (26 # 100)))
            (fst (uniform (Fin 0) step (seeded (hash name mod 10 ^ 7)))))
         (range 0 6) = Ok pts
    /\ map_result (edge stroke pts) (range 0 6) = Ok (edges ic)
    /\ map_result (double_bond pts) [0; 2; 4]%Z = Ok (dbl ic)
    /\ List.length picks = Z.to_nat (n_sub hash name)
    /\ Forall (substituent_on cx cx size pts) picks
    /\ subs ic = flat_map substituent_markup picks.
Proof.
  intros Hcx Hfs. unfold molecule_icon. rewrite Hcx. cbn [bind].
  unfold int_mul_float at 1. rewrite Hfs. cbn [bind].
  rewrite third_of_pi_float.
  destruct third_of_pi as (step & Es & S0 & S2).
  rewrite third_of_pi_float in Es. rewrite Es. cbn [bind].
  destruct (@rotation_finite _ step (seeded (hash name mod 10 ^ 7)) S0 S2)
    as (q & Eq & Hq).
  rewrite Eq.
  set (r := fmul fs (lit (26 # 100))).
  destruct (@hexagon_ok _ cx cx r q Hq) as (pts & Hpts & Hlen).
  rewrite Hpts. cbn [bind].
  unfold int_mul_float at 1. rewrite Hfs. cbn [bind].
  destruct (@map_result_ok _ _ (edge stroke pts) (range 0 6)) as [es Hes].
  { intros i Hi. apply range_In in Hi. apply edge_ok; [exact Hlen | lia]. }
  rewrite Hes. cbn [bind].
  destruct (@map_result_ok _ _ (double_bond pts) [0; 2; 4]%Z) as [ds Hds].
  { intros i Hi. apply double_bond_ok; [exact Hlen |].
    destruct Hi as [<- | [<- | [<- | []]]]; lia. }
  rewrite Hds. cbn [bind].
  destruct (@substituents_spec _ _ (Z.to_nat (n_sub hash name)) cx cx size pts
              [] (snd (next_random (seeded (hash name mod 10 ^ 7)))) fs
              Hlen Hfs)
    as (picks & Hn & Hall & ->).
  cbn [bind]. eexists. exists (Fin step), pts, picks.
  split; [reflexivity |]. cbn [edges dbl subs]. rewrite Eq. cbn [fst].
  repeat split; assumption.
Qed.

End IconDrawingFacts.

Open Scope Z_scope.

(** ** The icon synthesizer: the claims *)

Lemma float_of_int_raises z e : float_of_int z = Raise e -> e = OverflowError.
Proof.
  unfold float_of_int. destruct (round_to_float (inject_Z z)); congruence.
Qed.

Lemma int_truediv_2_raises z e : int_truediv z 2 = Raise e -> e = OverflowError.
Proof.
  unfold int_truediv. simpl Z.eqb. cbv iota.
  destruct (round_to_float (inject_Z z / inject_Z 2)); congruence.
Qed.

Section IconClaims.

Context {random : PyRandom} {libm : Libm}.

Variable hash : string -> Z.

(** Out of the range of a float, the first product with [size] raises
    [OverflowError]; nothing else is ever raised. *)
Lemma molecule_icon_raises name size stroke e :
  molecule_icon hash name size stroke = Raise e -> e = OverflowError.
Proof.
  intros H.
  destruct (int_truediv size 2) as [cx | e1] eqn:Hcx.
  - destruct (float_of_int size) as [fs | e2] eqn:Hfs.
    + destruct (@molecule_icon_ok _ _ hash name size stroke cx fs Hcx Hfs)
        as (ic & E & _). congruence.
    + unfold molecule_icon in H. rewrite Hcx in H. cbn [bind] in H.
      unfold int_mul_float at 1 in H. rewrite Hfs in H. cbn [bind] in H.
      injection H as <-. eapply float_of_int_raises, Hfs.
  - unfold molecule_icon in H. rewrite Hcx in H. cbn [bind] in H.
    injection H as <-. eapply int_truediv_2_raises, Hcx.
Qed.

Lemma molecule_icon_in_range name size stroke :
  Z.abs size < 2 ^ 1024 - 2 ^ 970 ->
  exists ic, molecule_icon hash name size stroke = Ok ic
             /\ icon_shape hash name size stroke ic.
Proof.
  intros Hs.
  destruct (@int_truediv_2_ok size) as [cx Hcx]; [lia |].
  destruct (@float_of_int_ok size Hs) as [fs Hfs].
  eapply molecule_icon_ok; eassumption.
Qed.

(** C9, as amended -- structure of the icon.  For every name and every
    [size] with [0 < size < 2^1024 - 2^970] an icon is generated.  Its six
    vertices are the points of the circle of radius [size*0.26] around
    [(size/2, size/2)] at the angles [rot + k*(pi/3)], [rot] the first draw
    of the generator seeded with [hash(name) % 10**7].  It holds exactly 6
    edges, edge [i] the line from vertex [i] to vertex [(i + 1) mod 6];
    exactly 3 offset lines, for the edges 0, 2 and 4; and [n_sub]
    substituents, [n_sub] the [randint(1, 3)] of the generator seeded with
    [hash(name) % 10**6], so [1 <= n_sub <= 3].  A substituent is a line
    from a vertex to the vertex moved by [size*0.24] times the unit vector
    from the centre, followed by a filled dot on that end; the line is
    [0.24*size] long, within the accuracy of [math.hypot], when [size] is
    at most [2^1023].  The markup returned ends with the edges, the offset
    lines and the substituents, in this order. *)
Theorem molecule_icon_structure (name : string) (size : Z) (stroke : string) :
  0 < size < 2 ^ 1024 - 2 ^ 970 ->
  exists (ic : icon) (cx r step : float) (pts : list point)
         (picks : list (point * point)),
    molecule_icon hash name size stroke = Ok ic
    /\ molecule_svg hash name size stroke = Ok (render size ic)
    /\ (exists head : string,
          render size ic
          = (head ++ String.concat "" (edges ic)
               ++ String.concat "" (dbl ic)
               ++ String.concat "" (subs ic) ++ "</svg>")%string)
    /\ int_truediv size 2 = Ok cx
    /\ int_mul_float size (lit (26 # 100)) = Ok r
    /\ fdiv math_pi (Fin 3) = Ok step
    /\ Forall2
         (on_hexagon cx cx r
            (fst (uniform (Fin 0) step (seeded (hash name mod 10 ^ 7)))))
         [0; 1; 2; 3; 4; 5] pts
    /\ List.length (edges ic) = 6%nat
    /\ edges ic
       = map (fun i => segment (vertex_at pts i)
                         (vertex_at pts ((i + 1) mod 6)) "1.8" stroke)
           [0; 1; 2; 3; 4; 5]
    /\ List.length (dbl ic) = 3%nat
    /\ Forall2 (offset_line pts) [0; 2; 4] (dbl ic)
    /\ Z.of_nat (List.length picks)
       = fst (next_randint 1 3 (seeded (hash name mod 10 ^ 6)))
    /\ (1 <= List.length picks <= 3)%nat
    /\ Forall (decoration cx cx size pts) picks
    /\ subs ic = flat_map decoration_markup picks.
Proof.
  intros Hs.
  destruct (@int_truediv_2_ok size) as [cx Hcx]; [lia |].
  destruct (@float_of_int_ok size) as [fs Hfs]; [lia |].
  destruct (@molecule_icon_drawn _ _ hash name size stroke _ _ Hcx Hfs)
    as (ic & step & pts & picks & E & Es & Hp & He & Hd & Hn & Ha & Hsub).
  exists ic, (Fin cx), (fmul (Fin fs) (lit (26 # 100))), step, pts, picks.
  split; [exact E |].
  split; [unfold molecule_svg; rewrite E; reflexivity |].
  split.
  { exists ("<svg" ++ Fmt.attr "width" (Fmt.str_int size)
              ++ Fmt.attr "height" (Fmt.str_int size)
              ++ Fmt.attr "viewBox"
                   ("0 0 " ++ Fmt.str_int size ++ " " ++ Fmt.str_int size)
              ++ Fmt.attr "xmlns" "http://www.w3.org/2000/svg" ++ ">"
              ++ bg ic)%string.
    unfold render. rewrite !append_assoc. reflexivity. }
  split; [exact Hcx |].
  split; [unfold int_mul_float; rewrite Hfs; reflexivity |].
  split; [exact Es |].
  split.
  { apply map_result_Forall2 in Hp.
    change (range 0 6) with [0; 1; 2; 3; 4; 5] in Hp.
    revert Hp. apply Forall2_weaken. intros k p Hk.
    apply vertex_on_hexagon.
    destruct Hk as [<- | [<- | [<- | [<- | [<- | [<- | []]]]]]]; lia. }
  split; [apply map_result_length in He; exact He |].
  split.
  { apply map_result_Forall2 in He.
    change (range 0 6) with [0; 1; 2; 3; 4; 5] in He.
    apply Forall2_map_eq. revert He. apply Forall2_weaken. intros i e Hi.
    apply edge_segment.
    destruct Hi as [<- | [<- | [<- | [<- | [<- | [<- | []]]]]]]; lia. }
  split; [apply map_result_length in Hd; exact Hd |].
  split.
  { apply map_result_Forall2 in Hd.
    revert Hd. apply Forall2_weaken. intros i s Hi.
    apply double_bond_offset.
    destruct Hi as [<- | [<- | [<- | []]]]; lia. }
  pose proof (@n_sub_range _ hash name) as Hr.
  split; [rewrite Hn; unfold n_sub in *; lia |].
  split; [rewrite Hn; lia |].
  split.
  { revert Ha. apply Forall_impl. intros pp.
    apply substituent_decoration. lia. }
  rewrite Hsub. apply flat_map_eq. apply decoration_markup_eq.
Qed.

(** C10, as amended -- totality.  For every name and every int [size] of
    magnitude below [2^1024 - 2^970], zero and the negative ones included,
    [molecule_svg] returns a string; and whatever [size] is, it never raises
    [ZeroDivisionError]: a zero length is replaced by 1 before the
    division. *)
Theorem molecule_svg_total (name : string) (size : Z) (stroke : string) :
  (Z.abs size < 2 ^ 1024 - 2 ^ 970 ->
   exists svg, molecule_svg hash name size stroke = Ok svg)
  /\ molecule_svg hash name size stroke <> Raise ZeroDivisionError.
Proof.
  split.
  - intros Hs.
    destruct (@molecule_icon_in_range name size stroke Hs) as (ic & E & _).
    exists (render size ic). unfold molecule_svg. rewrite E. reflexivity.
  - unfold molecule_svg. intros H.
    destruct (molecule_icon hash name size stroke) as [ic | e] eqn:E;
      cbn [bind] in H; [discriminate |].
    injection H as ->. apply molecule_icon_raises in E. discriminate.
Qed.

(** The output depends on the name only through [hash(name) % 10**7]. *)
Lemma mod_million h : h mod 10 ^ 6 = (h mod 10 ^ 7) mod 10 ^ 6.
Proof.
  symmetry. apply Z.mod_mod_divide. exists 10. reflexivity.
Qed.

End IconClaims.

Section IconOverflow.

Context {random : PyRandom} {libm : Libm}.

Variable hash : string -> Z.

Open Scope Z_scope.

(** From [2^1024 - 2^970] on, and below [-(2^1024 - 2^970)], [size/2] or
    [size*0.26] raises [OverflowError]: no icon is drawn. *)
Lemma molecule_icon_overflow name size stroke :
  2 ^ 1024 - 2 ^ 970 <= Z.abs size ->
  molecule_icon hash name size stroke = Raise OverflowError.
Proof.
  intros Hs. unfold molecule_icon.
  destruct (int_truediv size 2) as [cx | e] eqn:Ecx; cbn [bind].
  - unfold int_mul_float at 1.
    rewrite (@OverflowFacts.float_of_int_overflow size Hs). reflexivity.
  - apply int_truediv_2_raises in Ecx. rewrite Ecx. reflexivity.
Qed.

Lemma molecule_svg_overflow name size stroke :
  2 ^ 1024 - 2 ^ 970 <= Z.abs size ->
  molecule_svg hash name size stroke = Raise OverflowError.
Proof.
  intros Hs. unfold molecule_svg.
  rewrite (@molecule_icon_overflow name size stroke Hs). reflexivity.
Qed.

End IconOverflow.

Lemma molecule_svg_hash_only {random : PyRandom} {libm : Libm}
  (hash1 hash2 : string -> Z) name size stroke :
  hash1 name mod 10 ^ 7 = hash2 name mod 10 ^ 7 ->
  molecule_svg hash1 name size stroke = molecule_svg hash2 name size stroke.
Proof.
  intros H. unfold molecule_svg, molecule_icon, n_sub.
  rewrite (mod_million (hash1 name)), (mod_million (hash2 name)), H.
  reflexivity.
Qed.

Section ErrorContract.

Context {random : PyRandom} {sorter : ArgSort} {libm : Libm}.

Variable hash : string -> Z.

(** C5, as amended -- errors.  [generate_demo] raises exactly when
    [n <= 0]: a [KeyError], from sorting by a column that the frame of an
    empty batch does not have; for [n >= 1] it returns a frame.
    [molecule_svg] checks nothing: it returns a string for every [size] a
    float can hold, positive or not. *)
Theorem error_contract :
  (forall n seed g,
      n <= 0 ->
      fst (generate_demo n seed g) = Raise (KeyError "Composite score"))
  /\ (forall n seed g,
         1 <= n -> exists df, fst (generate_demo n seed g) = Ok df)
  /\ (forall name size stroke,
         Z.abs size < 2 ^ 1024 - 2 ^ 970 ->
         exists svg, molecule_svg hash name size stroke = Ok svg).
Proof.
  split; [| split].
  - intros n seed g Hn. rewrite (generate_demo_nonpos seed g Hn). reflexivity.
  - intros n seed g Hn. rewrite (generate_demo_pos seed g Hn). eexists.
    reflexivity.
  - intros name size stroke Hs.
    destruct (@molecule_icon_in_range _ _ hash name size stroke Hs)
      as (ic & E & _).
    exists (render size ic). unfold molecule_svg. rewrite E. reflexivity.
Qed.

End ErrorContract.

(** * The page: properties *)

Open Scope Z_scope.

(** ** Lists: subsequences, masks, slices *)

Section SubseqFacts.

Variable A : Type.

Lemma subseq_refl (l : list A) : subseq l l.
Proof. induction l; constructor; assumption. Qed.

Lemma subseq_trans (l1 l2 l3 : list A) :
  subseq l1 l2 -> subseq l2 l3 -> subseq l1 l3.
Proof.
  intros H12 H23. revert l1 H12.
  induction H23 as [| a l2 l3 _ IH | a l2 l3 _ IH]; intros l1 H12.
  - exact H12.
  - constructor. apply IH, H12.
  - inversion H12 as [| ? ? ? H | ? ? ? H]; subst;
      constructor; apply IH; exact H.
Qed.

Lemma subseq_In (l1 l2 : list A) a : subseq l1 l2 -> In a l1 -> In a l2.
Proof.
  induction 1 as [| b l1 l2 _ IH | b l1 l2 _ IH]; simpl; intros H.
  - exact H.
  - right. apply IH, H.
  - destruct H as [H | H]; [left; exact H | right; apply IH, H].
Qed.

Lemma subseq_Forall (P : A -> Prop) (l1 l2 : list A) :
  subseq l1 l2 -> Forall P l2 -> Forall P l1.
Proof.
  intros Hs H. rewrite Forall_forall in *. intros a Ha.
  apply H. eapply subseq_In; eassumption.
Qed.

Lemma subseq_FOP (R : A -> A -> Prop) (l1 l2 : list A) :
  subseq l1 l2 -> ForallOrdPairs R l2 -> ForallOrdPairs R l1.
Proof.
  induction 1 as [| b l1 l2 Hs IH | b l1 l2 Hs IH]; intros H.
  - exact H.
  - inversion H; subst. apply IH. assumption.
  - inversion H; subst. constructor.
    + eapply subseq_Forall; eassumption.
    + apply IH. assumption.
Qed.

Lemma subseq_filter (p : A -> bool) (l : list A) : subseq (filter p l) l.
Proof.
  induction l as [| a l IH]; simpl; [constructor |].
  destruct (p a); [apply subseq_keep | apply subseq_skip]; exact IH.
Qed.

Lemma subseq_nil_l (l : list A) : subseq [] l.
Proof. induction l; constructor; assumption. Qed.

Lemma subseq_firstn n (l : list A) : subseq (firstn n l) l.
Proof.
  revert n. induction l as [| a l IH]; intros [| n]; simpl.
  - constructor.
  - constructor.
  - apply subseq_nil_l.
  - apply subseq_keep. apply IH.
Qed.

Lemma slice_to_firstn n (l : list A) :
  0 <= n -> slice_to n l = firstn (Z.to_nat n) l.
Proof.
  intros Hn. unfold slice_to.
  destruct (Z.ltb_spec n 0); [lia | reflexivity].
Qed.

Lemma subseq_slice_to n (l : list A) : subseq (slice_to n l) l.
Proof. apply subseq_firstn. Qed.

(** What [firstn] leaves out comes after everything it keeps. *)
Lemma firstn_cut (R : A -> A -> Prop) n (l : list A) a :
  ForallOrdPairs R l -> In a l ->
  In a (firstn n l)
  \/ (List.length (firstn n l) = n /\ Forall (fun v => R v a) (firstn n l)).
Proof.
  intros HR Ha. rewrite <- (firstn_skipn n l) in Ha.
  apply in_app_or in Ha. destruct Ha as [Ha | Ha]; [left; exact Ha | right].
  split.
  - apply firstn_length_le.
    destruct (Nat.le_gt_cases n (List.length l)) as [L | L]; [exact L |].
    rewrite skipn_all2 in Ha by lia. destruct Ha.
  - rewrite <- (firstn_skipn n l) in HR.
    rewrite Forall_forall. intros v Hv.
    clear -HR Hv Ha. induction (firstn n l) as [| b f IH]; [destruct Hv |].
    simpl in HR. inversion HR as [| ? ? Hb Hf]; subst.
    destruct Hv as [<- | Hv].
    + rewrite Forall_forall in Hb. apply Hb. apply in_or_app. right. exact Ha.
    + apply IH; assumption.
Qed.

End SubseqFacts.

Lemma select_filter (p : Row -> bool) rs :
  select rs (map p rs) = filter p rs.
Proof.
  induction rs as [| r rs IH]; simpl; [reflexivity |].
  rewrite IH. reflexivity.
Qed.

(** ** Comparisons of floats *)

Lemma fltb_not_fleb x y : fltb x y = true -> fleb y x = false.
Proof.
  destruct x as [a | [|] |], y as [b | [|] |]; intros H;
    try discriminate; try reflexivity.
  simpl in H. apply negb_true_iff in H.
  apply DemoFacts.fleb_Fin_false.
  destruct (Qlt_le_dec a b) as [L | L]; [exact L |].
  apply Qle_bool_iff in L. congruence.
Qed.

(** ** The run id and the seed *)

Section PageFacts.

Context {random : PyRandom} {sorter : ArgSort} {libm : Libm}.

Variable hash : string -> Z.

(** The frame [df_all] of a target: ten built rows, sorted, with the five
    columns. *)
Lemma df_all_ok target g :
  fst (df_all hash target g)
  = Ok {| columns := frame_columns;
          rows := sorted_rows (generated 10 (hash target mod 10 ^ 6)) |}.
Proof.
  unfold df_all. rewrite generate_demo_pos by lia. reflexivity.
Qed.

Lemma df_all_rows target :
  let rs := sorted_rows (generated 10 (hash target mod 10 ^ 6)) in
  List.length rs = 10%nat /\ Forall built rs /\ non_increasing rs.
Proof.
  intros rs. pose proof (generated_built 10 (hash target mod 10 ^ 6)) as Hb.
  pose proof (sorted_rows_perm Hb) as Hp. fold rs in Hp.
  split; [| split].
  - rewrite (Permutation_length Hp), length_generated. reflexivity.
  - rewrite Forall_forall in *. intros r Hr. apply Hb.
    eapply Permutation_in; eassumption.
  - apply sorted_rows_sorted, Hb.
Qed.

Lemma df_view_eq target max_tox top_n g :
  df_view hash target max_tox top_n g
  = Ok {| columns := frame_columns;
          rows :=
            slice_to top_n
              (filter (admissible max_tox)
                 (sorted_rows (generated 10 (hash target mod 10 ^ 6)))) |}.
Proof.
  unfold df_view. rewrite df_all_ok. cbn [bind].
  unfold toxicity_column. cbn [columns rows frame_columns].
  change (existsb (String.eqb "Toxicity") frame_columns) with true.
  cbn [bind]. unfold head, boolean_index, series_le. cbn [columns rows].
  rewrite map_map.
  rewrite (select_filter (admissible max_tox)). reflexivity.
Qed.

End PageFacts.


Section PageTheorems.

Context {random : PyRandom} {sorter : ArgSort} {libm : Libm}.

Variable hash : string -> Z.

(** X1 --
    The run id shown on the page is taken from [abs(hash(target))] and the
    seed of [generate_demo] from [hash(target)]: the seed lies in
    [[0, 10**6)]; the run id is the seed written out when the hash is not
    negative, and [10**6 - seed] (reduced modulo [10**6]) when it is. *)
Theorem run_id_of_seed (target : string) (g : rng) :
  let seed := hash target mod 10 ^ 6 in
  df_all hash target g = generate_demo 10 seed g
  /\ 0 <= seed < 10 ^ 6
  /\ run_id hash target
     = Fmt.str_int (if 0 <=? hash target then seed
                    else (10 ^ 6 - seed) mod 10 ^ 6).
Proof.
  intros seed. unfold seed, run_id.
  pose proof (Z.mod_pos_bound (hash target) (10 ^ 6) ltac:(lia)) as Hs.
  split; [reflexivity |]. split; [lia |]. f_equal.
  destruct (Z.leb_spec 0 (hash target)) as [H | H].
  - rewrite Z.abs_eq by lia. reflexivity.
  - rewrite Z.abs_neq by lia.
    set (h := hash target) in *.
    destruct (Z.eq_dec (h mod 10 ^ 6) 0) as [E | E].
    + rewrite Z.mod_opp_l_z, E by lia. reflexivity.
    + rewrite Z.mod_opp_l_nz by lia. symmetry. apply Z.mod_small. lia.
Qed.

(** X2 --
    Whatever the target and the two sliders give, the view is made without
    an exception; it has the five columns; its rows are rows of [df_all],
    in the order [df_all] has them, so still by falling composite score;
    each has a toxicity of at most [max_tox]; and there are at most [top_n]
    of them when [top_n] is not negative. *)
Theorem df_view_filtered (target : string) (max_tox : float) (top_n : Z)
  (g : rng) :
  exists all view,
    fst (df_all hash target g) = Ok all
    /\ df_view hash target max_tox top_n g = Ok view
    /\ columns view = frame_columns
    /\ subseq (rows view) (rows all)
    /\ Forall (fun r => fleb (Toxicity r) max_tox = true) (rows view)
    /\ non_increasing (rows view)
    /\ (0 <= top_n -> Z.of_nat (List.length (rows view)) <= top_n).
Proof.
  eexists. eexists. split; [apply df_all_ok |].
  split; [apply df_view_eq |]. cbn [columns rows].
  destruct (df_all_rows hash target) as (Hlen & Hb & Hs).
  set (rs := sorted_rows (generated 10 (hash target mod 10 ^ 6))) in *.
  assert (Hsub : subseq (slice_to top_n (filter (admissible max_tox) rs))
                   (filter (admissible max_tox) rs))
    by apply subseq_slice_to.
  split; [reflexivity |].
  split; [eapply subseq_trans; [exact Hsub | apply subseq_filter] |].
  split.
  { eapply subseq_Forall; [exact Hsub |].
    rewrite Forall_forall. intros r Hr. apply filter_In in Hr. apply Hr. }
  split.
  { eapply subseq_FOP; [exact Hsub |].
    eapply subseq_FOP; [apply subseq_filter | exact Hs]. }
  intros Hn. rewrite slice_to_firstn by exact Hn.
  rewrite length_firstn. lia.
Qed.

(** X3 --
    The view holds the best admissible candidates: for [top_n >= 0], a row
    of [df_all] whose toxicity is at most [max_tox] is in the view, or else
    the view is full (it has exactly [top_n] rows) and each of its rows
    scores at least as much as the row left out. *)
Theorem df_view_top (target : string) (max_tox : float) (top_n : Z)
  (g : rng) :
  0 <= top_n ->
  exists all view,
    fst (df_all hash target g) = Ok all
    /\ df_view hash target max_tox top_n g = Ok view
    /\ Forall
         (fun r =>
            fleb (Toxicity r) max_tox = true ->
            In r (rows view)
            \/ (Z.of_nat (List.length (rows view)) = top_n
                /\ Forall (scores_below r) (rows view)))
         (rows all).
Proof.
  intros Hn. eexists. eexists. split; [apply df_all_ok |].
  split; [apply df_view_eq |]. cbn [columns rows].
  destruct (df_all_rows hash target) as (Hlen & Hb & Hs).
  set (rs := sorted_rows (generated 10 (hash target mod 10 ^ 6))) in *.
  rewrite slice_to_firstn by exact Hn.
  rewrite Forall_forall. intros r Hr Hadm.
  assert (Hin : In r (filter (admissible max_tox) rs))
    by (apply filter_In; split; assumption).
  assert (Hsorted : non_increasing (filter (admissible max_tox) rs))
    by (eapply subseq_FOP; [apply subseq_filter | exact Hs]).
  destruct (@firstn_cut _ _ (Z.to_nat top_n) _ _ Hsorted Hin) as [H | [H1 H2]].
  - left. exact H.
  - right. split; [lia | exact H2].
Qed.

(** X4 --
    Below the least toxicity a candidate can have, nothing is shown: with
    [max_tox < 0.10] (the slider offers 0.0 and 0.05) the view is empty,
    whatever the target. *)
Theorem df_view_empty (target : string) (max_tox : float) (top_n : Z)
  (g : rng) :
  fltb max_tox (lit (10 # 100)) = true ->
  df_view hash target max_tox top_n g
  = Ok {| columns := frame_columns; rows := [] |}.
Proof.
  intros Hm. rewrite df_view_eq. do 2 f_equal.
  destruct (df_all_rows hash target) as (_ & Hb & _).
  set (rs := sorted_rows (generated 10 (hash target mod 10 ^ 6))) in *.
  rewrite filter_none; [unfold slice_to; apply firstn_nil |].
  eapply Forall_impl; [| exact Hb]. intros r Hr.
  destruct (built_ranges Hr) as (_ & Ht & _).
  unfold in_range in Ht. apply andb_true_iff in Ht. destruct Ht as [Ht _].
  unfold admissible.
  destruct (fleb (Toxicity r) max_tox) eqn:E; [| reflexivity].
  pose proof (DemoFacts.fleb_trans _ _ _ Ht E) as H.
  rewrite (fltb_not_fleb _ _ Hm) in H. discriminate.
Qed.

(** X5 --
    From the greatest toxicity a candidate can have on, the slider filters
    nothing: with [max_tox >= 0.80] and [0 <= top_n <= 10] the view is the
    first [top_n] rows of [df_all], and it has exactly [top_n] rows. *)
Theorem df_view_unfiltered (target : string) (max_tox : float) (top_n : Z)
  (g : rng) :
  fleb (lit (80 # 100)) max_tox = true ->
  0 <= top_n <= 10 ->
  exists all view,
    fst (df_all hash target g) = Ok all
    /\ df_view hash target max_tox top_n g = Ok view
    /\ rows view = firstn (Z.to_nat top_n) (rows all)
    /\ Z.of_nat (List.length (rows view)) = top_n.
Proof.
  intros Hm Hn. eexists. eexists. split; [apply df_all_ok |].
  split; [apply df_view_eq |]. cbn [columns rows].
  destruct (df_all_rows hash target) as (Hlen & Hb & _).
  set (rs := sorted_rows (generated 10 (hash target mod 10 ^ 6))) in *.
  rewrite filter_all.
  - rewrite slice_to_firstn by lia. split; [reflexivity |].
    rewrite length_firstn. lia.
  - eapply Forall_impl; [| exact Hb]. intros r Hr.
    destruct (built_ranges Hr) as (_ & Ht & _).
    unfold in_range in Ht. apply andb_true_iff in Ht. destruct Ht as [_ Ht].
    unfold admissible. eapply DemoFacts.fleb_trans; eassumption.
Qed.

(** X6 --
    A larger [top_n] only adds rows at the end: the view for [top_n] is the
    first [top_n] rows of the view for any [top_n' >= top_n]. *)
Theorem df_view_grows (target : string) (max_tox : float) (top_n top_n' : Z)
  (g : rng) :
  0 <= top_n <= top_n' ->
  exists view view',
    df_view hash target max_tox top_n g = Ok view
    /\ df_view hash target max_tox top_n' g = Ok view'
    /\ rows view = firstn (Z.to_nat top_n) (rows view').
Proof.
  intros Hn. eexists. eexists.
  split; [apply df_view_eq |]. split; [apply df_view_eq |]. cbn [rows].
  rewrite !slice_to_firstn by lia.
  rewrite firstn_firstn. f_equal. lia.
Qed.

End PageTheorems.


(** ** The derived fields over the two grids *)

Lemma score_facts_grid :
  forallb (fun a => forallb (score_facts a) (hundredths 10 80))
    (hundredths 30 95) = true.
Proof. vm_compute. reflexivity. Qed.

Lemma shown_grid :
  forallb
    (fun h =>
       String.eqb
         (Fmt.format_f 2
            (round_to_float (inject_Z h / inject_Z (10 ^ Z.of_nat 2))))
         (two_decimals h))
    (range 0 101) = true.
Proof. vm_compute. reflexivity. Qed.


Lemma hundredths_inv lo hi x :
  In x (hundredths lo hi) ->
  exists h, lo <= h <= hi
            /\ x = round_to_float (inject_Z h / inject_Z (10 ^ Z.of_nat 2)).
Proof.
  unfold hundredths. intros H. apply in_map_iff in H.
  destruct H as (h & <- & Hh). apply range_In in Hh.
  exists h. split; [lia | reflexivity].
Qed.

Lemma hundredths_shown lo hi x :
  0 <= lo -> hi <= 100 -> In x (hundredths lo hi) -> shown_exactly lo hi x.
Proof.
  intros Hlo Hhi H. destruct (hundredths_inv _ _ _ H) as (h & Hh & ->).
  exists h. split; [exact Hh |]. split; [reflexivity |].
  pose proof shown_grid as G. rewrite forallb_forall in G.
  apply String.eqb_eq. apply G. apply In_range. lia.
Qed.

Lemma built_score_facts r :
  built r -> score_facts (Activity r) (Toxicity r) = true.
Proof.
  intros (Ha & Ht & _).
  pose proof score_facts_grid as G. rewrite forallb_forall in G.
  specialize (G _ Ha). rewrite forallb_forall in G. apply G, Ht.
Qed.

Lemma py_max_zero x : fltb (Fin 0) x = true -> py_max (Fin 0) x = x.
Proof. unfold py_max. intros ->. reflexivity. Qed.

Lemma py_min_one_pos x :
  fltb (Fin 0) x = true -> fltb (Fin 0) (py_min (Fin 1) x) = true.
Proof.
  intros H. unfold py_min. destruct (fltb x (Fin 1)); [exact H | reflexivity].
Qed.

(** ** Strings *)

Lemma append_nil_r (a : string) : (a ++ "" = a)%string.
Proof.
  induction a as [| x a IH]; simpl; [reflexivity | rewrite IH; reflexivity].
Qed.

Lemma all_digits_of_uint d : all_digits (NilEmpty.string_of_uint d) = true.
Proof. induction d; simpl; try reflexivity; exact IHd. Qed.

Lemma length_of_uint d :
  String.length (NilEmpty.string_of_uint d) = Decimal.nb_digits d.
Proof. induction d; simpl; try reflexivity; rewrite IHd; reflexivity. Qed.

Lemma nb_digits_iter k d :
  Decimal.nb_digits (Nat.iter k Decimal.D0 d) = (k + Decimal.nb_digits d)%nat.
Proof.
  induction k as [| k IH]; simpl; [reflexivity | rewrite IH; reflexivity].
Qed.

Lemma name_of_plain i :
  0 <= i ->
  exists d, name_of i = ("Mol-" ++ d)%string
            /\ all_digits d = true /\ (3 <= String.length d)%nat.
Proof.
  intros Hi. unfold name_of, Fmt.format_0d.
  destruct (Z.ltb_spec i 0); [lia |].
  eexists. split; [reflexivity |].
  split; [apply all_digits_of_uint |].
  rewrite length_of_uint. unfold Fmt.zpad. rewrite nb_digits_iter. lia.
Qed.

(** ** Lists of pairs *)

Lemma map_fst_combine (A B : Type) (l1 : list A) (l2 : list B) :
  List.length l1 = List.length l2 -> map fst (combine l1 l2) = l1.
Proof.
  revert l2. induction l1 as [| a l1 IH]; intros [| b l2] H; simpl in *;
    try reflexivity; try discriminate.
  rewrite IH by lia. reflexivity.
Qed.

Lemma map_snd_combine (A B : Type) (l1 : list A) (l2 : list B) :
  List.length l1 = List.length l2 -> map snd (combine l1 l2) = l2.
Proof.
  revert l2. induction l1 as [| a l1 IH]; intros [| b l2] H; simpl in *;
    try reflexivity; try discriminate.
  rewrite IH by lia. reflexivity.
Qed.

Lemma rows_from_app {random : PyRandom} l1 l2 g :
  rows_from (l1 ++ l2)%list g
  = (rows_from l1 g ++ rows_from l2 (rng_after l1 g))%list.
Proof.
  revert g. induction l1 as [| i l1 IH]; intros g; simpl; [reflexivity |].
  rewrite IH. reflexivity.
Qed.

Lemma map_seq_from (A : Type) (f : nat -> A) m s :
  map f (seq s m) = map (fun k => f (s + k)%nat) (seq 0 m).
Proof.
  revert f s. induction m as [| m IH]; intros f s; simpl; [reflexivity |].
  rewrite Nat.add_0_r. f_equal.
  rewrite (IH f (S s)), (IH (fun k => f (s + k)%nat) 1%nat).
  apply map_ext. intros k. f_equal. lia.
Qed.

Lemma range_split a b c :
  a <= b <= c -> range a c = (range a b ++ range b c)%list.
Proof.
  intros H. unfold range.
  replace (Z.to_nat (c - a)) with (Z.to_nat (b - a) + Z.to_nat (c - b))%nat
    by lia.
  rewrite seq_app, map_app. f_equal. simpl.
  rewrite map_seq_from. apply map_ext. intros k. lia.
Qed.


(** ** The candidate generator, further *)

Section GeneratorFurther.

Context {random : PyRandom} {sorter : ArgSort}.

(** X7 --
    The names are plain text: for [n >= 1] every record of the frame is
    called "Mol-" followed by decimal digits only, at least three of them.
    ([svg_card] puts the name into the markup as it is.) *)
Theorem generate_demo_names_plain (n seed : Z) (g : rng) :
  1 <= n ->
  exists df,
    fst (generate_demo n seed g) = Ok df
    /\ Forall
         (fun r =>
            exists d, Molecule r = ("Mol-" ++ d)%string
                      /\ all_digits d = true
                      /\ (3 <= String.length d)%nat)
         (rows df).
Proof.
  intros Hn. destruct (generate_demo_built seed g Hn) as (df & E & Hp & _).
  exists df. split; [exact E |].
  rewrite Forall_forall. intros r Hr.
  apply (Permutation_in _ Hp) in Hr.
  apply (in_map Molecule) in Hr. rewrite generated_names in Hr.
  apply in_map_iff in Hr. destruct Hr as (i & <- & Hi).
  apply range_In in Hi. apply name_of_plain. lia.
Qed.

(** X8 --
    What the table and the report print is what the frame holds: for
    [n >= 1], the activity, the toxicity and the composite score of every
    record are a whole number of hundredths [h] (as the nearest double), and
    [format(x, ".2f")] prints exactly [h] hundredths. *)
Theorem generate_demo_shown_exactly (n seed : Z) (g : rng) :
  1 <= n ->
  exists df,
    fst (generate_demo n seed g) = Ok df
    /\ Forall
         (fun r =>
            shown_exactly 30 95 (Activity r)
            /\ shown_exactly 10 80 (Toxicity r)
            /\ shown_exactly 0 100 (Composite_score r))
         (rows df).
Proof.
  intros Hn. destruct (generate_demo_built seed g Hn) as (df & E & _ & Hb).
  exists df. split; [exact E |].
  eapply Forall_impl; [| exact Hb]. intros r (Ha & Ht & Hs & _).
  split; [apply hundredths_shown; [lia | lia | exact Ha] |].
  split; [apply hundredths_shown; [lia | lia | exact Ht] |].
  rewrite Hs. apply hundredths_shown; [lia | lia |].
  apply composite_score_hundredths.
Qed.

(** X9 --
    The lower clamp never acts: for [n >= 1], the product
    [activity * (1 - toxicity) * 1.25] of every record is above zero, so its
    composite score is [round(min(1.0, product), 2)]; and no score is below
    0.07. *)
Theorem generate_demo_score_floor (n seed : Z) (g : rng) :
  1 <= n ->
  exists df,
    fst (generate_demo n seed g) = Ok df
    /\ Forall
         (fun r =>
            fltb (Fin 0) (raw_score (Activity r) (Toxicity r)) = true
            /\ Composite_score r
               = py_round 2
                   (py_min (Fin 1) (raw_score (Activity r) (Toxicity r)))
            /\ fleb (lit (7 # 100)) (Composite_score r) = true)
         (rows df).
Proof.
  intros Hn. destruct (generate_demo_built seed g Hn) as (df & E & _ & Hb).
  exists df. split; [exact E |].
  eapply Forall_impl; [| exact Hb]. intros r Hr.
  pose proof (built_score_facts Hr) as F.
  destruct Hr as (_ & _ & Hs & _).
  unfold score_facts in F. cbv zeta in F.
  apply andb_true_iff in F. destruct F as [F _].
  apply andb_true_iff in F. destruct F as [F0 F7].
  split; [exact F0 |]. rewrite Hs. split; [| exact F7].
  unfold composite_score. fold (raw_score (Activity r) (Toxicity r)).
  rewrite py_max_zero by (apply py_min_one_pos, F0). reflexivity.
Qed.

(** X10 --
    The status bounds the score: for [n >= 1], a "priority" record scores
    at least 0.44 and a "reserve" record at most 0.78. *)
Theorem generate_demo_status_scores (n seed : Z) (g : rng) :
  1 <= n ->
  exists df,
    fst (generate_demo n seed g) = Ok df
    /\ Forall
         (fun r =>
            (Status r = "priority"%string ->
             fleb (lit (44 # 100)) (Composite_score r) = true)
            /\ (Status r = "reserve"%string ->
                fleb (Composite_score r) (lit (78 # 100)) = true))
         (rows df).
Proof.
  intros Hn. destruct (generate_demo_built seed g Hn) as (df & E & _ & Hb).
  exists df. split; [exact E |].
  eapply Forall_impl; [| exact Hb]. intros r Hr.
  pose proof (built_score_facts Hr) as F.
  destruct Hr as (_ & _ & Hs & Hl).
  unfold score_facts in F. cbv zeta in F.
  apply andb_true_iff in F. destruct F as [_ F].
  rewrite <- Hs, <- Hl in F.
  split; intros HS; rewrite HS in F; exact F.
Qed.

(** X11 --
    A longer batch extends a shorter one: for [1 <= n <= m] and the same
    seed, the records generated for [n] are the first [n] of those
    generated for [m], so every record of the frame for [n] is a record of
    the frame for [m]. *)
Theorem generate_demo_extends (n m seed : Z) (g : rng) :
  1 <= n <= m ->
  exists dfn dfm,
    fst (generate_demo n seed g) = Ok dfn
    /\ fst (generate_demo m seed g) = Ok dfm
    /\ generated n seed = firstn (Z.to_nat n) (generated m seed)
    /\ Forall (fun r => In r (rows dfm)) (rows dfn).
Proof.
  intros Hnm.
  destruct (@generate_demo_built _ _ n seed g) as (dfn & En & Hpn & _); [lia |].
  destruct (@generate_demo_built _ _ m seed g) as (dfm & Em & Hpm & _); [lia |].
  exists dfn, dfm. split; [exact En |]. split; [exact Em |].
  assert (Hpre : generated n seed = firstn (Z.to_nat n) (generated m seed)).
  { unfold generated.
    rewrite (@range_split 1 (n + 1) (m + 1)) by lia.
    rewrite rows_from_app.
    rewrite firstn_app.
    rewrite length_rows_from, length_range.
    replace (Z.to_nat n - Z.to_nat (n + 1 - 1))%nat with O by lia.
    rewrite firstn_O, app_nil_r.
    rewrite firstn_all2; [reflexivity |].
    rewrite length_rows_from, length_range. lia. }
  split; [exact Hpre |].
  rewrite Forall_forall. intros r Hr.
  apply (Permutation_in _ Hpn) in Hr.
  apply (Permutation_in _ (Permutation_sym Hpm)).
  rewrite Hpre in Hr. eapply subseq_In; [apply subseq_firstn | exact Hr].
Qed.

(** X12 --
    A call that raises has re-seeded the generator all the same: for
    [n <= 0] the [KeyError] comes after [random.seed(seed)], and the
    module-level generator is left freshly seeded, nothing drawn from it. *)
Theorem generate_demo_raises_after_seeding (n seed : Z) (g : rng) :
  n <= 0 ->
  generate_demo n seed g = (Raise (KeyError "Composite score"), seeded seed).
Proof.
  intros Hn. unfold generate_demo, range.
  replace (Z.to_nat (n + 1 - 1)) with O by lia. reflexivity.
Qed.

End GeneratorFurther.


(** ** The icon synthesizer, further *)

Lemma map_result_outcome (A B : Type) (f1 f2 : A -> result B) l :
  (forall a, same_outcome (fun _ _ => True) (f1 a) (f2 a)) ->
  same_outcome (fun l1 l2 => List.length l1 = List.length l2)
    (map_result f1 l) (map_result f2 l).
Proof.
  intros H. induction l as [| a l IH]; simpl; [reflexivity |].
  specialize (H a).
  destruct (f1 a) as [b1 | e1], (f2 a) as [b2 | e2]; simpl in *;
    try contradiction; [| exact H].
  destruct (map_result f1 l) as [l1 | e1], (map_result f2 l) as [l2 | e2];
    simpl in *; try contradiction; [| exact IH].
  rewrite IH. reflexivity.
Qed.

Lemma map_result_map (A B C : Type) (f : B -> result C) (g : A -> B) l :
  map_result f (map g l) = map_result (fun a => f (g a)) l.
Proof.
  induction l as [| a l IH]; simpl; [reflexivity |].
  rewrite IH. reflexivity.
Qed.

Section IconFurther.

Context {random : PyRandom} {libm : Libm}.

Variable hash : string -> Z.

Lemma edge_outcome s1 s2 pts i :
  same_outcome (fun _ _ => True) (edge s1 pts i) (edge s2 pts i).
Proof.
  unfold edge. destruct (py_index pts i) as [p1 | e]; cbn [bind];
    [| reflexivity].
  destruct (py_index pts ((i + 1) mod 6)) as [p2 | e]; cbn [bind];
    [exact I | reflexivity].
Qed.

(** X13 --
    The icon depends on the name through [hash(name) % 10**7] alone: two
    names whose hashes agree modulo [10**7] get the same markup, character
    for character (the second generator is seeded with
    [hash(name) % 10**6], which is the first seed modulo [10**6]). *)
Theorem molecule_svg_same_seed (name1 name2 : string) (size : Z)
  (stroke : string) :
  hash name1 mod 10 ^ 7 = hash name2 mod 10 ^ 7 ->
  molecule_svg hash name1 size stroke = molecule_svg hash name2 size stroke.
Proof.
  intros H. unfold molecule_svg, molecule_icon, n_sub.
  rewrite (mod_million (hash name1)), (mod_million (hash name2)), H.
  reflexivity.
Qed.

(** X14 --
    [stroke] colours the six edges and nothing else: with two values of
    [stroke], [molecule_svg] raises the same exception or builds two icons
    with the same disc, the same offset lines and the same substituents,
    and as many edges. *)
Theorem stroke_only_on_edges (name : string) (size : Z) (s1 s2 : string) :
  same_but_edges (molecule_icon hash name size s1)
    (molecule_icon hash name size s2).
Proof.
  unfold molecule_icon.
  destruct (int_truediv size 2) as [cx | e]; cbn [bind]; [| reflexivity].
  destruct (int_mul_float size (lit (26 # 100))) as [r | e]; cbn [bind];
    [| reflexivity].
  destruct (float_div_int math_pi 3) as [top | e]; cbn [bind]; [| reflexivity].
  destruct (uniform (Fin 0) top (seeded (hash name mod 10 ^ 7))) as [rot g].
  destruct (map_result (vertex cx cx r rot) (range 0 6)) as [pts | e];
    cbn [bind]; [| reflexivity].
  destruct (int_mul_float size (lit (44 # 100))) as [rbg | e]; cbn [bind];
    [| reflexivity].
  pose proof (@map_result_outcome _ _ (edge s1 pts) (edge s2 pts) (range 0 6)
                (edge_outcome s1 s2 pts)) as He.
  destruct (map_result (edge s1 pts) (range 0 6)) as [e1 | x1],
           (map_result (edge s2 pts) (range 0 6)) as [e2 | x2];
    cbn [bind same_outcome] in *; try contradiction; [| exact He].
  destruct (map_result (double_bond pts) [0; 2; 4]) as [ds | e]; cbn [bind];
    [| reflexivity].
  destruct (substituents (Z.to_nat (n_sub hash name)) cx cx size pts [] g)
    as [ss | e]; cbn [bind]; [| reflexivity].
  cbn [same_but_edges bg dbl subs edges]. auto.
Qed.

End IconFurther.

(** ** The page *)

Lemma safety_grid :
  forallb
    (fun t =>
       in_range (fsub (Fin 1) (lit (80 # 100))) (fsub (Fin 1) t)
         (lit (90 # 100))
       && Bool.eqb (fltb (fsub (Fin 1) t) (lit (20 # 100)))
            (feqb t (lit (80 # 100))))
    (hundredths 10 80) = true.
Proof. vm_compute. reflexivity. Qed.

Lemma concat_cons (c : string) cs :
  String.concat "" (c :: cs) = (c ++ String.concat "" cs)%string.
Proof.
  destruct cs as [| c' cs]; simpl; [symmetry; apply append_nil_r | reflexivity].
Qed.

Lemma length_df_disp view :
  List.length (range 1 (Z.of_nat (List.length (rows view)) + 1))
  = List.length (rows view).
Proof. rewrite length_range. lia. Qed.

Section PageFurther.

Context {random : PyRandom} {sorter : ArgSort} {libm : Libm}.

Variable hash : string -> Z.

Lemma svg_card_ok name : exists card, svg_card hash name 64 = Ok card.
Proof.
  destruct (@molecule_icon_in_range _ _ hash name 64 default_stroke)
    as (ic & E & _).
  { apply Z.ltb_lt. vm_compute. reflexivity. }
  unfold svg_card, molecule_svg. rewrite E. cbn [bind]. eexists. reflexivity.
Qed.

Lemma cards_loop_spec its h :
  exists cards,
    map_result (fun p => svg_card hash (Molecule (snd p)) 64) its = Ok cards
    /\ cards_loop hash its h = Ok (h ++ String.concat "" cards)%string.
Proof.
  revert h. induction its as [| [i r] its IH]; intros h.
  - exists []. split; [reflexivity |]. simpl. rewrite append_nil_r. reflexivity.
  - destruct (svg_card_ok (Molecule r)) as [card Hc].
    destruct (IH (h ++ card)%string) as (cards & Hm & Hl).
    exists (card :: cards). cbn [map_result cards_loop snd].
    rewrite Hc. cbn [bind]. rewrite Hm. cbn [bind].
    split; [reflexivity |].
    rewrite Hl, concat_cons, append_assoc. reflexivity.
Qed.

(** X15 --
    The grid of icons is built without an exception, whatever rows the view
    holds: one card per row, in the order of the rows, between the opening
    and the closing tag of the grid. *)
Theorem html_one_card_per_row (view : DataFrame) :
  exists cards,
    map_result (fun r => svg_card hash (Molecule r) 64) (rows view) = Ok cards
    /\ List.length cards = List.length (rows view)
    /\ html hash view
       = Ok ("<div" ++ Fmt.attr "class" "molgrid" ++ ">"
               ++ String.concat "" cards ++ "</div>")%string.
Proof.
  destruct (cards_loop_spec (df_disp view)
              ("<div" ++ Fmt.attr "class" "molgrid" ++ ">")%string)
    as (cards & Hm & Hl).
  exists cards.
  assert (Hr : map_result (fun r => svg_card hash (Molecule r) 64) (rows view)
               = Ok cards).
  { rewrite <- Hm.
    rewrite <- (map_snd_combine
                  (range 1 (Z.of_nat (List.length (rows view)) + 1))
                  (rows view) (length_df_disp view)) at 1.
    rewrite map_result_map. reflexivity. }
  split; [exact Hr |].
  split; [apply map_result_length in Hr; exact Hr |].
  unfold html. rewrite Hl. cbn [bind]. rewrite !append_assoc. reflexivity.
Qed.

(** X16 --
    Only the first three rows shown are coloured: the styles of row [k]
    (from 0) of the view are as many as the frame has columns; for [k < 3]
    none of them is empty, and from the fourth row on all are. *)
Theorem apply_color_rows_first_three (view : DataFrame) :
  List.length (apply_color_rows view) = List.length (rows view)
  /\ Forall
       (fun ks =>
          List.length (snd ks) = List.length (columns view)
          /\ Forall (fun style => plain style <-> (3 <= fst ks)%nat) (snd ks))
       (combine (seq 0 (List.length (rows view))) (apply_color_rows view)).
Proof.
  unfold apply_color_rows.
  set (c := List.length (columns view)).
  assert (E : map (fun p : Z * Row => color_rows (fst p) c) (df_disp view)
              = map (fun k => color_rows (Z.of_nat k + 1) c)
                  (seq 0 (List.length (rows view)))).
  { rewrite <- (map_map fst (fun i => color_rows i c)).
    unfold df_disp. rewrite map_fst_combine by apply length_df_disp.
    unfold range. rewrite map_map.
    replace (Z.to_nat (Z.of_nat (List.length (rows view)) + 1 - 1))
      with (List.length (rows view)) by lia.
    apply map_ext. intros k. f_equal. lia. }
  rewrite E. split; [rewrite length_map, length_seq; reflexivity |].
  rewrite Forall_forall. intros [k st] Hin.
  apply in_combine_l in Hin as Hk. apply in_combine_r in Hin as Hst.
  clear Hk. cbn [fst snd].
  assert (Est : st = color_rows (Z.of_nat k + 1) c).
  { clear -Hin. revert Hin. generalize 0%nat.
    induction (List.length (rows view)) as [| n IH]; intros s Hin;
      [destruct Hin |].
    simpl in Hin. destruct Hin as [Hin | Hin].
    - injection Hin as <- <-. reflexivity.
    - apply (IH _ Hin). }
  subst st. unfold color_rows, plain.
  destruct (Z.eqb_spec (Z.of_nat k + 1) 1);
    [| destruct (Z.eqb_spec (Z.of_nat k + 1) 2);
       [| destruct (Z.eqb_spec (Z.of_nat k + 1) 3)]];
    (split; [apply repeat_length |]);
    rewrite Forall_forall; intros s Hs; apply repeat_spec in Hs; subst s;
    (split; [try discriminate; intros _; lia | try reflexivity; intros; lia]).
Qed.

(** X17 --
    The "Safety" bar of a generated record lies between [1 - 0.80] and
    [0.90] (as doubles); it is below 0.2 for a toxicity of 0.80 and for no
    other, since [1 - 0.8] is [0.19999999999999996]; and it is the factor
    the composite score was computed with. *)
Theorem safety_bounds (n seed : Z) (g : rng) :
  1 <= n ->
  exists df,
    fst (generate_demo n seed g) = Ok df
    /\ Forall
         (fun r =>
            in_range (fsub (Fin 1) (lit (80 # 100))) (Safety r)
              (lit (90 # 100)) = true
            /\ fltb (Safety r) (lit (20 # 100))
               = feqb (Toxicity r) (lit (80 # 100))
            /\ Composite_score r
               = py_round 2
                   (py_max (Fin 0)
                      (py_min (Fin 1)
                         (fmul (fmul (Activity r) (Safety r))
                            (lit (125 # 100))))))
         (rows df).
Proof.
  intros Hn. destruct (generate_demo_built seed g Hn) as (df & E & _ & Hb).
  exists df. split; [exact E |].
  eapply Forall_impl; [| exact Hb]. intros r (_ & Ht & Hs & _).
  pose proof safety_grid as G. rewrite forallb_forall in G.
  specialize (G _ Ht). apply andb_true_iff in G. destruct G as [G1 G2].
  apply eqb_prop in G2.
  split; [exact G1 |]. split; [exact G2 | exact Hs].
Qed.

End PageFurther.


(** ** The report *)

Lemma reportlab_units :
  fdiv (Fin 72) (lit (254 # 100)) = Ok cm
  /\ fmul (Fin 297) (fmul cm (lit (1 # 10))) = A4_height.
Proof. split; vm_compute; reflexivity. Qed.

Lemma report_heights :
  bottom_margin = Fin (val bottom_margin)
  /\ top_margin = Fin (val top_margin)
  /\ fmul (lit (6 # 10)) cm = Fin (val (fmul (lit (6 # 10)) cm))
  /\ (0 <= val bottom_margin)%Q
  /\ (val bottom_margin <= val top_margin)%Q
  /\ (val top_margin <= 1000)%Q
  /\ (1 <= val (fmul (lit (6 # 10)) cm))%Q
  /\ (val (fmul (lit (6 # 10)) cm) <= 20)%Q.
Proof.
  repeat split; try (apply Qle_bool_iff); vm_compute; reflexivity.
Qed.

Lemma on_page_within y x t :
  on_page y -> within_margins (drawString x y t) = true.
Proof.
  intros (q & -> & Hq). unfold within_margins.
  destruct report_heights as (E2 & Et & _).
  rewrite E2, Et. apply andb_true_iff.
  split; apply DemoFacts.fleb_Fin; apply Hq.
Qed.

Lemma on_page_start :
  on_page (fsub (fsub A4_height (fmul (Fin 5) cm)) (fmul (lit (7 # 10)) cm))
  /\ on_page top_margin
  /\ on_page (fsub A4_height (fmul (Fin 3) cm))
  /\ on_page (fsub A4_height (fmul (lit (36 # 10)) cm))
  /\ on_page (fsub A4_height (fmul (Fin 5) cm)).
Proof.
  repeat split; eexists; (split; [vm_compute; reflexivity |]);
    split; apply Qle_bool_iff; vm_compute; reflexivity.
Qed.

(** One turn of the loop leaves the pen between the margins. *)
Lemma on_page_step y :
  on_page y ->
  on_page (if fltb (fsub y (fmul (lit (6 # 10)) cm)) (fmul (Fin 2) cm)
           then fsub A4_height (fmul (Fin 2) cm)
           else fsub y (fmul (lit (6 # 10)) cm)).
Proof.
  intros (q & -> & Hq).
  destruct report_heights as (E2 & Et & Es & H0 & H2t & Ht & Hs1 & Hs20).
  fold bottom_margin. fold top_margin.
  rewrite Es. set (s := val (fmul (lit (6 # 10)) cm)) in *.
  unfold fsub, fneg, fadd.
  destruct (@round_to_float_small 10 (q + Qred (- s))) as (y' & Hy & Ey & _).
  { lia. }
  { rewrite Qred_correct. change (pow2 10) with (1024%Q).
    apply Qabs_Qlt_condition. split; lra. }
  rewrite Hy. rewrite Qred_correct in Ey.
  assert (T : (pow2 (10 - 54) <= 1 # 2)%Q)
    by (apply Qle_bool_iff; vm_compute; reflexivity).
  apply Qabs_Qle_condition in Ey.
  destruct (fltb (Fin y') bottom_margin) eqn:E.
  - exists (val top_margin). split; [exact Et |]. split; lra.
  - exists y'. split; [reflexivity |].
    rewrite E2 in E. unfold fltb in E. apply negb_false_iff in E.
    apply Qle_bool_iff in E. split; lra.
Qed.

Section ReportFacts.

Variables (max_tox : float) (run_id started_at : string).

Lemma table_calls_margins its idx y :
  on_page y -> forallb within_margins (table_calls its idx y) = true.
Proof.
  revert idx y. induction its as [| [l r] its IH]; intros idx y Hy;
    [reflexivity |].
  cbn [table_calls]. cbv zeta.
  rewrite forallb_app. apply andb_true_intro. split.
  - apply forallb_forall. intros c Hc. unfold row_calls in Hc.
    cbn [In] in Hc.
    destruct Hc as [<- | [<- | [<- | [<- | [<- | []]]]]];
      apply on_page_within; exact Hy.
  - pose proof (on_page_step Hy) as Hn.
    destruct (fltb (fsub y (fmul (lit (6 # 10)) cm)) (fmul (Fin 2) cm)).
    + cbn [forallb within_margins]. apply IH, Hn.
    + apply IH, Hn.
Qed.

Lemma table_calls_pages its idx y :
  pages (table_calls its idx y) = breaks (List.length its) y.
Proof.
  revert idx y. induction its as [| [l r] its IH]; intros idx y;
    [reflexivity |].
  cbn [table_calls List.length breaks]. cbv zeta.
  unfold pages. rewrite filter_app, length_app.
  change (List.length (filter _ (row_calls y idx r))) with O.
  rewrite Nat.add_0_l.
  destruct (fltb (fsub y (fmul (lit (6 # 10)) cm)) (fmul (Fin 2) cm)).
  - cbn [filter List.length]. f_equal. apply IH.
  - apply IH.
Qed.

Lemma table_calls_texts its idx y :
  texts (table_calls its idx y)
  = flat_map row_texts
      (combine (range idx (idx + Z.of_nat (List.length its))) (map snd its)).
Proof.
  revert idx y. induction its as [| [l r] its IH]; intros idx y.
  - cbn [table_calls List.length map]. unfold range.
    replace (Z.to_nat (idx + Z.of_nat 0 - idx)) with O by lia. reflexivity.
  - cbn [table_calls List.length map]. cbv zeta.
    rewrite (@range_split idx (idx + 1) (idx + Z.of_nat (S (List.length its))))
      by lia.
    replace (range idx (idx + 1)) with [idx].
    2:{ unfold range. replace (Z.to_nat (idx + 1 - idx)) with 1%nat by lia.
        simpl. f_equal. lia. }
    replace (idx + Z.of_nat (S (List.length its)))
      with (idx + 1 + Z.of_nat (List.length its)) by lia.
    cbn [app combine flat_map]. unfold texts at 1.
    rewrite flat_map_app. cbn [row_calls flat_map app row_texts fst snd].
    do 5 f_equal.
    destruct (fltb (fsub y (fmul (lit (6 # 10)) cm)) (fmul (Fin 2) cm));
      cbn [flat_map app]; apply IH.
Qed.

Lemma breaks_first_page :
  forallb
    (fun n => Nat.eqb
                (breaks n (fsub (fsub A4_height (fmul (Fin 5) cm))
                             (fmul (lit (7 # 10)) cm)))
                (if (n <=? 36)%nat then 0 else 1)%nat)
    (seq 0 80) = true.
Proof. vm_compute. reflexivity. Qed.

End ReportFacts.


Section ReportTheorems.

Variables (max_tox : float) (run_id started_at : string).

(** X18 --
    No text leaves the page: whatever the frame, however long, every
    string of the report is drawn at a height between [2*cm] and
    [H - 2*cm]. *)
Theorem build_pdf_within_margins (title target_name : string)
  (df : list (Z * Row)) :
  forallb within_margins
    (build_pdf max_tox run_id started_at title target_name df) = true.
Proof.
  destruct on_page_start as (P0 & Pt & P3 & P36 & P5).
  unfold build_pdf. cbv zeta.
  rewrite !forallb_app.
  apply andb_true_intro; split;
    [| apply andb_true_intro; split; [| apply andb_true_intro; split]].
  - apply forallb_forall. intros c Hc. unfold heading_calls in Hc.
    cbn [In] in Hc.
    destruct Hc as [<- | [<- | [<- | [<- | [<- | []]]]]].
    + reflexivity.
    + apply on_page_within. exact Pt.
    + reflexivity.
    + apply on_page_within. exact P3.
    + apply on_page_within. exact P36.
  - apply forallb_forall. intros c Hc. unfold titles_calls in Hc.
    cbn [In] in Hc.
    destruct Hc as [<- | [<- | [<- | [<- | [<- | [<- | [<- | []]]]]]]];
      try reflexivity; apply on_page_within; exact P5.
  - apply table_calls_margins. exact P0.
  - reflexivity.
Qed.

(** X19 --
    The report of a frame of at most 36 rows has one page, and that of a
    frame of 37 to 79 rows has two. *)
Theorem build_pdf_pages (title target_name : string) (df : list (Z * Row)) :
  (List.length df < 80)%nat ->
  pages (build_pdf max_tox run_id started_at title target_name df)
  = (if (List.length df <=? 36)%nat then 1 else 2)%nat.
Proof.
  intros Hlen. unfold build_pdf. cbv zeta. unfold pages.
  rewrite !filter_app, !length_app.
  change (List.length (filter _ (heading_calls _ _ _ _ _ _))) with O.
  change (List.length (filter _ (titles_calls _))) with O.
  change (List.length (filter _ [showPage; save])) with 1%nat.
  fold (pages (table_calls df 1
                 (fsub (fsub A4_height (fmul (Fin 5) cm))
                    (fmul (lit (7 # 10)) cm)))).
  rewrite table_calls_pages.
  pose proof breaks_first_page as B. rewrite forallb_forall in B.
  specialize (B (List.length df)). rewrite in_seq in B.
  specialize (B ltac:(lia)). apply Nat.eqb_eq in B. rewrite B.
  destruct (List.length df <=? 36)%nat; reflexivity.
Qed.

End ReportTheorems.

Section ReportOfView.

Variables (max_tox : float) (run_id started_at : string).

(** X20 --
    The report prints the table that is shown: after the three lines of
    the heading and the five titles, the strings drawn are, row after row
    of [df_disp], the label of the row in the table (its rank, from 1), the
    name, and the activity, the toxicity and the composite score with two
    decimals; no row is lost where a page ends. *)
Theorem build_pdf_texts (title target_name : string) (view : DataFrame) :
  texts (build_pdf max_tox run_id started_at title target_name
           (df_disp view))
  = ([ title;
       "Target: " ++ target_name;
       "Toxicity " ++ String "226" (String "137" (String "164" ""))
         ++ " " ++ Fmt.format_f 2 max_tox
         ++ "; Top: " ++ Fmt.str_int (Z.of_nat (List.length (rows view)))
         ++ "; Run " ++ run_id ++ "; " ++ started_at;
       "#"; "Molecule"; "Activity"; "Toxicity"; "Composite" ]%string
     ++ flat_map row_texts (df_disp view))%list.
Proof.
  assert (L : List.length (df_disp view) = List.length (rows view)).
  { unfold df_disp. rewrite length_combine, length_df_disp. lia. }
  unfold build_pdf. cbv zeta. unfold texts.
  rewrite !flat_map_app. cbn [heading_calls titles_calls flat_map app].
  rewrite L. do 8 f_equal. rewrite app_nil_r.
  fold (texts (table_calls (df_disp view) 1
                 (fsub (fsub A4_height (fmul (Fin 5) cm))
                    (fmul (lit (7 # 10)) cm)))).
  rewrite table_calls_texts. f_equal. rewrite L.
  unfold df_disp.
  rewrite map_snd_combine by apply length_df_disp.
  do 2 f_equal. lia.
Qed.

End ReportOfView.


(** ** The model against the hardware and against CPython *)

(** [0.95 - 0.30], [0.72 * (1 - 0.12) * 1.25], a quotient and an overflow
    come out as the hardware computes them. *)
Example hardware_sub :
  fsub (lit (95 # 100)) (lit (30 # 100))
  = Q_of_prim (PrimFloat.sub (prim_hundredths 95) (prim_hundredths 30)).
Proof. vm_compute. reflexivity. Qed.

Example hardware_score :
  fmul (fmul (lit (72 # 100)) (fsub (Fin 1) (lit (12 # 100)))) (lit (125 # 100))
  = Q_of_prim
      (PrimFloat.mul
         (PrimFloat.mul (prim_hundredths 72)
            (PrimFloat.sub (prim_of_Z 1) (prim_hundredths 12)))
         (prim_hundredths 125)).
Proof. vm_compute. reflexivity. Qed.

Example hardware_div :
  fdiv math_pi (Fin 3)
  = Ok (Q_of_prim
          (PrimFloat.div
             (PrimFloat.div (prim_of_Z 3141592653589793)
                (prim_of_Z 1000000000000000))
             (prim_of_Z 3))).
Proof. vm_compute. reflexivity. Qed.

Example hardware_overflow :
  fmul (lit (inject_Z (2 ^ 1023))) (Fin 10)
  = Q_of_prim
      (PrimFloat.mul
         (PrimFloat.ldshiftexp (prim_of_Z 1) (Uint63.of_Z (1023 + 2101)))
         (prim_of_Z 10)).
Proof. vm_compute. reflexivity. Qed.

(** [random.Random(42)]: the first words of the state, the first 32-bit
    outputs, and [random()], [randint(0, 5)], [randint(1, 3)] in a row, as
    CPython gives them. *)
Example cpython_seed_42 :
  firstn 3 (MT.mt (MT.seed 42)) = [2147483648; 3564348608; 1266698288]
  /\ fst (MT.genrand_uint32 (MT.seed 42)) = 2746317213
  /\ (let (u, s) := MT.random (MT.seed 42) in
      let (i, s) := MT.randint 0 5 s in
      (u, i, fst (MT.randint 1 3 s)))
     = (5759444582531269 # 9007199254740992, 0, 3).
Proof. vm_compute. repeat split; reflexivity. Qed.

(** [hash("Mol-001")] under [PYTHONHASHSEED=0] and [PYTHONHASHSEED=1]. *)
Example cpython_str_hash :
  SipHash.str_hash 0 "Mol-001" = -5430553984505732127
  /\ SipHash.str_hash 1 "Mol-001" = 2401174587433333809
  /\ SipHash.str_hash 1 "" = 0.
Proof. vm_compute. repeat split; reflexivity. Qed.

Import Lib.

(** [generate_demo(10, 7)] on the AVX-512 argsort: Mol-004 and Mol-007
    both score 0.23 and stay in generation order there. *)
Example numpy_avx512_generate_demo_10_7 :
  option_map (fun df => map Molecule (rows df))
    (match fst (@generate_demo mersenne_twister simd_sorter 10 7 (MT.seed 0))
     with Ok df => Some df | Raise _ => None end)
  = Some [ "Mol-002"; "Mol-010"; "Mol-003"; "Mol-001"; "Mol-006"; "Mol-008";
           "Mol-005"; "Mol-004"; "Mol-007"; "Mol-009" ]%string.
Proof. vm_compute. reflexivity. Qed.

(** The six vertices of the icon of size 64 lie in the drawing, and the
    [hypot] of the small [libm] gives their distance from the centre within
    a thousandth: whichever vertex a substituent is drawn on, its line is
    [0.24 * 64] long, the square within half a percent. *)
Example icon_64_substituents :
  exists step pts,
    fdiv math_pi (Fin 3) = Ok step
    /\ map_result
         (vertex (Fin 32) (Fin 32) (fmul (Fin 64) (lit (26 # 100)))
            (fst (uniform (Fin 0) step
                    (seeded (SipHash.str_hash 0 "Mol-001" mod 10 ^ 7)))))
         (range 0 6) = Ok pts
    /\ Forall
         (fun p =>
            within_drawing 64 p
            /\ hypot_accurate (1 # 1000)
                 (fsub (fst p) (Fin 32)) (fsub (snd p) (Fin 32))
            /\ forall p3,
                 tip_of (Fin 32) (Fin 32) 64 p p3 ->
                 length_near (1 # 1000) ((24 # 100) * inject_Z 64) p p3)
         pts.
Proof.
  eexists. eexists. split; [vm_compute; reflexivity |].
  split; [vm_compute; reflexivity |].
  apply Forall_impl
    with (P := fun p =>
                 within_drawing 64 p
                 /\ hypot_accurate (1 # 1000)
                      (fsub (fst p) (Fin 32)) (fsub (snd p) (Fin 32))).
  - intros p [Hw Hh]. split; [exact Hw |]. split; [exact Hh |].
    intros p3 Ht.
    apply (@TipFacts.tip_length _ (Fin 32) (Fin 32) 64 p p3 (1 # 1000));
      try assumption; [lia | lra | lra].
  - repeat constructor.
    all: try (do 2 eexists; split; [reflexivity |];
              split; apply Qle_bool_iff; vm_compute; reflexivity).
    all: do 3 eexists; split; [vm_compute; reflexivity |];
         split; [vm_compute; reflexivity |];
         split; [vm_compute; reflexivity |];
         split; [apply Qlt_alt; vm_compute; reflexivity |];
         split; apply Qle_bool_iff; vm_compute; reflexivity.
Qed.

(** The records of [generate_demo(3, 42)], as CPython builds them; they
    come sorted already. *)
Example cpython_generate_demo_3_42 :
  fst (@generate_demo mersenne_twister insertion_sorter 3 42 (MT.seed 0))
  = Ok {| columns := frame_columns;
          rows :=
            [ mkRow "Mol-001" (lit (72 # 100)) (lit (12 # 100))
                (lit (79 # 100)) "priority";
              mkRow "Mol-002" (lit (48 # 100)) (lit (26 # 100))
                (lit (44 # 100)) "reserve";
              mkRow "Mol-003" (lit (78 # 100)) (lit (57 # 100))
                (lit (42 # 100)) "reserve" ] |}.
Proof. vm_compute. reflexivity. Qed.

(** ** The claims on the concrete libraries *)

Lemma ordered_pairs_b_true (A : Type) (P : A -> A -> Prop)
  (R : A -> A -> bool) (l : list A) :
  (forall a b, P a b -> R a b = true) ->
  ForallOrdPairs P l -> ordered_pairs_b R l = true.
Proof.
  intros H. induction 1 as [| a l Ha _ IH]; cbn [ordered_pairs_b];
    [reflexivity |].
  rewrite IH, andb_true_r. apply forallb_forall. intros b Hb.
  rewrite Forall_forall in Ha. apply H, Ha, Hb.
Qed.

Lemma ties_in_generation_order_true gen out :
  ties_in_generation_order gen out ->
  ties_in_generation_order_b gen out = true.
Proof.
  apply ordered_pairs_b_true. intros r1 r2 H.
  destruct (feqb (Composite_score r1) (Composite_score r2)); [| reflexivity].
  cbn [implb]. apply Nat.ltb_lt, H. reflexivity.
Qed.

(** C2: at [n = 3], [seed = 42], with the stable sort. *)
Lemma generate_demo_sorted_witness :
  exists df,
    fst (@generate_demo mersenne_twister insertion_sorter 3 42 (MT.seed 0))
    = Ok df
    /\ Permutation (rows df) (generated 3 42)
    /\ non_increasing (rows df)
    /\ (stable insertion_sorter ->
        ties_in_generation_order (generated 3 42) (rows df)).
Proof.
  apply (@generate_demo_sorted mersenne_twister insertion_sorter 3 42
           (MT.seed 0)).
  lia.
Defined.

(** C2, as stated, fails: in [generate_demo(10, 8)] the records Mol-002
    and Mol-010 both score 0.19, and the argsort numpy runs on a CPU with
    AVX-512 returns Mol-010 in front of Mol-002; Mol-003 and Mol-008, both
    at 0.33, stay as they were generated. *)
Lemma generate_demo_ties_reordered :
  exists df,
    fst (@generate_demo mersenne_twister simd_sorter 10 8 (MT.seed 0))
    = Ok df
    /\ map Molecule (rows df)
       = [ "Mol-004"; "Mol-005"; "Mol-006"; "Mol-003"; "Mol-008"; "Mol-009";
           "Mol-010"; "Mol-002"; "Mol-007"; "Mol-001" ]%string
    /\ map Composite_score (rows df)
       = [ lit (89 # 100); lit (52 # 100); lit (41 # 100); lit (33 # 100);
           lit (33 # 100); lit (28 # 100); lit (19 # 100); lit (19 # 100);
           lit (17 # 100); lit (13 # 100) ]
    /\ non_increasing (rows df)
    /\ ~ ties_in_generation_order (generated 10 8) (rows df).
Proof.
  destruct (@generate_demo_sorted mersenne_twister simd_sorter 10 8
              (MT.seed 0)) as (df & E & _ & Hs & _); [lia |].
  exists df. split; [exact E |].
  assert (E' : fst (@generate_demo mersenne_twister simd_sorter 10 8
                      (MT.seed 0)) = Ok df) by exact E.
  vm_compute in E'. injection E' as <-.
  split; [reflexivity |]. split; [vm_compute; reflexivity |].
  split; [exact Hs |].
  intros H. apply ties_in_generation_order_true in H.
  vm_compute in H. discriminate H.
Qed.

(** C3: at [n = 3], [seed = 42]. *)
Lemma generate_demo_ranges_witness :
  exists df,
    fst (@generate_demo mersenne_twister insertion_sorter 3 42 (MT.seed 0))
    = Ok df
    /\ Forall
         (fun r =>
            in_range (lit (30 # 100)) (Activity r) (lit (95 # 100)) = true
            /\ in_range (lit (10 # 100)) (Toxicity r) (lit (80 # 100)) = true
            /\ in_range (Fin 0) (Composite_score r) (Fin 1) = true)
         (rows df).
Proof.
  apply (@generate_demo_ranges mersenne_twister insertion_sorter 3 42
           (MT.seed 0)).
  lia.
Defined.

(** C4: at [n = 3], [seed = 42]. *)
Lemma generate_demo_derived_fields_witness :
  exists df,
    fst (@generate_demo mersenne_twister insertion_sorter 3 42 (MT.seed 0))
    = Ok df
    /\ Forall
         (fun r =>
            Composite_score r
            = py_round 2
                (py_max (Fin 0)
                   (py_min (Fin 1)
                      (fmul (fmul (Activity r) (fsub (Fin 1) (Toxicity r)))
                         (lit (125 # 100)))))
            /\ (Status r = "priority"%string
                <-> fleb (lit (7 # 10)) (Activity r) = true
                    /\ fleb (Toxicity r) (lit (5 # 10)) = true)
            /\ (Status r = "reserve"%string
                <-> ~ (fleb (lit (7 # 10)) (Activity r) = true
                       /\ fleb (Toxicity r) (lit (5 # 10)) = true)))
         (rows df).
Proof.
  apply (@generate_demo_derived_fields mersenne_twister insertion_sorter 3 42
           (MT.seed 0)).
  lia.
Defined.

(** C5: an empty batch, a batch of 3, and an icon of size -64. *)
Lemma error_contract_witness :
  fst (@generate_demo mersenne_twister insertion_sorter 0 42 (MT.seed 0))
  = Raise (KeyError "Composite score")
  /\ (exists df,
        fst (@generate_demo mersenne_twister insertion_sorter 3 42 (MT.seed 0))
        = Ok df)
  /\ (exists svg,
        molecule_svg (SipHash.str_hash 0) "Mol-001" (-64) default_stroke
        = Ok svg).
Proof.
  destruct (@error_contract mersenne_twister insertion_sorter taylor_libm
              (SipHash.str_hash 0)) as (Hempty & Hbatch & Hicon).
  split; [apply Hempty; lia |].
  split; [apply Hbatch; lia |].
  apply Hicon. reflexivity.
Defined.

(** C5, as stated, fails: [molecule_svg("Mol-001", 0)] and
    [molecule_svg("Mol-001", -64)] raise nothing. *)
Lemma molecule_svg_accepts_size_zero :
  is_ok (molecule_svg (SipHash.str_hash 0) "Mol-001" 0 default_stroke) = true
  /\ is_ok (molecule_svg (SipHash.str_hash 0) "Mol-001" (-64) default_stroke)
     = true.
Proof. split; vm_compute; reflexivity. Qed.


(** C7, on the Mersenne Twister: after [random.seed(0)] the module-level
    generator has all its 624 words to give; after [generate_demo(10, 42)]
    it is another generator, seeded with 42 and 40 words in. *)
Example generate_demo_changes_global_state :
  MT.index (MT.seed 0) = 624%nat
  /\ MT.index
       (snd (@generate_demo mersenne_twister insertion_sorter 10 42 (MT.seed 0)))
     = 40%nat
  /\ snd (@generate_demo mersenne_twister insertion_sorter 10 42 (MT.seed 0))
     <> MT.seed 0.
Proof.
  assert (E : MT.index
                (snd (@generate_demo mersenne_twister insertion_sorter 10 42
                        (MT.seed 0))) = 40%nat)
    by (vm_compute; reflexivity).
  split; [vm_compute; reflexivity |]. split; [exact E |].
  intros H.
  assert (F : MT.index (MT.seed 0) = 40%nat) by (rewrite <- H; exact E).
  clear H E. vm_compute in F. discriminate F.
Qed.

(** C8: in two processes, started with [PYTHONHASHSEED=0] and with
    [PYTHONHASHSEED=1], [molecule_svg("Mol-001", 64)] returns two different
    icons, with 3 substituents and with 1. *)
Theorem molecule_svg_differs_across_processes :
  n_sub (SipHash.str_hash 0) "Mol-001" = 3
  /\ n_sub (SipHash.str_hash 1) "Mol-001" = 1
  /\ same_markup
       (molecule_svg (SipHash.str_hash 0) "Mol-001" 64 default_stroke)
       (molecule_svg (SipHash.str_hash 1) "Mol-001" 64 default_stroke)
     = false.
Proof. vm_compute. repeat split; reflexivity. Qed.

(** C9: an icon of size 64. *)
Lemma molecule_icon_structure_witness :
  exists (ic : icon) (cx r step : float) (pts : list point)
         (picks : list (point * point)),
    molecule_icon (SipHash.str_hash 0) "Mol-001" 64 default_stroke = Ok ic
    /\ molecule_svg (SipHash.str_hash 0) "Mol-001" 64 default_stroke
       = Ok (render 64 ic)
    /\ (exists head : string,
          render 64 ic
          = (head ++ String.concat "" (edges ic)
               ++ String.concat "" (dbl ic)
               ++ String.concat "" (subs ic) ++ "</svg>")%string)
    /\ int_truediv 64 2 = Ok cx
    /\ int_mul_float 64 (lit (26 # 100)) = Ok r
    /\ fdiv math_pi (Fin 3) = Ok step
    /\ Forall2
         (on_hexagon cx cx r
            (fst (uniform (Fin 0) step
                    (seeded (SipHash.str_hash 0 "Mol-001" mod 10 ^ 7)))))
         [0; 1; 2; 3; 4; 5] pts
    /\ List.length (edges ic) = 6%nat
    /\ edges ic
       = map (fun i => segment (vertex_at pts i)
                         (vertex_at pts ((i + 1) mod 6)) "1.8" default_stroke)
           [0; 1; 2; 3; 4; 5]
    /\ List.length (dbl ic) = 3%nat
    /\ Forall2 (offset_line pts) [0; 2; 4] (dbl ic)
    /\ Z.of_nat (List.length picks)
       = fst (next_randint 1 3
                (seeded (SipHash.str_hash 0 "Mol-001" mod 10 ^ 6)))
    /\ (1 <= List.length picks <= 3)%nat
    /\ Forall (decoration cx cx 64 pts) picks
    /\ subs ic = flat_map decoration_markup picks.
Proof.
  apply (@molecule_icon_structure mersenne_twister taylor_libm
           (SipHash.str_hash 0) "Mol-001" 64 default_stroke).
  split; reflexivity.
Defined.

(** C9, as stated, fails: [2**1024] is a positive size, and
    [molecule_svg("Mol-001", 2**1024)] raises [OverflowError] at
    [size*0.26] before anything is drawn. *)
Lemma molecule_icon_overflows :
  0 < 2 ^ 1024
  /\ molecule_icon (SipHash.str_hash 0) "Mol-001" (2 ^ 1024) default_stroke
     = Raise OverflowError.
Proof. split; vm_compute; reflexivity. Qed.

(** C10: sizes 0 and 64. *)
Lemma molecule_svg_total_witness :
  (exists svg,
      molecule_svg (SipHash.str_hash 0) "Mol-001" 0 default_stroke = Ok svg)
  /\ (exists svg,
         molecule_svg (SipHash.str_hash 0) "Mol-001" 64 default_stroke
         = Ok svg).
Proof.
  split.
  - apply (@molecule_svg_total mersenne_twister taylor_libm
             (SipHash.str_hash 0) "Mol-001" 0 default_stroke).
    reflexivity.
  - apply (@molecule_svg_total mersenne_twister taylor_libm
             (SipHash.str_hash 0) "Mol-001" 64 default_stroke).
    reflexivity.
Defined.

(** C10, as stated, fails: [size = 2**1024] is an int, and [size*0.26]
    raises [OverflowError]; so does [2**1024 - 2**970], the first int that
    [float] refuses. *)
Lemma molecule_svg_overflows :
  molecule_svg (SipHash.str_hash 0) "Mol-001" (2 ^ 1024) default_stroke
  = Raise OverflowError
  /\ molecule_svg (SipHash.str_hash 0) "Mol-001" (2 ^ 1024 - 2 ^ 970)
       default_stroke
     = Raise OverflowError.
Proof. split; vm_compute; reflexivity. Qed.

(** ** The page on the concrete libraries

    The target is the first of the select box, in a process started with
    [PYTHONHASHSEED=0]: its hash is negative, the seed is 502475 and the
    run id shown is 497525. *)

Example page_of_first_target :
  SipHash.str_hash 0 "EGFR (non-small cell lung cancer)"
  = -2959666732777497525
  /\ run_id (SipHash.str_hash 0) "EGFR (non-small cell lung cancer)"
     = "497525"%string
  /\ SipHash.str_hash 0 "EGFR (non-small cell lung cancer)" mod 10 ^ 6
     = 502475.
Proof. repeat split; vm_compute; reflexivity. Qed.

(** X3: for the first target, [max_tox = 0.6] and [top_n = 5]. *)
Lemma df_view_top_witness :
  exists all view,
    fst (@df_all mersenne_twister insertion_sorter (SipHash.str_hash 0)
           "EGFR (non-small cell lung cancer)" (MT.seed 0)) = Ok all
    /\ @df_view mersenne_twister insertion_sorter (SipHash.str_hash 0)
         "EGFR (non-small cell lung cancer)" (lit (6 # 10)) 5 (MT.seed 0)
       = Ok view
    /\ Forall
         (fun r =>
            fleb (Toxicity r) (lit (6 # 10)) = true ->
            In r (rows view)
            \/ (Z.of_nat (List.length (rows view)) = 5
                /\ Forall (scores_below r) (rows view)))
         (rows all).
Proof.
  apply (@df_view_top mersenne_twister insertion_sorter (SipHash.str_hash 0)
           "EGFR (non-small cell lung cancer)" (lit (6 # 10)) 5 (MT.seed 0)).
  lia.
Defined.

(** X4: the slider at 0.05. *)
Lemma df_view_empty_witness :
  @df_view mersenne_twister insertion_sorter (SipHash.str_hash 0)
    "EGFR (non-small cell lung cancer)" (lit (5 # 100)) 5 (MT.seed 0)
  = Ok {| columns := frame_columns; rows := [] |}.
Proof.
  apply (@df_view_empty mersenne_twister insertion_sorter (SipHash.str_hash 0)
           "EGFR (non-small cell lung cancer)" (lit (5 # 100)) 5 (MT.seed 0)).
  vm_compute. reflexivity.
Defined.

(** X5: the slider at 1.0, five candidates asked for. *)
Lemma df_view_unfiltered_witness :
  exists all view,
    fst (@df_all mersenne_twister insertion_sorter (SipHash.str_hash 0)
           "EGFR (non-small cell lung cancer)" (MT.seed 0)) = Ok all
    /\ @df_view mersenne_twister insertion_sorter (SipHash.str_hash 0)
         "EGFR (non-small cell lung cancer)" (Fin 1) 5 (MT.seed 0)
       = Ok view
    /\ rows view = firstn (Z.to_nat 5) (rows all)
    /\ Z.of_nat (List.length (rows view)) = 5.
Proof.
  apply (@df_view_unfiltered mersenne_twister insertion_sorter
           (SipHash.str_hash 0) "EGFR (non-small cell lung cancer)" (Fin 1) 5
           (MT.seed 0)).
  - vm_compute. reflexivity.
  - lia.
Defined.

(** X6: three candidates, then five. *)
Lemma df_view_grows_witness :
  exists view view',
    @df_view mersenne_twister insertion_sorter (SipHash.str_hash 0)
      "EGFR (non-small cell lung cancer)" (lit (6 # 10)) 3 (MT.seed 0)
    = Ok view
    /\ @df_view mersenne_twister insertion_sorter (SipHash.str_hash 0)
         "EGFR (non-small cell lung cancer)" (lit (6 # 10)) 5 (MT.seed 0)
       = Ok view'
    /\ rows view = firstn (Z.to_nat 3) (rows view').
Proof.
  apply (@df_view_grows mersenne_twister insertion_sorter (SipHash.str_hash 0)
           "EGFR (non-small cell lung cancer)" (lit (6 # 10)) 3 5 (MT.seed 0)).
  lia.
Defined.

(** X7: at [n = 3], [seed = 42]. *)
Lemma generate_demo_names_plain_witness :
  exists df,
    fst (@generate_demo mersenne_twister insertion_sorter 3 42 (MT.seed 0))
    = Ok df
    /\ Forall
         (fun r =>
            exists d, Molecule r = ("Mol-" ++ d)%string
                      /\ all_digits d = true
                      /\ (3 <= String.length d)%nat)
         (rows df).
Proof.
  apply (@generate_demo_names_plain mersenne_twister insertion_sorter 3 42
           (MT.seed 0)).
  lia.
Defined.

(** X8: at [n = 3], [seed = 42]. *)
Lemma generate_demo_shown_exactly_witness :
  exists df,
    fst (@generate_demo mersenne_twister insertion_sorter 3 42 (MT.seed 0))
    = Ok df
    /\ Forall
         (fun r =>
            shown_exactly 30 95 (Activity r)
            /\ shown_exactly 10 80 (Toxicity r)
            /\ shown_exactly 0 100 (Composite_score r))
         (rows df).
Proof.
  apply (@generate_demo_shown_exactly mersenne_twister insertion_sorter 3 42
           (MT.seed 0)).
  lia.
Defined.

(** X9: at [n = 3], [seed = 42]. *)
Lemma generate_demo_score_floor_witness :
  exists df,
    fst (@generate_demo mersenne_twister insertion_sorter 3 42 (MT.seed 0))
    = Ok df
    /\ Forall
         (fun r =>
            fltb (Fin 0) (raw_score (Activity r) (Toxicity r)) = true
            /\ Composite_score r
               = py_round 2
                   (py_min (Fin 1) (raw_score (Activity r) (Toxicity r)))
            /\ fleb (lit (7 # 100)) (Composite_score r) = true)
         (rows df).
Proof.
  apply (@generate_demo_score_floor mersenne_twister insertion_sorter 3 42
           (MT.seed 0)).
  lia.
Defined.

(** X10: at [n = 3], [seed = 42]. *)
Lemma generate_demo_status_scores_witness :
  exists df,
    fst (@generate_demo mersenne_twister insertion_sorter 3 42 (MT.seed 0))
    = Ok df
    /\ Forall
         (fun r =>
            (Status r = "priority"%string ->
             fleb (lit (44 # 100)) (Composite_score r) = true)
            /\ (Status r = "reserve"%string ->
                fleb (Composite_score r) (lit (78 # 100)) = true))
         (rows df).
Proof.
  apply (@generate_demo_status_scores mersenne_twister insertion_sorter 3 42
           (MT.seed 0)).
  lia.
Defined.

(** X11: three records, then ten, with the seed 42. *)
Lemma generate_demo_extends_witness :
  exists dfn dfm,
    fst (@generate_demo mersenne_twister insertion_sorter 3 42 (MT.seed 0))
    = Ok dfn
    /\ fst (@generate_demo mersenne_twister insertion_sorter 10 42 (MT.seed 0))
       = Ok dfm
    /\ generated 3 42 = firstn (Z.to_nat 3) (generated 10 42)
    /\ Forall (fun r => In r (rows dfm)) (rows dfn).
Proof.
  apply (@generate_demo_extends mersenne_twister insertion_sorter 3 10 42
           (MT.seed 0)).
  lia.
Defined.

(** X17: at [n = 3], [seed = 42]. *)
Lemma safety_bounds_witness :
  exists df,
    fst (@generate_demo mersenne_twister insertion_sorter 3 42 (MT.seed 0))
    = Ok df
    /\ Forall
         (fun r =>
            in_range (fsub (Fin 1) (lit (80 # 100))) (Safety r)
              (lit (90 # 100)) = true
            /\ fltb (Safety r) (lit (20 # 100))
               = feqb (Toxicity r) (lit (80 # 100))
            /\ Composite_score r
               = py_round 2
                   (py_max (Fin 0)
                      (py_min (Fin 1)
                         (fmul (fmul (Activity r) (Safety r))
                            (lit (125 # 100))))))
         (rows df).
Proof.
  apply (@safety_bounds mersenne_twister insertion_sorter 3 42 (MT.seed 0)).
  lia.
Defined.

(** X13: in a process started with [PYTHONHASHSEED=0]
    the hashes of "Mol-169" and "Mol-4714" both end in 5196974. *)
Lemma molecule_svg_same_seed_witness :
  molecule_svg (SipHash.str_hash 0) "Mol-169" 64 default_stroke
  = molecule_svg (SipHash.str_hash 0) "Mol-4714" 64 default_stroke.
Proof.
  apply (@molecule_svg_same_seed mersenne_twister taylor_libm
           (SipHash.str_hash 0) "Mol-169" "Mol-4714" 64 default_stroke).
  vm_compute. reflexivity.
Defined.

(** X19: the report of three rows. *)
Lemma build_pdf_pages_witness :
  pages (build_pdf (lit (6 # 10)) "497525" "2025-01-01 12:00" "Shortlist"
           "EGFR (non-small cell lung cancer)" three_rows)
  = 1%nat.
Proof.
  apply (@build_pdf_pages (lit (6 # 10)) "497525" "2025-01-01 12:00"
           "Shortlist" "EGFR (non-small cell lung cancer)" three_rows).
  unfold three_rows. cbn [List.length]. lia.
Defined.

(** X12: an empty batch, with the seed 42. *)
Lemma generate_demo_raises_after_seeding_witness :
  @generate_demo mersenne_twister insertion_sorter 0 42 (MT.seed 0)
  = (Raise (KeyError "Composite score"), @seeded mersenne_twister 42).
Proof.
  apply (@generate_demo_raises_after_seeding mersenne_twister insertion_sorter
           0 42 (MT.seed 0)).
  lia.
Defined.
